(** * Upstream cluster management of sofa-mosn: a shallow embedding

    Two Go packages are embedded here:

    - [healthcheck] (pkg/upstream/healthcheck/factory.go): the process-wide
      registries of health-check session factories and common callbacks;
    - [cluster] (the cluster manager): the registry of primary clusters,
      the RCU-protected configuration snapshots, host updates and the
      connection-pool selection loop.

    The RCU cell the manager relies on is the module [rcu].

    Go maps and [sync.Map]s are finite maps ([gmap]); objects that the Go code
    shares by pointer (cluster objects, RCU cells) live in explicit heaps
    inside the manager state; calls into collaborators the manager does not
    own (load balancer, connection pools, the clock, dialing) go through an
    environment record and are logged in an event trace. *)

From stdpp Require Import gmap strings list fin_maps.
From Stdlib Require Import ZArith.

(** ** Package healthcheck *)

Module healthcheck.

(** Modelled from the spec: the declaration of [v2.HealthCheck] (package
    api/v2) is missing.  "[HealthCheck := { protocol, interval_ms,
    timeout_ms, healthy_threshold, unhealthy_threshold,
    initial_jitter_ms }]". *)
Record HealthCheck := mkHealthCheck {
  Protocol : string;
  IntervalMs : Z;
  TimeoutMs : Z;
  HealthyThreshold : Z;
  UnhealthyThreshold : Z;
  InitialJitterMs : Z
}.

(** Implementations of the interface [types.HealthCheckSessionFactory]:
    the default [TCPDialSessionFactory], the [mockSessionFactory] of
    mock_test.go, and any other implementation, told apart by a tag. *)
Inductive HealthCheckSessionFactory :=
| TCPDialSessionFactory
| mockSessionFactory
| otherSessionFactory (tag : nat).

(** A [types.HealthCheckCb] is a Go func value; it is identified by a tag. *)
Definition HealthCheckCb := nat.

(** Modelled from the spec: [newHealthChecker] is missing.  The checker is
    "created per cluster from its health-check spec" and uses a session
    factory to make the per-host sessions, so the model records exactly the
    three arguments it is built from.  The cluster is kept by name. *)
Record healthChecker := newHealthChecker {
  hc_cfg : HealthCheck;
  hc_cluster : string;
  hc_sessionFactory : HealthCheckSessionFactory
}.

(** The two package-level maps, created empty by [init]. *)
Record registry := mkRegistry {
  sessionFactories : gmap string HealthCheckSessionFactory;
  commonCallbacks : gmap string HealthCheckCb
}.

Definition init : registry :=
  {| sessionFactories := ∅; commonCallbacks := ∅ |}.

Definition RegisterSessionFactory
    (p : string) (f : HealthCheckSessionFactory) (r : registry) : registry :=
  {| sessionFactories := <[p := f]> (sessionFactories r);
     commonCallbacks := commonCallbacks r |}.

Definition CreateHealthCheck
    (r : registry) (cfg : HealthCheck) (cluster : string) : healthChecker :=
  let f :=
    match sessionFactories r !! Protocol cfg with
    | Some f => f
    | None => TCPDialSessionFactory (* not registered, use default session factory *)
    end in
  newHealthChecker cfg cluster f.

Definition RegisterCommonCallbacks
    (name : string) (cb : HealthCheckCb) (r : registry) : bool * registry :=
  match commonCallbacks r !! name with
  | Some _ => (false, r)
  | None =>
      (false,
       {| sessionFactories := sessionFactories r;
          commonCallbacks := <[name := cb]> (commonCallbacks r) |})
  end.

End healthcheck.

(** ** Package rcu *)

Module rcu.

(** Package rcu is not among the sources of this repository that are
    embedded here; the cell is modelled from the specification of the
    snapshot mechanism.  Pointers to values are generation numbers. *)
Section Value.
Context {A : Type}.

(** Modelled from the spec: the element type of package rcu is missing.  A
    value that was handed out, with "the cell's reader count" for it. *)
Record element := mkElement { value : A; count : Z }.

(** Modelled from the spec: the type [rcu.Value] is missing.  "An RCU cell
    containing the current" value; the values that readers may still hold
    are kept by their pointer. *)
Record Value := mkValue {
  current : nat;
  elements : gmap nat element
}.

Definition acquire (e : element) : element :=
  {| value := value e; count := (count e + 1)%Z |}.

Definition release (e : element) : element :=
  {| value := value e; count := (count e - 1)%Z |}.

(** Modelled from the spec: [rcu.NewValue] is missing.  A cell that holds
    the given value, without readers. *)
Definition NewValue (a : A) : Value :=
  {| current := 0; elements := {[ 0 := {| value := a; count := 0 |} ]} |}.

(** Modelled from the spec: [Value.Load] is missing.  It "increments the
    cell's reader count and returns the pointer the caller observed". *)
Definition Load (v : Value) : nat * Value :=
  (current v,
   {| current := current v; elements := alter acquire (current v) (elements v) |}).

(** Modelled from the spec: [Value.Put] is missing.  It "decrements" the
    reader count of the value behind the pointer. *)
Definition Put (p : nat) (v : Value) : Value :=
  {| current := current v; elements := alter release p (elements v) |}.

(** Reader count of the value behind pointer [p] (0 once released). *)
Definition readers (p : nat) (v : Value) : Z :=
  match elements v !! p with
  | Some e => count e
  | None => 0%Z
  end.

(** Modelled from the spec: [Value.Update] is missing.  It "stores [newCfg]
    as the new current value", "polls until the previous value's reader
    count reaches 0 (drained) or until [timeout] elapses", and "on success
    releases the previous value; on timeout returns a [Block] signal" (the
    old value leaks one generation).  In this sequential model no reader can
    return its ticket while the writer polls, so the poll succeeds exactly
    when the previous value has no reader at the time of the call.  The
    result is [true] for the [Block] signal. *)
Definition Update (a : A) (wait : Z) (v : Value) : bool * Value :=
  let old := current v in
  let p := S old in
  let stored := <[p := {| value := a; count := 0 |}]> (elements v) in
  if decide (readers old v = 0%Z)
  then (false, {| current := p; elements := delete old stored |})
  else (true, {| current := p; elements := stored |}).
End Value.

Arguments element : clear implicits.
Arguments Value : clear implicits.

End rcu.

(** ** Package cluster: the cluster manager *)

Module cluster.

Definition cycleTimes : nat := 5.

(** [time.Duration] counts nanoseconds. *)
Definition Duration := Z.
Definition Millisecond : Duration := 1000000%Z.

(** *** Configuration ([v2.Host], [v2.Cluster]) *)

(** Configurations are compared with [reflect.DeepEqual], which tells a nil
    slice from an empty slice that is not nil, and a nil map from an empty
    map.  A slice or map inside a configuration is therefore [None] when it
    is nil and [Some] of its content otherwise, so that two configurations
    are equal exactly when [reflect.DeepEqual] says so. *)

(** Modelled from the spec: the declaration of [v2.Host] (package api/v2) is
    missing.  "[v2.Host := { address, hostname, weight, metadata,
    health_flags }]"; the metadata is a "map (string→string)". *)
Record v2Host := mkHostConfig {
  Address : string;
  Hostname : string;
  Weight : Z;
  MetaData : option (gmap string string);
  HealthFlags : Z
}.

(** Modelled from the spec: the declaration of [v2.Cluster] (package api/v2)
    is missing.  "[v2.Cluster := { name, type, lb_type, connect_timeout_ms,
    max_request_per_conn, per_conn_buffer_limit, hosts, health_check,
    lb_subset_config, tls_context }]"; the host list is a slice, nil when
    the configuration names no hosts; the subset and TLS parts are carried
    as opaque values, they only take part in the comparison of two
    configurations, where two of them are the same value exactly when
    [reflect.DeepEqual] holds of the parts they stand for. *)
Record v2Cluster := mkClusterConfig {
  Name : string;
  ClusterType : string;
  LbType : string;
  ConnectTimeoutMs : Z;
  MaxRequestPerConn : Z;
  ConnBufferLimitBytes : Z;
  Hosts : option (list v2Host);
  HealthCheck : healthcheck.HealthCheck;
  LBSubsetConfig : string;
  TLS : string
}.

Definition SIMPLE_CLUSTER : string := "SIMPLE".
Definition EDS_CLUSTER : string := "EDS".

#[global] Instance HealthCheck_eq_dec : EqDecision healthcheck.HealthCheck.
Proof. solve_decision. Defined.
#[global] Instance v2Host_eq_dec : EqDecision v2Host.
Proof. solve_decision. Defined.
#[global] Instance v2Cluster_eq_dec : EqDecision v2Cluster.
Proof. solve_decision. Defined.

(** [config.Hosts = hostsConfig] on a copy of the configuration, where
    [hostsConfig] is the slice that [make([]v2.Host, 0, len(hosts))] and the
    appends build: it is not nil, also when it has no element. *)
Definition withHosts (hs : list v2Host) (c : v2Cluster) : v2Cluster :=
  {| Name := Name c; ClusterType := ClusterType c; LbType := LbType c;
     ConnectTimeoutMs := ConnectTimeoutMs c;
     MaxRequestPerConn := MaxRequestPerConn c;
     ConnBufferLimitBytes := ConnBufferLimitBytes c;
     Hosts := Some hs; HealthCheck := HealthCheck c;
     LBSubsetConfig := LBSubsetConfig c; TLS := TLS c |}.

(** [deepCopyCluster] copies the struct behind the pointer; configurations
    are values here, so the copy is the value itself. *)
Definition deepCopyCluster (c : v2Cluster) : v2Cluster := c.

(** *** Hosts, host sets, clusters *)

(** A [types.LoadBalancer] instance is a handle; what it chooses is the
    environment's business (see [Env]). *)
Definition LoadBalancer := nat.

(** Modelled from the spec: the declaration of [types.ClusterInfo] is
    missing.  The "immutable per-cluster identity", with what the manager
    reads from it: the name, the type, the load-balancer kind, and the
    load-balancer instance behind [LBInstance()]. *)
Record ClusterInfo := mkClusterInfo {
  info_Name : string;
  info_ClusterType : string;
  info_LbType : string;
  info_LBInstance : LoadBalancer
}.

(** Modelled from the spec: the host type is missing.  A host is its
    configuration ("network address + optional hostname + metadata map"),
    the info of the cluster it was made for, and "a bitset of health
    flags". *)
Record Host := mkHost {
  host_config : v2Host;
  host_info : ClusterInfo;
  host_flags : Z
}.

(** Modelled from the spec: [NewHost] is missing.  "A new Host is
    constructed on any config change", from the host configuration and the
    cluster info it is called with. *)
Definition NewHost (hc : v2Host) (info : ClusterInfo) : Host :=
  {| host_config := hc; host_info := info; host_flags := HealthFlags hc |}.

Definition AddressString (h : Host) : string := Address (host_config h).
Definition Config (h : Host) : v2Host := host_config h.

(** Modelled from the spec: the host-set type is missing.  An "ordered
    sequence of Hosts at one priority", read through [Hosts()]. *)
Record HostSet := mkHostSet { hs_Hosts : list Host }.

(** Modelled from the spec: the priority-set type is missing.  A "vector of
    HostSets indexed by priority", read through [HostSetsByPriority()]. *)
Definition PrioritySet := list HostSet.

(** Modelled from the spec: [GetOrCreateHostSet] is missing.  It keeps the
    "indices dense from 0 up to the highest used priority". *)
Definition GetOrCreateHostSet (p : nat) (ps : PrioritySet) : PrioritySet :=
  (ps ++ replicate (S p - length ps) {| hs_Hosts := [] |})%list.

(** Modelled from the spec: the declaration of [simpleInMemCluster] is
    missing.  A cluster "composes one ClusterInfo with one PrioritySet";
    the manager reads them through [Info()] and [PrioritySet()], and reads
    the field [hosts] of the in-memory cluster. *)
Record simpleInMemCluster := mkSimple {
  sc_info : ClusterInfo;
  sc_prioritySet : PrioritySet;
  sc_hosts : list Host
}.

(** Values of the interface [types.Cluster] held by the manager: the
    package's own [*simpleInMemCluster], or another implementation. *)
Inductive Cluster :=
| SimpleInMem (c : simpleInMemCluster)
| OtherCluster (info : ClusterInfo) (ps : PrioritySet).

Definition Info (c : Cluster) : ClusterInfo :=
  match c with
  | SimpleInMem c => sc_info c
  | OtherCluster info _ => info
  end.

Definition ClusterPrioritySet (c : Cluster) : PrioritySet :=
  match c with
  | SimpleInMem c => sc_prioritySet c
  | OtherCluster _ ps => ps
  end.

(** Modelled from the spec: [simpleInMemCluster.UpdateHosts] is missing.
    It does not receive a priority: "priority is
    hard-coded to 0 in endpoint updates".  It "rebuilds the host set at
    that priority" from the new host list and keeps the list as the
    cluster's hosts; the membership callback the manager registers in
    [loadCluster] is an empty function, so firing it changes nothing. *)
Definition simpleInMemCluster_UpdateHosts
    (newHosts : list Host) (c : simpleInMemCluster) : simpleInMemCluster :=
  {| sc_info := sc_info c;
     sc_prioritySet :=
       <[0 := {| hs_Hosts := newHosts |}]> (GetOrCreateHostSet 0 (sc_prioritySet c));
     sc_hosts := newHosts |}.

(** *** Results of Go calls

    A call returns, or it panics (a failed type assertion, a method call
    through a nil pointer). *)
Inductive go (A : Type) :=
| Ret (a : A)
| Panic.
Arguments Ret {A} a.
Arguments Panic {A}.

(** *** Manager state *)

(** Objects that the Go code reaches through pointers live in two heaps of
    the manager state, and a pointer is a heap address: cluster objects
    (shared between a primary cluster and the snapshots taken from it) and
    RCU cells (shared between a primary cluster and its snapshots).  An
    address outside the heap stands for a nil pointer. *)
Definition ref := nat.

Record primaryCluster := mkPrimary {
  pc_cluster : ref;            (* cluster     types.Cluster *)
  addedViaAPI : bool;
  configUsed : v2Cluster;      (* used for update *)
  configLock : ref             (* configLock  *rcu.Value *)
}.

(** Modelled from the spec: the pool types are missing.  A connection pool
    is "keyed by (protocol, host-address)" and made by a per-protocol factory
    from a host; its readiness is the environment's business. *)
Record ConnectionPool := mkPool {
  pool_Protocol : string;
  pool_Host : Host
}.

Record clusterManager := mkManager {
  sourceAddr : string;
  primaryClusters : gmap string primaryCluster;
  protocolConnPool : gmap string (gmap string ConnectionPool);
  clusterObjs : gmap ref Cluster;
  rcuObjs : gmap ref (rcu.Value v2Cluster)
}.

Record clusterSnapshot := mkSnapshot {
  prioritySet : ref;           (* the priority set of this cluster object *)
  clusterInfo : ClusterInfo;
  loadbalancer : LoadBalancer;
  value : ref;                 (* value   *rcu.Value *)
  config : nat                 (* config  the pointer Load returned *)
}.

(** Non-nil values of the interface [types.ClusterSnapshot]; a nil
    snapshot is [None]. *)
Inductive ClusterSnapshot :=
| Internal (cs : clusterSnapshot)
| Foreign (info : ClusterInfo).

(** The two functions that build clusters are declared elsewhere in the
    package and are parameters here: [NewCluster] (a nil cluster is [None])
    and the cluster's [Initialize]. *)
Record Factory := mkFactory {
  NewCluster : v2Cluster -> string -> bool -> option Cluster;
  Initialize : Cluster -> Cluster
}.

Definition setPrimaryClusters
    (m : gmap string primaryCluster) (cm : clusterManager) : clusterManager :=
  {| sourceAddr := sourceAddr cm; primaryClusters := m;
     protocolConnPool := protocolConnPool cm;
     clusterObjs := clusterObjs cm; rcuObjs := rcuObjs cm |}.

Definition setProtocolConnPool
    (m : gmap string (gmap string ConnectionPool)) (cm : clusterManager)
    : clusterManager :=
  {| sourceAddr := sourceAddr cm; primaryClusters := primaryClusters cm;
     protocolConnPool := m;
     clusterObjs := clusterObjs cm; rcuObjs := rcuObjs cm |}.

Definition setClusterObjs
    (m : gmap ref Cluster) (cm : clusterManager) : clusterManager :=
  {| sourceAddr := sourceAddr cm; primaryClusters := primaryClusters cm;
     protocolConnPool := protocolConnPool cm;
     clusterObjs := m; rcuObjs := rcuObjs cm |}.

Definition setRcuObjs
    (m : gmap ref (rcu.Value v2Cluster)) (cm : clusterManager) : clusterManager :=
  {| sourceAddr := sourceAddr cm; primaryClusters := primaryClusters cm;
     protocolConnPool := protocolConnPool cm;
     clusterObjs := clusterObjs cm; rcuObjs := m |}.

(** The state [NewClusterManager] starts from: no cluster, and an empty
    address map for every protocol that has a pool factory. *)
Definition emptyManager (addr : string) (protocols : list string) : clusterManager :=
  {| sourceAddr := addr; primaryClusters := ∅;
     protocolConnPool := list_to_map ((fun k => (k, ∅)) <$> protocols);
     clusterObjs := ∅; rcuObjs := ∅ |}.

(** *** primaryCluster *)

(** [NewPrimaryCluster]: the cluster object is stored at a fresh address,
    and [rcu.NewValue(config)] makes a fresh cell. *)
Definition NewPrimaryCluster
    (cluster : Cluster) (config : v2Cluster) (viaAPI : bool)
    (cm : clusterManager) : primaryCluster * clusterManager :=
  let c := fresh (dom (clusterObjs cm)) in
  let l := fresh (dom (rcuObjs cm)) in
  ({| pc_cluster := c; addedViaAPI := viaAPI;
      configUsed := config; configLock := l |},
   setRcuObjs (<[l := rcu.NewValue config]> (rcuObjs cm))
     (setClusterObjs (<[c := cluster]> (clusterObjs cm)) cm)).

(** [pc.UpdateCluster(cluster, config, addedViaAPI)].  The caller passes a
    cluster object and a configuration that are not nil, so the guard on
    nil arguments does not fire.  The result is the changed [*pc], whether
    [Update] signalled [rcu.Block], and the heaps. *)
Definition UpdateCluster
    (cluster : ref) (config : v2Cluster) (viaAPI : bool)
    (pc : primaryCluster) (cm : clusterManager)
    : go (bool * primaryCluster * clusterManager) :=
  let pc' := {| pc_cluster := cluster; addedViaAPI := viaAPI;
                configUsed := deepCopyCluster config;
                configLock := configLock pc |} in
  match rcuObjs cm !! configLock pc with
  | None => Panic
  | Some v =>
      let '(blocked, v') := rcu.Update (configUsed pc') 0 v in
      Ret (blocked, pc', setRcuObjs (<[configLock pc := v']> (rcuObjs cm)) cm)
  end.

(** [pc.UpdateHosts(hosts)]. *)
Definition UpdateHosts
    (hosts : list Host) (pc : primaryCluster) (cm : clusterManager)
    : go (bool * primaryCluster * clusterManager) :=
  match clusterObjs cm !! pc_cluster pc with
  | None => Panic
  | Some obj =>
      let '(hosts, objs) :=
        match obj with
        | SimpleInMem c =>
            let c' := simpleInMemCluster_UpdateHosts hosts c in
            (sc_hosts c' (* set the final host *),
             <[pc_cluster pc := SimpleInMem c']> (clusterObjs cm))
        | OtherCluster _ _ => (hosts, clusterObjs cm)
        end in
      let config := withHosts (Config <$> hosts) (deepCopyCluster (configUsed pc)) in
      let pc' := {| pc_cluster := pc_cluster pc; addedViaAPI := addedViaAPI pc;
                    configUsed := config; configLock := configLock pc |} in
      match rcuObjs cm !! configLock pc with
      | None => Panic
      | Some v =>
          let '(blocked, v') := rcu.Update config 0 v in
          Ret (blocked, pc',
               setRcuObjs (<[configLock pc := v']> (rcuObjs cm))
                 (setClusterObjs objs cm))
      end
  end.

(** *** Errors

    The Go code builds its errors with [fmt.Errorf] and [errors.New]; each
    message is a constructor, with the values the message is formatted
    from.  A nil error is [None]. *)
Inductive error :=
| ErrRemoveNotAddedViaAPI (clusterName : string)
| ErrRemoveNotExist (clusterName : string)
| ErrUpdateHostsBlocked (clusterName : string)
| ErrUpdateHostsNotFound (clusterName : string)
| ErrAppendHostsBlocked (clusterName : string)
| ErrAppendHostsNotFound (clusterName : string)
| ErrHostAddressNil
| ErrRemoveHostBlocked (hostAddress clusterName : string)
| ErrHostNotExist (hostAddress : string)
| ErrClusterNotValid (clusterName : string)
| ErrClusterNotExist (clusterName : string)
| ErrChooseHostNil
| ErrNewPoolFactoryNil (protocol : string)
| ErrNoHealthHosts.

(** *** clusterManager: the mutators

    The calls into the admin store and the logger are left out: they do not
    touch the manager. *)

Definition loadCluster
    (F : Factory) (clusterConfig : v2Cluster) (viaAPI : bool)
    (cm : clusterManager) : bool * clusterManager :=
  match NewCluster F clusterConfig (sourceAddr cm) viaAPI with
  | None => (false, cm)
  | Some cluster =>
      let cluster := Initialize F cluster in
      let '(pc, cm) := NewPrimaryCluster cluster clusterConfig viaAPI cm in
      (true, setPrimaryClusters (<[Name clusterConfig := pc]> (primaryClusters cm)) cm)
  end.

(** [updateCluster]: [pcluster] is the record registered under the name of
    [clusterConf]; the changes the Go code makes through the pointer are
    written back under that name. *)
Definition updateCluster
    (F : Factory) (clusterConf : v2Cluster) (pcluster : primaryCluster)
    (viaAPI : bool) (cm : clusterManager) : go (bool * clusterManager) :=
  (* diff cluster: [reflect.DeepEqual] on two configurations is equality of
     their values, nil slices and maps being told from empty ones *)
  if decide (clusterConf = configUsed pcluster) then Ret (true, cm)
  else
    match clusterObjs cm !! pc_cluster pcluster with
    | None => Panic
    | Some (OtherCluster _ _) => Ret (false, cm)
    | Some (SimpleInMem concretedCluster) =>
        let hosts := sc_hosts concretedCluster in
        match NewCluster F clusterConf (sourceAddr cm) viaAPI with
        | Some (SimpleInMem cluster) =>
            let cluster := simpleInMemCluster_UpdateHosts hosts cluster in
            let c := fresh (dom (clusterObjs cm)) in
            let cm := setClusterObjs (<[c := SimpleInMem cluster]> (clusterObjs cm)) cm in
            match UpdateCluster c clusterConf viaAPI pcluster cm with
            | Panic => Panic
            | Ret (_, pc', cm) =>
                Ret (true,
                     setPrimaryClusters
                       (<[Name clusterConf := pc']> (primaryClusters cm)) cm)
            end
        | _ => Panic (* cluster.( *simpleInMemCluster ) on nil or another type *)
        end
    end.

Definition AddOrUpdatePrimaryCluster
    (F : Factory) (cluster : v2Cluster) (cm : clusterManager)
    : go (bool * clusterManager) :=
  let clusterName := Name cluster in
  match primaryClusters cm !! clusterName with
  | Some v =>
      if negb (addedViaAPI v) then Ret (false, cm)
      else (* update cluster *) updateCluster F cluster v true cm
  | None => (* add new cluster *) Ret (loadCluster F cluster true cm)
  end.

Definition ClusterExist (clusterName : string) (cm : clusterManager) : bool :=
  bool_decide (is_Some (primaryClusters cm !! clusterName)).

Fixpoint RemovePrimaryCluster
    (clusterNames : list string) (cm : clusterManager)
    : option error * clusterManager :=
  match clusterNames with
  | [] => (None, cm)
  | clusterName :: rest =>
      match primaryClusters cm !! clusterName with
      | Some v =>
          if negb (addedViaAPI v)
          then (Some (ErrRemoveNotAddedViaAPI clusterName), cm)
          else RemovePrimaryCluster rest
                 (setPrimaryClusters (delete clusterName (primaryClusters cm)) cm)
      | None => (Some (ErrRemoveNotExist clusterName), cm)
      end
  end.

(** The common tail of the three host mutators: run [pc.UpdateHosts], keep
    what it changed behind [pc], and turn [rcu.Block] into the caller's
    error. *)
Definition applyUpdateHosts
    (clusterName : string) (pc : primaryCluster) (hosts : list Host)
    (blockedErr : error) (cm : clusterManager) : go (option error * clusterManager) :=
  match UpdateHosts hosts pc cm with
  | Panic => Panic
  | Ret (blocked, pc', cm) =>
      let cm := setPrimaryClusters (<[clusterName := pc']> (primaryClusters cm)) cm in
      Ret (if blocked then Some blockedErr else None, cm)
  end.

Definition UpdateClusterHosts
    (clusterName : string) (priority : nat) (hostConfigs : list v2Host)
    (cm : clusterManager) : go (option error * clusterManager) :=
  match primaryClusters cm !! clusterName with
  | Some pc =>
      match clusterObjs cm !! pc_cluster pc with
      | None => Panic
      | Some pcc =>
          let hosts := (fun hc => NewHost hc (Info pcc)) <$> hostConfigs in
          applyUpdateHosts clusterName pc hosts (ErrUpdateHostsBlocked clusterName) cm
      end
  | None => Ret (Some (ErrUpdateHostsNotFound clusterName), cm)
  end.

Definition AppendClusterHosts
    (clusterName : string) (priority : nat) (hostConfigs : list v2Host)
    (cm : clusterManager) : go (option error * clusterManager) :=
  match primaryClusters cm !! clusterName with
  | Some pc =>
      match clusterObjs cm !! pc_cluster pc with
      | None => Panic
      | Some pcc =>
          let hosts :=
            match pcc with
            | SimpleInMem concretedCluster => sc_hosts concretedCluster
            | OtherCluster _ _ => []
            end in
          let hosts := (hosts ++ ((fun hc => NewHost hc (Info pcc)) <$> hostConfigs))%list in
          applyUpdateHosts clusterName pc hosts (ErrAppendHostsBlocked clusterName) cm
      end
  | None => Ret (Some (ErrAppendHostsNotFound clusterName), cm)
  end.

(** The search loop of [RemoveClusterHost]: the first index [i] with
    [hostAddress == hosts[i].AddressString()], counted from [i]. *)
Fixpoint findHost (hostAddress : string) (hosts : list Host) (i : nat) : option nat :=
  match hosts with
  | [] => None
  | h :: rest =>
      if decide (hostAddress = AddressString h) then Some i
      else findHost hostAddress rest (S i)
  end.

Definition RemoveClusterHost
    (clusterName hostAddress : string) (cm : clusterManager)
    : go (option error * clusterManager) :=
  if decide (hostAddress = "") then Ret (Some ErrHostAddressNil, cm)
  else
    match primaryClusters cm !! clusterName with
    | Some pc =>
        match clusterObjs cm !! pc_cluster pc with
        | None => Panic
        | Some (SimpleInMem concretedCluster) =>
            let hosts := sc_hosts concretedCluster in
            match findHost hostAddress hosts 0 with
            | Some i =>
                let ccHosts := (take i hosts ++ drop (S i) hosts)%list in
                applyUpdateHosts clusterName pc ccHosts
                  (ErrRemoveHostBlocked hostAddress clusterName) cm
            | None => Ret (Some (ErrHostNotExist hostAddress), cm)
            end
        | Some (OtherCluster _ _) => Ret (Some (ErrClusterNotValid clusterName), cm)
        end
    | None => Ret (Some (ErrClusterNotExist clusterName), cm)
    end.

(** *** clusterManager: snapshots *)

Definition GetClusterSnapshot
    (clusterName : string) (cm : clusterManager)
    : go (option ClusterSnapshot * clusterManager) :=
  match primaryClusters cm !! clusterName with
  | Some pc =>
      match clusterObjs cm !! pc_cluster pc, rcuObjs cm !! configLock pc with
      | Some pcc, Some v =>
          let '(p, v') := rcu.Load v in
          Ret (Some (Internal
                 {| prioritySet := pc_cluster pc;
                    clusterInfo := Info pcc;
                    loadbalancer := info_LBInstance (Info pcc);
                    value := configLock pc;
                    config := p |}),
               setRcuObjs (<[configLock pc := v']> (rcuObjs cm)) cm)
      | _, _ => Panic
      end
  | None => Ret (None, cm)
  end.

Definition PutClusterSnapshot
    (snapshot : option ClusterSnapshot) (cm : clusterManager) : go clusterManager :=
  match snapshot with
  | None => Ret cm
  | Some (Internal s) =>
      match rcuObjs cm !! value s with
      | Some v => Ret (setRcuObjs (<[value s := rcu.Put (config s) v]> (rcuObjs cm)) cm)
      | None => Panic
      end
  | Some (Foreign _) => Ret cm
  end.

(** What a holder of the snapshot sees through [PrioritySet()]: the
    priority set of the cluster object the snapshot refers to, as it is
    now. *)
Definition snapshotPrioritySet
    (s : clusterSnapshot) (cm : clusterManager) : option PrioritySet :=
  ClusterPrioritySet <$> clusterObjs cm !! prioritySet s.

(** *** The request path: collaborators and their trace *)

(** [context.Context] values are told apart by a tag; whether a context is
    cancelled is a fact of the world ([Done] below). *)
Definition Context := nat.

(** Modelled from the spec: the declaration of [types.LoadBalancerContext]
    is missing.  It "supplies [DownstreamHeaders()], [MetadataMatchCriteria()],
    [DownstreamContext()]". *)
Record LoadBalancerContext := mkLbCtx {
  DownstreamContext : Context;
  DownstreamHeaders : gmap string string;
  MetadataMatchCriteria : gmap string string
}.

(** Modelled from the spec: the declaration of [types.CreateConnectionData]
    is missing.  "A freshly dialed transport plus its remote address"; the
    zero value has neither. *)
Record CreateConnectionData := mkConnData {
  Connection : option nat;
  HostInfo : option Host
}.

Definition emptyConnectionData : CreateConnectionData :=
  {| Connection := None; HostInfo := None |}.

(** The collaborators of the request path, over a world [W] of their own:
    the load balancer, the pools' [CheckAndInit], the clock, dialing, the
    cancellation state of a context, and the registry
    [network.ConnNewPoolFactories]. *)
Record Env (W : Type) := mkEnv {
  ChooseHost : LoadBalancer -> LoadBalancerContext -> W -> option Host * W;
  CheckAndInit : ConnectionPool -> Context -> W -> bool * W;
  Sleep : Duration -> W -> W;
  CreateConnection : Host -> W -> CreateConnectionData * W;
  Done : Context -> W -> bool;
  ConnNewPoolFactories : gmap string (Host -> ConnectionPool)
}.
Arguments ChooseHost {W} _ _ _ _.
Arguments CheckAndInit {W} _ _ _ _.
Arguments Sleep {W} _ _ _.
Arguments CreateConnection {W} _ _ _.
Arguments Done {W} _ _ _.
Arguments ConnNewPoolFactories {W} _.

(** Every call into a collaborator, every look-up and store in the address
    map of a protocol and every use of the manager's mutex is logged, in the
    order it happens. *)
Inductive Event :=
| EvChooseHost (host : option Host)
| EvCheckAndInit (pool : ConnectionPool) (ready : bool)
| EvLoadPool (protocol addr : string) (found : bool)
| EvLock
| EvUnlock
| EvStorePool (protocol addr : string) (pool : ConnectionPool)
| EvSleep (d : Duration)
| EvCreateConnection (host : Host).

Record machine (W : Type) := mkMachine {
  mgr : clusterManager;
  world : W;
  events : list Event
}.
Arguments mkMachine {W} _ _ _.
Arguments mgr {W} _.
Arguments world {W} _.
Arguments events {W} _.

Section RequestPath.
Context {W : Type} (E : Env W).

Definition emit (ev : Event) (m : machine W) : machine W :=
  mkMachine (mgr m) (world m) (events m ++ [ev]).

Definition doChooseHost
    (lb : LoadBalancer) (ctx : LoadBalancerContext) (m : machine W)
    : option Host * machine W :=
  let '(h, w) := ChooseHost E lb ctx (world m) in
  (h, mkMachine (mgr m) w (events m ++ [EvChooseHost h])).

Definition doCheckAndInit
    (pool : ConnectionPool) (ctx : Context) (m : machine W) : bool * machine W :=
  let '(b, w) := CheckAndInit E pool ctx (world m) in
  (b, mkMachine (mgr m) w (events m ++ [EvCheckAndInit pool b])).

Definition doSleep (d : Duration) (m : machine W) : machine W :=
  mkMachine (mgr m) (Sleep E d (world m)) (events m ++ [EvSleep d]).

Definition doCreateConnection (h : Host) (m : machine W)
    : CreateConnectionData * machine W :=
  let '(d, w) := CreateConnection E h (world m) in
  (d, mkMachine (mgr m) w (events m ++ [EvCreateConnection h])).

(** [connectionPool.Load(addr)] on the inner map of the protocol, as the
    map is now. *)
Definition loadPool (protocol addr : string) (m : machine W)
    : option ConnectionPool * machine W :=
  let connPool := protocolConnPool (mgr m) !! protocol ≫= (fun cp => cp !! addr) in
  (connPool,
   emit (EvLoadPool protocol addr
           match connPool with Some _ => true | None => false end) m).

(** [connectionPool.Store(addr, newPool)] on the inner map of the
    protocol. *)
Definition storePool
    (protocol addr : string) (pool : ConnectionPool) (m : machine W) : machine W :=
  mkMachine
    (setProtocolConnPool
       (alter (insert addr pool) protocol (protocolConnPool (mgr m))) (mgr m))
    (world m) (events m ++ [EvStorePool protocol addr pool]).

Definition TCPConnForCluster
    (lbCtx : LoadBalancerContext) (snapshot : option ClusterSnapshot)
    (m : machine W) : CreateConnectionData * machine W :=
  match snapshot with
  | None => (emptyConnectionData, m)
  | Some (Foreign _) => (emptyConnectionData, m)
  | Some (Internal clusterSnapshot) =>
      let '(host, m) := doChooseHost (loadbalancer clusterSnapshot) lbCtx m in
      match host with
      | Some host => doCreateConnection host m
      | None => (emptyConnectionData, m)
      end
  end.

(** The outcome of one turn of a loop of [getActiveConnectionPool]:
    the function returns, panics, or the loop goes on with the array
    [pools]. *)
Inductive turn :=
| Return (r : ConnectionPool + error) (m : machine W)
| Crash
| Continue (pools : list (option ConnectionPool)) (m : machine W).

(** The body of the first loop, for index [i]. *)
Definition chooseTurn
    (balancerContext : LoadBalancerContext) (clusterSnapshot : clusterSnapshot)
    (protocol : string) (i : nat) (pools : list (option ConnectionPool))
    (m : machine W) : turn :=
  let '(host, m) := doChooseHost (loadbalancer clusterSnapshot) balancerContext m in
  match host with
  | None => Return (inr ErrChooseHostNil) m
  | Some host =>
      let addr := AddressString host in
      match protocolConnPool (mgr m) !! protocol with
      | None => Crash (* value.( *sync.Map ) on a nil interface *)
      | Some connectionPool =>
          let '(connPool, m) := loadPool protocol addr m in
          match connPool with
          | Some pool =>
              let '(ready, m) :=
                doCheckAndInit pool (DownstreamContext balancerContext) m in
              if ready then Return (inl pool) m
              else Continue (<[i := Some pool]> pools) m
          | None =>
              let m := emit EvLock m in
              let '(again, m) := loadPool protocol addr m in
              match again with
              | Some _ => Continue pools (emit EvUnlock m)
              | None =>
                  match ConnNewPoolFactories E !! protocol with
                  | Some factory =>
                      let newPool := factory host in
                      let m := storePool protocol addr newPool m in
                      let '(_, m) :=
                        doCheckAndInit newPool (DownstreamContext balancerContext) m in
                      Continue (<[i := Some newPool]> pools) (emit EvUnlock m)
                  | None =>
                      Return (inr (ErrNewPoolFactoryNil protocol)) (emit EvUnlock m)
                  end
              end
          end
      end
  end.

(** [for i := 0; i < cycleTimes; i++]: [n] turns are left, starting at
    index [i]. *)
Fixpoint chooseLoop
    (balancerContext : LoadBalancerContext) (clusterSnapshot : clusterSnapshot)
    (protocol : string) (n i : nat) (pools : list (option ConnectionPool))
    (m : machine W) : turn :=
  match n with
  | O => Continue pools m
  | S n' =>
      match chooseTurn balancerContext clusterSnapshot protocol i pools m with
      | Continue pools m =>
          chooseLoop balancerContext clusterSnapshot protocol n' (S i) pools m
      | r => r
      end
  end.

(** The inner loop of the wait schedule: the array is polled in index
    order, nil entries are skipped. *)
Fixpoint pollPools
    (ctx : Context) (pools : list (option ConnectionPool)) (m : machine W)
    : option ConnectionPool * machine W :=
  match pools with
  | [] => (None, m)
  | None :: rest => pollPools ctx rest m
  | Some pool :: rest =>
      let '(ready, m) := doCheckAndInit pool ctx m in
      if ready then (Some pool, m) else pollPools ctx rest m
  end.

(** [for t := 0; t < 4; t++]: [n] stages are left, the next one sleeps
    [waitTime]. *)
Fixpoint waitLoop
    (ctx : Context) (pools : list (option ConnectionPool))
    (n : nat) (waitTime : Duration) (m : machine W)
    : (ConnectionPool + error) * machine W :=
  match n with
  | O => (inr ErrNoHealthHosts, m)
  | S n' =>
      let m := doSleep waitTime m in
      match pollPools ctx pools m with
      | (Some pool, m) => (inl pool, m)
      | (None, m) => waitLoop ctx pools n' (waitTime * 10)%Z m
      end
  end.

Definition getActiveConnectionPool
    (balancerContext : LoadBalancerContext) (clusterSnapshot : clusterSnapshot)
    (protocol : string) (m : machine W)
    : go ((ConnectionPool + error) * machine W) :=
  match chooseLoop balancerContext clusterSnapshot protocol
          cycleTimes 0 (replicate cycleTimes None) m with
  | Return r m => Ret (r, m)
  | Crash => Panic
  | Continue pools m =>
      (* perhaps the first request, wait for tcp handshaking *)
      Ret (waitLoop (DownstreamContext balancerContext) pools 4 Millisecond m)
  end.
End RequestPath.

(** *** Well-formed managers

    The references of a registered cluster point into the heaps, and the
    current value of its RCU cell is there.  Go pointers cannot dangle, so
    every state the Go code can be in is well formed. *)
Definition validRefs
    (objs : gmap ref Cluster) (cells : gmap ref (rcu.Value v2Cluster))
    (pc : primaryCluster) : Prop :=
  is_Some (objs !! pc_cluster pc)
  ∧ ∃ v, cells !! configLock pc = Some v
         ∧ is_Some (rcu.elements v !! rcu.current v).

Definition wellFormed (cm : clusterManager) : Prop :=
  map_Forall (fun _ pc => validRefs (clusterObjs cm) (rcuObjs cm) pc)
    (primaryClusters cm).

(** A step keeps the heaps when every cluster object stays in place and
    every cell that has its current value still has one. *)
Definition objsKept (objs objs' : gmap ref Cluster) : Prop :=
  ∀ r, is_Some (objs !! r) → is_Some (objs' !! r).

Definition cellsKept (cells cells' : gmap ref (rcu.Value v2Cluster)) : Prop :=
  ∀ l v, cells !! l = Some v → is_Some (rcu.elements v !! rcu.current v) →
         ∃ v', cells' !! l = Some v' ∧ is_Some (rcu.elements v' !! rcu.current v').

(** *** Observations

    What a reader of the cluster sees through a new snapshot,
    [GetClusterSnapshot(name).PrioritySet().HostSetsByPriority()[p].Hosts()],
    as the list of the hosts' addresses; [None] when there is no snapshot
    or no host set at priority [p]. *)
Definition snapshotHosts
    (clusterName : string) (p : nat) (cm : clusterManager) : option (list Host) :=
  match GetClusterSnapshot clusterName cm with
  | Ret (Some (Internal s), cm') =>
      snapshotPrioritySet s cm' ≫= fun ps => hs_Hosts <$> ps !! p
  | _ => None
  end.

Definition snapshotHostAddresses
    (clusterName : string) (p : nat) (cm : clusterManager) : option (list string) :=
  fmap (M := list) AddressString <$> snapshotHosts clusterName p cm.

(** The sleeps and the load-balancer calls of a trace. *)
Definition sleeps (tr : list Event) : list Duration :=
  omap (fun ev => match ev with EvSleep d => Some d | _ => None end) tr.

Definition chosen (tr : list Event) : list (option Host) :=
  omap (fun ev => match ev with EvChooseHost h => Some h | _ => None end) tr.

(** One turn of the first loop that lets the loop go on: the chosen host
    had a pool that was not ready, or it had none and one was created. *)
Inductive attempt :=
| Existing (host : Host) (pool : ConnectionPool)
| Created (host : Host) (pool : ConnectionPool) (ready : bool).

Definition attemptPool (a : attempt) : ConnectionPool :=
  match a with
  | Existing _ pool => pool
  | Created _ pool _ => pool
  end.

Definition attemptEvents (protocol : string) (a : attempt) : list Event :=
  match a with
  | Existing host pool =>
      [EvChooseHost (Some host);
       EvLoadPool protocol (AddressString host) true;
       EvCheckAndInit pool false]
  | Created host pool ready =>
      [EvChooseHost (Some host);
       EvLoadPool protocol (AddressString host) false;
       EvLock;
       EvLoadPool protocol (AddressString host) false;
       EvStorePool protocol (AddressString host) pool;
       EvCheckAndInit pool ready;
       EvUnlock]
  end.

(** The wait schedule, and a stage of it in which no polled pool was
    ready. *)
Definition schedule : list Duration :=
  [Millisecond; 10 * Millisecond; 100 * Millisecond; 1000 * Millisecond]%Z.

Definition failedPolls (pools : list ConnectionPool) : list Event :=
  (fun pool => EvCheckAndInit pool false) <$> pools.

Definition failedStage (pools : list ConnectionPool) (d : Duration) : list Event :=
  EvSleep d :: failedPolls pools.

Definition attemptHost (a : attempt) : Host :=
  match a with
  | Existing host _ => host
  | Created host _ _ => host
  end.

(** The durations of [n] stages that start at [d] and grow tenfold. *)
Fixpoint stagesFrom (d : Duration) (n : nat) : list Duration :=
  match n with
  | O => []
  | S n' => d :: stagesFrom (d * 10)%Z n'
  end.

(** How a call ends during the first loop: the load balancer has no host,
    the chosen host has a pool that is ready, or no pool factory is
    registered for the protocol. *)
Inductive ending (protocol : string) : ConnectionPool + error -> list Event -> Prop :=
| EndNoHost :
    ending protocol (inr ErrChooseHostNil) [EvChooseHost None]
| EndReady host pool :
    ending protocol (inl pool)
      [EvChooseHost (Some host);
       EvLoadPool protocol (AddressString host) true;
       EvCheckAndInit pool true]
| EndNoFactory host :
    ending protocol (inr (ErrNewPoolFactoryNil protocol))
      [EvChooseHost (Some host);
       EvLoadPool protocol (AddressString host) false;
       EvLock;
       EvLoadPool protocol (AddressString host) false;
       EvUnlock].

(** How a call ends during the wait over the stages [ds] with the
    remembered [pools]: in stage [j], after [j] stages in which no pool was
    ready, at the first pool that is ready; or with the error, after every
    stage has failed. *)
Inductive waiting (ds : list Duration) (pools : list ConnectionPool)
    : ConnectionPool + error -> list Event -> Prop :=
| WaitReady j d polled pool rest :
    ds !! j = Some d ->
    pools = (polled ++ pool :: rest)%list ->
    waiting ds pools (inl pool)
      (concat (failedStage pools <$> take j ds)
       ++ EvSleep d :: failedPolls polled ++ [EvCheckAndInit pool true])%list
| WaitExhausted :
    waiting ds pools (inr ErrNoHealthHosts) (concat (failedStage pools <$> ds)).

(** The trace of a whole call, with the attempts that let the first loop
    go on. *)
Inductive selection (protocol : string)
    : ConnectionPool + error -> list Event -> list attempt -> Prop :=
| SelectEarly attempts r last :
    length attempts < cycleTimes ->
    ending protocol r last ->
    selection protocol r
      (concat (attemptEvents protocol <$> attempts) ++ last)%list attempts
| SelectWait attempts r tr :
    length attempts = cycleTimes ->
    waiting schedule (attemptPool <$> attempts) r tr ->
    selection protocol r
      (concat (attemptEvents protocol <$> attempts) ++ tr)%list attempts.

(** A created pool is what the protocol's factory makes from the host. *)
Definition fromFactory
    (factories : gmap string (Host -> ConnectionPool)) (protocol : string)
    (a : attempt) : Prop :=
  match a with
  | Existing _ _ => True
  | Created host pool _ =>
      ∃ factory, factories !! protocol = Some factory ∧ pool = factory host
  end.

(** What a call leaves in the manager: only the address map of the
    protocol changes, it only grows, and it maps the address of every
    attempt's host to the attempt's pool. *)
Definition poolsKept
    (factories : gmap string (Host -> ConnectionPool))
    (protocol : string) (cm cm' : clusterManager) (attempts : list attempt) : Prop :=
  cm' = setProtocolConnPool (protocolConnPool cm') cm
  ∧ (∀ q, q ≠ protocol → protocolConnPool cm' !! q = protocolConnPool cm !! q)
  ∧ ∃ cp cp',
      protocolConnPool cm !! protocol = Some cp
      ∧ protocolConnPool cm' !! protocol = Some cp'
      ∧ cp ⊆ cp'
      ∧ Forall (fun a => cp' !! AddressString (attemptHost a) = Some (attemptPool a)
                         ∧ fromFactory factories protocol a)
          attempts.

(** *** The rest of the manager *)

Section PoolEntry.
Context {W : Type} (E : Env W).

(** [ConnPoolForCluster].  On a nil snapshot the arguments of the log
    statement call [snapshot.ClusterInfo()] through the nil interface, which
    panics before the function can return nil.  The error of
    [getActiveConnectionPool] is logged and dropped; its pool is nil
    whenever there is an error. *)
Definition ConnPoolForCluster
    (balancerContext : LoadBalancerContext) (snapshot : option ClusterSnapshot)
    (protocol : string) (m : machine W) : go (option ConnectionPool * machine W) :=
  match snapshot with
  | None => Panic
  | Some (Foreign _) => Ret (None, m)
  | Some (Internal clusterSnapshot) =>
      match getActiveConnectionPool E balancerContext clusterSnapshot protocol m with
      | Panic => Panic
      | Ret (inl pool, m) => Ret (Some pool, m)
      | Ret (inr _, m) => Ret (None, m)
      end
  end.
End PoolEntry.

(** [clusterSnapshot.IsExistsHosts(metadata)]; a nil [metadata] is [None].
    Whether the snapshot's load balancer is a [*subSetLoadBalancer], and
    what its [GetHostsNumber] returns, is outside the manager:
    [subsetHostsNumber] gives the number for a subset load balancer and
    [None] for any other. *)
Definition IsExistsHosts
    (subsetHostsNumber : LoadBalancer -> gmap string string -> option nat)
    (metadata : option (gmap string string))
    (cs : clusterSnapshot) (cm : clusterManager) : go bool :=
  match metadata with
  | None =>
      match snapshotPrioritySet cs cm with
      | None => Panic
      | Some ps =>
          Ret (existsb (fun hostSet => bool_decide (0 < length (hs_Hosts hostSet))) ps)
      end
  | Some md =>
      match subsetHostsNumber (loadbalancer cs) md with
      | Some n => Ret (bool_decide (0 < n))
      | None => Ret false
      end
  end.

(** The two loops of [NewClusterManager]: a cluster that cannot be added is
    logged and skipped, and the result of [UpdateClusterHosts] is dropped.
    The Go map [clusterMap] is the list of its entries in the order the
    iteration visits them. *)
Fixpoint addClusters (F : Factory) (clusters : list v2Cluster) (cm : clusterManager)
    : go clusterManager :=
  match clusters with
  | [] => Ret cm
  | cluster :: rest =>
      match AddOrUpdatePrimaryCluster F cluster cm with
      | Panic => Panic
      | Ret (_, cm) => addClusters F rest cm
      end
  end.

Fixpoint addHosts (clusterMap : list (string * list v2Host)) (cm : clusterManager)
    : go clusterManager :=
  match clusterMap with
  | [] => Ret cm
  | (clusterName, hosts) :: rest =>
      match UpdateClusterHosts clusterName 0 hosts cm with
      | Panic => Panic
      | Ret (_, cm) => addHosts rest cm
      end
  end.

(** [NewClusterManager]: [instance] is the package variable
    [clusterMangerInstance] (nil is [None]), [protocols] are the keys of
    [types.ConnPoolFactories]; the result is the instance the call returns,
    which is the package variable afterwards. *)
Definition NewClusterManager
    (F : Factory) (addr : string) (clusters : list v2Cluster)
    (clusterMap : list (string * list v2Host)) (protocols : list string)
    (instance : option clusterManager) : go clusterManager :=
  match instance with
  | Some cm => Ret cm
  | None =>
      match addClusters F clusters (emptyManager addr protocols) with
      | Panic => Panic
      | Ret cm => addHosts clusterMap cm
      end
  end.

(** [Destory] resets the package variable. *)
Definition Destory (instance : option clusterManager) : option clusterManager := None.

(** Every registered cluster carries the flag [addedViaAPI]. *)
Definition allViaAPI (cm : clusterManager) : Prop :=
  map_Forall (fun _ pc => addedViaAPI pc = true) (primaryClusters cm).

(** The hosts of a registered simple in-memory cluster, the field [hosts]. *)
Definition clusterHosts (clusterName : string) (cm : clusterManager) : option (list Host) :=
  pc ← primaryClusters cm !! clusterName;
  obj ← clusterObjs cm !! pc_cluster pc;
  match obj with
  | SimpleInMem c => Some (sc_hosts c)
  | OtherCluster _ _ => None
  end.

(** The [CheckAndInit] calls, the uses of the mutex and the stores of a
    trace. *)
Definition checks (tr : list Event) : list (ConnectionPool * bool) :=
  omap (fun ev => match ev with EvCheckAndInit p b => Some (p, b) | _ => None end) tr.

Definition locks (tr : list Event) : list unit :=
  omap (fun ev => match ev with EvLock => Some tt | _ => None end) tr.

Definition stores (tr : list Event) : list (string * string * ConnectionPool) :=
  omap (fun ev => match ev with EvStorePool p a pool => Some (p, a, pool) | _ => None end)
    tr.

(** The managers a process can have: the one [NewClusterManager] starts
    from, and every manager that one of the manager's operations returns on
    such a manager. *)
Inductive reachable (F : Factory) (addr : string) (protocols : list string)
    : clusterManager -> Prop :=
| reach_empty :
    reachable F addr protocols (emptyManager addr protocols)
| reach_AddOrUpdatePrimaryCluster cm cfg ok cm' :
    reachable F addr protocols cm ->
    AddOrUpdatePrimaryCluster F cfg cm = Ret (ok, cm') ->
    reachable F addr protocols cm'
| reach_RemovePrimaryCluster cm clusterNames :
    reachable F addr protocols cm ->
    reachable F addr protocols (snd (RemovePrimaryCluster clusterNames cm))
| reach_UpdateClusterHosts cm clusterName priority hostConfigs err cm' :
    reachable F addr protocols cm ->
    UpdateClusterHosts clusterName priority hostConfigs cm = Ret (err, cm') ->
    reachable F addr protocols cm'
| reach_AppendClusterHosts cm clusterName priority hostConfigs err cm' :
    reachable F addr protocols cm ->
    AppendClusterHosts clusterName priority hostConfigs cm = Ret (err, cm') ->
    reachable F addr protocols cm'
| reach_RemoveClusterHost cm clusterName hostAddress err cm' :
    reachable F addr protocols cm ->
    RemoveClusterHost clusterName hostAddress cm = Ret (err, cm') ->
    reachable F addr protocols cm'
| reach_GetClusterSnapshot cm clusterName snapshot cm' :
    reachable F addr protocols cm ->
    GetClusterSnapshot clusterName cm = Ret (snapshot, cm') ->
    reachable F addr protocols cm'
| reach_PutClusterSnapshot cm snapshot cm' :
    reachable F addr protocols cm ->
    PutClusterSnapshot snapshot cm = Ret cm' ->
    reachable F addr protocols cm'
| reach_getActiveConnectionPool (W : Type) (E : Env W) balancerContext
    clusterSnapshot protocol (m m' : machine W) r :
    reachable F addr protocols (mgr m) ->
    getActiveConnectionPool E balancerContext clusterSnapshot protocol m = Ret (r, m') ->
    reachable F addr protocols (mgr m').

(** The discipline of the manager's mutex along a trace, from a state in
    which it is [held] or not: [None] when the trace takes the mutex while
    it is held, releases it while it is not, stores into an address map
    without holding it, or sleeps or asks the load balancer while holding
    it; otherwise whether the mutex is held at the end. *)
Fixpoint lockDiscipline (held : bool) (tr : list Event) : option bool :=
  match tr with
  | [] => Some held
  | EvLock :: tr => if held then None else lockDiscipline true tr
  | EvUnlock :: tr => if held then lockDiscipline false tr else None
  | EvStorePool _ _ _ :: tr => if held then lockDiscipline held tr else None
  | EvSleep _ :: tr => if held then None else lockDiscipline held tr
  | EvChooseHost _ :: tr => if held then None else lockDiscipline held tr
  | _ :: tr => lockDiscipline held tr
  end.

(** *** A scripted environment

    A world that replays a script: the load balancer returns the next
    entry of [choices] (nil once the script is over), [CheckAndInit] the
    next entry of [readiness] (not ready once it is over), sleeping
    advances the clock, and every context counts as cancelled when
    [cancelled] is set. *)
Record script := mkScript {
  choices : list (option Host);
  readiness : list bool;
  clock : Duration;
  cancelled : bool
}.

Definition scripted (factories : gmap string (Host -> ConnectionPool)) : Env script :=
  {| ChooseHost := fun _ _ w =>
       (default None (head (choices w)),
        mkScript (tail (choices w)) (readiness w) (clock w) (cancelled w));
     CheckAndInit := fun _ _ w =>
       (default false (head (readiness w)),
        mkScript (choices w) (tail (readiness w)) (clock w) (cancelled w));
     Sleep := fun d w =>
       mkScript (choices w) (readiness w) (clock w + d)%Z (cancelled w);
     CreateConnection := fun h w =>
       ({| Connection := Some 0; HostInfo := Some h |}, w);
     Done := fun _ w => cancelled w;
     ConnNewPoolFactories := factories |}.

(** A steady environment over a clock: the load balancer always returns
    [host], no pool ever gets ready, and every context is cancelled. *)
Definition steady (host : Host) (factories : gmap string (Host -> ConnectionPool))
    : Env Duration :=
  {| ChooseHost := fun _ _ w => (Some host, w);
     CheckAndInit := fun _ _ w => (false, w);
     Sleep := fun d w => (w + d)%Z;
     CreateConnection := fun h w => ({| Connection := Some 0; HostInfo := Some h |}, w);
     Done := fun _ _ => true;
     ConnNewPoolFactories := factories |}.

(** A cluster factory that knows the two cluster types the manager's
    callers name, [SIMPLE] and [EDS]: it builds an empty in-memory cluster
    for them and nothing (nil) for any other type. *)
Definition simpleFactory : Factory :=
  {| NewCluster := fun cfg _ _ =>
       if decide (ClusterType cfg = SIMPLE_CLUSTER ∨ ClusterType cfg = EDS_CLUSTER)
       then Some (SimpleInMem
              {| sc_info := {| info_Name := Name cfg;
                               info_ClusterType := ClusterType cfg;
                               info_LbType := LbType cfg;
                               info_LBInstance := 0 |};
                 sc_prioritySet := [];
                 sc_hosts := [] |})
       else None;
     Initialize := fun c => c |}.

Definition exampleHealthCheck : healthcheck.HealthCheck :=
  healthcheck.mkHealthCheck "Http1" 1000 500 2 2 0.

Definition exampleCluster (name type : string) : v2Cluster :=
  {| Name := name; ClusterType := type; LbType := "LB_RANDOM";
     ConnectTimeoutMs := 3000; MaxRequestPerConn := 1024;
     ConnBufferLimitBytes := 32768; Hosts := None;
     HealthCheck := exampleHealthCheck; LBSubsetConfig := ""; TLS := "" |}.

Definition exampleHost (addr : string) : v2Host :=
  {| Address := addr; Hostname := addr; Weight := 1; MetaData := None;
     HealthFlags := 0 |}.

Definition exampleInfo : ClusterInfo :=
  {| info_Name := "c1"; info_ClusterType := SIMPLE_CLUSTER;
     info_LbType := "LB_RANDOM"; info_LBInstance := 0 |}.

Definition hostA : Host := NewHost (exampleHost "a:8080") exampleInfo.
Definition hostB : Host := NewHost (exampleHost "b:8080") exampleInfo.

Definition exampleLbCtx : LoadBalancerContext := mkLbCtx 0 ∅ ∅.

Definition exampleSnapshot : clusterSnapshot := mkSnapshot 0 exampleInfo 0 0 0.

(** The pool factory of the protocol [Http1], and no other. *)
Definition exampleFactories : gmap string (Host -> ConnectionPool) :=
  {[ "Http1" := mkPool "Http1" ]}.

Definition play (choices : list (option Host)) (readiness : list bool)
    (cancel : bool) (cm : clusterManager) : machine script :=
  mkMachine cm (mkScript choices readiness 0%Z cancel) [].

Definition managerOf {A} (r : go (A * clusterManager)) (d : clusterManager)
    : clusterManager :=
  match r with
  | Ret (_, cm) => cm
  | Panic => d
  end.

(** A manager with one protocol, then with the cluster [c1] added through
    the API, then with two hosts in it. *)
Definition cm0 : clusterManager := emptyManager "127.0.0.1:0" ["Http1"].

Definition cm1 : clusterManager :=
  managerOf (AddOrUpdatePrimaryCluster simpleFactory
               (exampleCluster "c1" SIMPLE_CLUSTER) cm0) cm0.

Definition cm2 : clusterManager :=
  managerOf (UpdateClusterHosts "c1" 0 [exampleHost "a:8080"; exampleHost "b:8080"] cm1)
    cm1.

(** ... and then with a reader that holds a snapshot of [c1]. *)
Definition cm3 : clusterManager := managerOf (GetClusterSnapshot "c1" cm2) cm2.

End cluster.

(** ** The mocks of the health-check tests (mock_test.go) *)

Module mock.

(** [uint64(flag)]: a [types.HealthFlag] is a signed integer; the
    conversion keeps its low 64 bits. *)
Definition uint64 (z : Z) : Z := (z mod 2 ^ 64)%Z.

(** [mockHost]; the embedded [types.Host] is nil in the tests and the mutex
    only serialises the accesses to [status]. *)
Record mockHost := mkMockHost {
  addr : string;
  flag : Z;
  delay : cluster.Duration;
  status : bool
}.

Definition SetHealth (health : bool) (h : mockHost) : mockHost :=
  {| addr := addr h; flag := flag h; delay := delay h; status := health |}.

Definition Health (h : mockHost) : bool := status h.

Definition AddressString (h : mockHost) : string := addr h.

(** [h.flag &= ^uint64(flag)]; the complement of a 64-bit word flips its
    64 bits. *)
Definition ClearHealthFlag (f : Z) (h : mockHost) : mockHost :=
  {| addr := addr h;
     flag := Z.land (flag h) (Z.lxor (uint64 f) (Z.ones 64));
     delay := delay h; status := status h |}.

Definition ContainHealthFlag (f : Z) (h : mockHost) : bool :=
  (0 <? Z.land (flag h) (uint64 f))%Z.

Definition SetHealthFlag (f : Z) (h : mockHost) : mockHost :=
  {| addr := addr h; flag := Z.lor (flag h) (uint64 f);
     delay := delay h; status := status h |}.

(** A [types.Host] as the mock session meets it: a [*mockHost], or another
    implementation, of which only the answer of [Health()] matters. *)
Inductive Host :=
| MockHost (h : mockHost)
| OtherHost (health : bool).

Record mockSession := mkMockSession { host : Host }.

(** [mockSessionFactory.NewSession] ignores the configuration. *)
Definition NewSession {Cfg : Type} (cfg : Cfg) (h : Host) : mockSession :=
  {| host := h |}.

(** [mockSession.CheckHealth]: the sleeps it makes, and its answer. *)
Definition CheckHealth (s : mockSession) : list cluster.Duration * bool :=
  match host s with
  | MockHost mh =>
      (if (0 <? delay mh)%Z then [delay mh] else [], Health mh)
  | OtherHost health => ([], health)
  end.

End mock.

Import cluster.

(** * Properties *)

(** ** The health-check registries *)

Section HealthCheckRegistry.
Import healthcheck.

Lemma RegisterSessionFactory_lookup p f r :
  sessionFactories (RegisterSessionFactory p f r) !! p = Some f.
Proof. cbn. apply lookup_insert_eq. Qed.

Lemma RegisterSessionFactory_lookup_ne p q f r :
  p ≠ q →
  sessionFactories (RegisterSessionFactory p f r) !! q = sessionFactories r !! q.
Proof. intros Hne. cbn. by apply lookup_insert_ne. Qed.

(** C8.  [CreateHealthCheck] builds the checker with the session factory
    registered for the configuration's protocol when there is one (in
    particular the one a preceding [RegisterSessionFactory] stored for that
    protocol), and with the TCP-dial session factory for every protocol
    that is not registered. *)
Theorem CreateHealthCheck_registered_or_tcp_dial
    (r : registry) (cfg : HealthCheck) (cl : string) :
  (∀ f, sessionFactories r !! Protocol cfg = Some f →
        CreateHealthCheck r cfg cl = newHealthChecker cfg cl f)
  ∧ (sessionFactories r !! Protocol cfg = None →
        CreateHealthCheck r cfg cl = newHealthChecker cfg cl TCPDialSessionFactory)
  ∧ (∀ f, CreateHealthCheck (RegisterSessionFactory (Protocol cfg) f r) cfg cl
          = newHealthChecker cfg cl f).
Proof.
  unfold CreateHealthCheck. split; [|split].
  - intros f Hf. by rewrite Hf.
  - intros Hnone. by rewrite Hnone.
  - intros f. by rewrite RegisterSessionFactory_lookup.
Qed.

Lemma CreateHealthCheck_registered_or_tcp_dial_witness :
  CreateHealthCheck (RegisterSessionFactory "Http1" mockSessionFactory init)
    (mkHealthCheck "Http1" 1000 500 2 2 0) "c1"
  = newHealthChecker (mkHealthCheck "Http1" 1000 500 2 2 0) "c1" mockSessionFactory
  ∧ CreateHealthCheck (RegisterSessionFactory "Http1" mockSessionFactory init)
      (mkHealthCheck "SofaRpc" 1000 500 2 2 0) "c1"
    = newHealthChecker (mkHealthCheck "SofaRpc" 1000 500 2 2 0) "c1"
        TCPDialSessionFactory.
Proof.
  pose proof (CreateHealthCheck_registered_or_tcp_dial
                (RegisterSessionFactory "Http1" mockSessionFactory init)
                (mkHealthCheck "Http1" 1000 500 2 2 0) "c1") as (Hreg & _ & _).
  pose proof (CreateHealthCheck_registered_or_tcp_dial
                (RegisterSessionFactory "Http1" mockSessionFactory init)
                (mkHealthCheck "SofaRpc" 1000 500 2 2 0) "c1") as (_ & Hdefault & _).
  split.
  - apply Hreg. reflexivity.
  - apply Hdefault. reflexivity.
Defined.

(** C10.  [RegisterCommonCallbacks] returns false for every input: when the
    name is already registered the registry is left as it is (the existing
    callback is kept), and when the name is fresh the callback is stored
    under it, and the call still returns false. *)
Theorem RegisterCommonCallbacks_always_false
    (name : string) (cb : HealthCheckCb) (r : registry) :
  fst (RegisterCommonCallbacks name cb r) = false
  ∧ (∀ old, commonCallbacks r !! name = Some old →
       snd (RegisterCommonCallbacks name cb r) = r)
  ∧ (commonCallbacks r !! name = None →
       commonCallbacks (snd (RegisterCommonCallbacks name cb r)) !! name = Some cb
       ∧ (∀ other, other ≠ name →
            commonCallbacks (snd (RegisterCommonCallbacks name cb r)) !! other
            = commonCallbacks r !! other)
       ∧ sessionFactories (snd (RegisterCommonCallbacks name cb r))
         = sessionFactories r).
Proof.
  unfold RegisterCommonCallbacks.
  destruct (commonCallbacks r !! name) as [old|] eqn:Hl; cbn.
  - split; [done|]. split; [done|]. intros ?; discriminate.
  - split; [done|]. split; [intros ?; discriminate|]. intros _.
    split; [apply lookup_insert_eq|]. split; [|done].
    intros other Hne. by apply lookup_insert_ne.
Qed.

Lemma RegisterCommonCallbacks_always_false_witness :
  RegisterCommonCallbacks "cb" 2 (snd (RegisterCommonCallbacks "cb" 1 init))
  = (false, snd (RegisterCommonCallbacks "cb" 1 init))
  ∧ commonCallbacks (snd (RegisterCommonCallbacks "cb" 1 init)) !! "cb" = Some 1.
Proof.
  pose proof (RegisterCommonCallbacks_always_false "cb" 2
                (snd (RegisterCommonCallbacks "cb" 1 init))) as (Hf & Hkeep & _).
  pose proof (RegisterCommonCallbacks_always_false "cb" 1 init) as (_ & _ & Hnew).
  split.
  - apply injective_projections; [exact Hf | apply (Hkeep 1); reflexivity].
  - apply Hnew. reflexivity.
Defined.
End HealthCheckRegistry.

(** ** The RCU cell *)

Section RcuCell.
Context {A : Type}.
Implicit Types (v : rcu.Value A) (e : rcu.element A).

Lemma rcu_Load_readers v e :
  rcu.elements v !! rcu.current v = Some e →
  rcu.readers (fst (rcu.Load v)) (snd (rcu.Load v)) = (rcu.count e + 1)%Z.
Proof.
  intros He. unfold rcu.readers, rcu.Load; cbn.
  by rewrite lookup_alter_eq, He.
Qed.

Lemma rcu_Put_readers p v e :
  rcu.elements v !! p = Some e →
  rcu.readers p (rcu.Put p v) = (rcu.count e - 1)%Z.
Proof.
  intros He. unfold rcu.readers, rcu.Put; cbn.
  by rewrite lookup_alter_eq, He.
Qed.

Lemma rcu_Put_Load v e :
  rcu.elements v !! rcu.current v = Some e →
  rcu.Put (fst (rcu.Load v)) (snd (rcu.Load v)) = v.
Proof.
  intros He. destruct v as [cur els]; cbn in *.
  unfold rcu.Put, rcu.Load; cbn. f_equal.
  apply map_eq; intros i.
  destruct (decide (cur = i)) as [<-|Hne].
  - rewrite !lookup_alter_eq, He. cbn. destruct e as [a c]; cbn.
    unfold rcu.release, rcu.acquire; cbn. do 2 f_equal. lia.
  - by rewrite !lookup_alter_ne.
Qed.

Lemma rcu_Update_current (a : A) wait v :
  rcu.current (snd (rcu.Update a wait v)) = S (rcu.current v)
  ∧ rcu.value <$> rcu.elements (snd (rcu.Update a wait v))
                    !! rcu.current (snd (rcu.Update a wait v)) = Some a.
Proof.
  unfold rcu.Update. case_decide; cbn.
  - split; [done|]. rewrite lookup_delete_ne by lia. by rewrite lookup_insert_eq.
  - split; [done|]. by rewrite lookup_insert_eq.
Qed.

Lemma rcu_Update_blocks (a : A) wait v :
  fst (rcu.Update a wait v) = true ↔ rcu.readers (rcu.current v) v ≠ 0%Z.
Proof. unfold rcu.Update. case_decide; cbn; naive_solver. Qed.
End RcuCell.

(** ** Snapshots *)

Lemma clusterManager_eta (cm : clusterManager) :
  {| sourceAddr := sourceAddr cm; primaryClusters := primaryClusters cm;
     protocolConnPool := protocolConnPool cm;
     clusterObjs := clusterObjs cm; rcuObjs := rcuObjs cm |} = cm.
Proof. by destruct cm. Qed.

Lemma GetClusterSnapshot_nil_iff (clusterName : string) (cm : clusterManager) :
  primaryClusters cm !! clusterName = None
  ↔ ∃ cm', GetClusterSnapshot clusterName cm = Ret (None, cm').
Proof.
  unfold GetClusterSnapshot. split.
  - intros ->. by exists cm.
  - intros [cm' Hget].
    destruct (primaryClusters cm !! clusterName) as [pc|]; [|done].
    destruct (clusterObjs cm !! pc_cluster pc), (rcuObjs cm !! configLock pc);
      discriminate.
Qed.

(** C3.  [GetClusterSnapshot] returns nil exactly when no cluster of that
    name is registered.  For a registered name it returns a snapshot that
    keeps the cluster's RCU cell and, as its config pointer, what [Load]
    returned from that cell; [Load] raised the reader count of that pointer
    by one.  [PutClusterSnapshot] on that snapshot hands exactly that pointer
    to [Put] on the same cell, which lowers the count again, so that the
    manager is back in the state before the snapshot was taken. *)
Theorem GetClusterSnapshot_Load_Put (clusterName : string) (cm : clusterManager) :
  (primaryClusters cm !! clusterName = None
   ↔ ∃ cm', GetClusterSnapshot clusterName cm = Ret (None, cm'))
  ∧ (∀ pc pcc v e,
       primaryClusters cm !! clusterName = Some pc →
       clusterObjs cm !! pc_cluster pc = Some pcc →
       rcuObjs cm !! configLock pc = Some v →
       rcu.elements v !! rcu.current v = Some e →
       ∃ s cm1 cm2,
         GetClusterSnapshot clusterName cm = Ret (Some (Internal s), cm1)
         ∧ value s = configLock pc
         ∧ config s = fst (rcu.Load v)
         ∧ cm1 = setRcuObjs (<[configLock pc := snd (rcu.Load v)]> (rcuObjs cm)) cm
         ∧ rcu.readers (config s) (snd (rcu.Load v)) = (rcu.count e + 1)%Z
         ∧ PutClusterSnapshot (Some (Internal s)) cm1 = Ret cm2
         ∧ rcuObjs cm2 !! value s = Some (rcu.Put (config s) (snd (rcu.Load v)))
         ∧ rcu.readers (config s) (rcu.Put (config s) (snd (rcu.Load v))) = rcu.count e
         ∧ cm2 = cm).
Proof.
  split; [apply GetClusterSnapshot_nil_iff|].
  intros pc pcc v e Hpc Hobj Hcell He.
  unfold GetClusterSnapshot. rewrite Hpc, Hobj, Hcell.
  pose proof (rcu_Put_Load v e He) as Hback.
  pose proof (rcu_Load_readers v e He) as Hread.
  assert (Hp : fst (rcu.Load v) = rcu.current v) by done.
  destruct (rcu.Load v) as [p v'] eqn:HL. cbn in Hback, Hread, Hp.
  eexists _, _, cm. split; [reflexivity|]. cbn.
  split; [done|]. split; [done|]. split; [done|]. split; [done|].
  rewrite lookup_insert_eq. rewrite Hback.
  split.
  - f_equal. unfold setRcuObjs; cbn.
    rewrite insert_insert_eq, insert_id by done. apply clusterManager_eta.
  - split; [done|]. split; [|done].
    unfold rcu.readers. by rewrite Hp, He.
Qed.

Lemma GetClusterSnapshot_Load_Put_witness :
  ∃ s cm',
    GetClusterSnapshot "c1" cm1 = Ret (Some (Internal s), cm')
    ∧ config s = 0
    ∧ rcu.readers (config s) (snd (rcu.Load (rcu.NewValue (exampleCluster "c1" "SIMPLE"))))
      = 1%Z
    ∧ PutClusterSnapshot (Some (Internal s)) cm' = Ret cm1.
Proof.
  destruct (GetClusterSnapshot_Load_Put "c1" cm1) as [_ Hreg].
  destruct (Hreg
    {| pc_cluster := 0; addedViaAPI := true;
       configUsed := exampleCluster "c1" "SIMPLE"; configLock := 0 |}
    (SimpleInMem
       {| sc_info := {| info_Name := "c1"; info_ClusterType := "SIMPLE";
                        info_LbType := "LB_RANDOM"; info_LBInstance := 0 |};
          sc_prioritySet := []; sc_hosts := [] |})
    (rcu.NewValue (exampleCluster "c1" "SIMPLE"))
    {| rcu.value := exampleCluster "c1" "SIMPLE"; rcu.count := 0 |})
    as (s & cm' & cm'' & Hget & _ & Hcfg & _ & Hcount & Hput & _ & _ & Hback);
    [vm_compute; reflexivity ..|].
  exists s, cm'. subst cm''. rewrite Hcfg in *. auto.
Defined.

(** ** Adding and updating clusters *)

Lemma fresh_lookup_None {V} (m : gmap ref V) : m !! fresh (dom m) = None.
Proof. apply not_elem_of_dom, is_fresh. Qed.

Lemma loadCluster_registers F cfg cm c :
  NewCluster F cfg (sourceAddr cm) true = Some c →
  ∃ cm' pc,
    loadCluster F cfg true cm = (true, cm')
    ∧ primaryClusters cm' = <[Name cfg := pc]> (primaryClusters cm)
    ∧ addedViaAPI pc = true
    ∧ configUsed pc = cfg
    ∧ clusterObjs cm' !! pc_cluster pc = Some (Initialize F c)
    ∧ rcuObjs cm' !! configLock pc = Some (rcu.NewValue cfg)
    ∧ clusterObjs cm ⊆ clusterObjs cm'
    ∧ rcuObjs cm ⊆ rcuObjs cm'
    ∧ protocolConnPool cm' = protocolConnPool cm.
Proof.
  intros Hnew. unfold loadCluster. rewrite Hnew. cbn.
  eexists _, _. split; [reflexivity|]. cbn.
  split; [done|]. split; [done|]. split; [done|].
  split; [apply lookup_insert_eq|]. split; [apply lookup_insert_eq|].
  split; [|split; [|done]]; apply insert_subseteq, fresh_lookup_None.
Qed.

(** C4 (amended).  [AddOrUpdatePrimaryCluster(cfg)]:
    - when no cluster named [cfg.Name] is registered and [NewCluster] builds
      a cluster, that cluster is initialised and registered under the name,
      as added via the API, with [cfg] as its configuration and a new RCU
      cell holding [cfg]; no other cluster and no existing object changes,
      and the call returns true;
    - when no cluster of that name is registered and [NewCluster] returns
      nil, the call returns false and the manager is unchanged;
    - when a cluster of that name is registered that was not added via the
      API, the call returns false and the manager is unchanged;
    - when it is registered, was added via the API and [cfg] equals the
      stored configuration in the sense of [reflect.DeepEqual] (a nil host
      list is not an empty one), the call returns true and the manager is
      unchanged. *)
Theorem AddOrUpdatePrimaryCluster_cases
    (F : Factory) (cfg : v2Cluster) (cm : clusterManager) :
  (primaryClusters cm !! Name cfg = None →
     (∀ c, NewCluster F cfg (sourceAddr cm) true = Some c →
        ∃ cm' pc,
          AddOrUpdatePrimaryCluster F cfg cm = Ret (true, cm')
          ∧ primaryClusters cm' = <[Name cfg := pc]> (primaryClusters cm)
          ∧ addedViaAPI pc = true
          ∧ configUsed pc = cfg
          ∧ clusterObjs cm' !! pc_cluster pc = Some (Initialize F c)
          ∧ rcuObjs cm' !! configLock pc = Some (rcu.NewValue cfg)
          ∧ clusterObjs cm ⊆ clusterObjs cm'
          ∧ rcuObjs cm ⊆ rcuObjs cm'
          ∧ protocolConnPool cm' = protocolConnPool cm)
     ∧ (NewCluster F cfg (sourceAddr cm) true = None →
          AddOrUpdatePrimaryCluster F cfg cm = Ret (false, cm)))
  ∧ (∀ pc, primaryClusters cm !! Name cfg = Some pc →
       addedViaAPI pc = false →
       AddOrUpdatePrimaryCluster F cfg cm = Ret (false, cm))
  ∧ (∀ pc, primaryClusters cm !! Name cfg = Some pc →
       addedViaAPI pc = true →
       cfg = configUsed pc →
       AddOrUpdatePrimaryCluster F cfg cm = Ret (true, cm)).
Proof.
  unfold AddOrUpdatePrimaryCluster. split; [|split].
  - intros Hnone. rewrite Hnone. split.
    + intros c Hnew.
      destruct (loadCluster_registers F cfg cm c Hnew) as (cm' & pc & Hload & Hrest).
      exists cm', pc. by rewrite Hload.
    + intros Hnil. unfold loadCluster. by rewrite Hnil.
  - intros pc Hpc Hstatic. by rewrite Hpc, Hstatic.
  - intros pc Hpc Hapi Hsame. rewrite Hpc, Hapi. cbn.
    unfold updateCluster. by rewrite decide_True.
Qed.

Lemma AddOrUpdatePrimaryCluster_cases_witness :
  (∃ cm' pc,
     AddOrUpdatePrimaryCluster simpleFactory (exampleCluster "c1" "SIMPLE") cm0
     = Ret (true, cm')
     ∧ primaryClusters cm' !! "c1" = Some pc
     ∧ addedViaAPI pc = true)
  ∧ AddOrUpdatePrimaryCluster simpleFactory (exampleCluster "c1" "SIMPLE") cm1
    = Ret (true, cm1)
  ∧ AddOrUpdatePrimaryCluster simpleFactory (exampleCluster "c1" "EDS")
      (setPrimaryClusters
         {[ "c1" := mkPrimary 0 false (exampleCluster "c1" "SIMPLE") 0 ]} cm1)
    = Ret (false,
           setPrimaryClusters
             {[ "c1" := mkPrimary 0 false (exampleCluster "c1" "SIMPLE") 0 ]} cm1).
Proof.
  split; [|split].
  - destruct (AddOrUpdatePrimaryCluster_cases simpleFactory
                (exampleCluster "c1" "SIMPLE") cm0) as [[Hadd _] _];
      [reflexivity|].
    destruct (Hadd (SimpleInMem
                {| sc_info := {| info_Name := "c1"; info_ClusterType := "SIMPLE";
                                 info_LbType := "LB_RANDOM"; info_LBInstance := 0 |};
                   sc_prioritySet := []; sc_hosts := [] |}))
      as (cm' & pc & Hcall & Hmap & Hapi & _); [reflexivity|].
    exists cm', pc. split; [exact Hcall|]. split; [|exact Hapi].
    rewrite Hmap. apply lookup_insert_eq.
  - destruct (AddOrUpdatePrimaryCluster_cases simpleFactory
                (exampleCluster "c1" "SIMPLE") cm1) as (_ & _ & Hsame).
    apply (Hsame (mkPrimary 0 true (exampleCluster "c1" "SIMPLE") 0));
      vm_compute; reflexivity.
  - destruct (AddOrUpdatePrimaryCluster_cases simpleFactory
                (exampleCluster "c1" "EDS")
                (setPrimaryClusters
                   {[ "c1" := mkPrimary 0 false (exampleCluster "c1" "SIMPLE") 0 ]} cm1))
      as (_ & Hstatic & _).
    apply (Hstatic (mkPrimary 0 false (exampleCluster "c1" "SIMPLE") 0));
      vm_compute; reflexivity.
Defined.

(** The first case of C4 as the claim words it fails when the cluster
    factory builds nothing: the type [UNKNOWN] is no type [simpleFactory]
    knows, no cluster named [c9] is registered, and the call
    returns false and registers nothing. *)
Lemma AddOrUpdatePrimaryCluster_counterexample :
  primaryClusters cm0 !! "c9" = None
  ∧ AddOrUpdatePrimaryCluster simpleFactory (exampleCluster "c9" "UNKNOWN") cm0
    = Ret (false, cm0)
  ∧ ¬ (∃ cm',
         AddOrUpdatePrimaryCluster simpleFactory (exampleCluster "c9" "UNKNOWN") cm0
         = Ret (true, cm')).
Proof.
  assert (Hcall : AddOrUpdatePrimaryCluster simpleFactory
                    (exampleCluster "c9" "UNKNOWN") cm0 = Ret (false, cm0))
    by (vm_compute; reflexivity).
  split; [reflexivity|]. split; [exact Hcall|].
  intros [cm' Htrue]. rewrite Hcall in Htrue. discriminate.
Qed.

(** ** Removing clusters *)

Local Ltac removes_nothing cm :=
  exists [];
  split; [intros ?; by rewrite decide_False by set_solver|];
  split; [intros ? ?; set_solver|];
  split; [unfold setPrimaryClusters; by destruct cm|].

(** What [RemovePrimaryCluster] has done when it returns: the names of a
    prefix [removed] of the list are deleted, each of them was registered as
    added via the API, nothing else changed; and either the whole list was
    worked off, or the name after the prefix is the one the error is about. *)
Lemma RemovePrimaryCluster_inv (clusterNames : list string) :
  ∀ cm err cm',
    RemovePrimaryCluster clusterNames cm = (err, cm') →
    ∃ removed,
      (∀ n, primaryClusters cm' !! n
            = if decide (n ∈ removed) then None else primaryClusters cm !! n)
      ∧ (∀ n, n ∈ removed →
              ∃ pc, primaryClusters cm !! n = Some pc ∧ addedViaAPI pc = true)
      ∧ cm' = setPrimaryClusters (primaryClusters cm') cm
      ∧ match err with
        | None => clusterNames = removed
        | Some e =>
            ∃ bad rest,
              clusterNames = (removed ++ bad :: rest)%list
              ∧ ((e = ErrRemoveNotExist bad ∧ primaryClusters cm' !! bad = None)
                 ∨ (e = ErrRemoveNotAddedViaAPI bad
                    ∧ ∃ pc, primaryClusters cm' !! bad = Some pc
                            ∧ addedViaAPI pc = false))
        end.
Proof.
  induction clusterNames as [|name rest IH]; intros cm err cm' Hrun; cbn in Hrun.
  - injection Hrun as <- <-. removes_nothing cm. done.
  - destruct (primaryClusters cm !! name) as [v|] eqn:Hname.
    + destruct (addedViaAPI v) eqn:Hapi; cbn in Hrun.
      * apply IH in Hrun as (removed & Hlook & Hwere & Hframe & Herr).
        cbn in Hlook, Hwere, Hframe.
        exists (name :: removed). split; [|split; [|split]].
        -- intros n. rewrite Hlook.
           destruct (decide (n = name)) as [->|Hne].
           ++ rewrite (decide_True (P := name ∈ name :: removed)) by set_solver.
              case_decide; [done|]. apply lookup_delete_eq.
           ++ rewrite lookup_delete_ne by done.
              destruct (decide (n ∈ removed)) as [Hin|Hnin].
              ** by rewrite decide_True by set_solver.
              ** rewrite decide_False; [done|].
                 by intros [?|?]%elem_of_cons.
        -- intros n [->|Hn]%elem_of_cons; [eauto|].
           destruct (Hwere n Hn) as (pc & Hpc & Hpcapi).
           apply lookup_delete_Some in Hpc as [_ Hpc]. eauto.
        -- rewrite Hframe at 1. done.
        -- destruct err as [e|]; [|by subst].
           destruct Herr as (bad & rest' & -> & Hbad).
           exists bad, rest'. split; [done|]. exact Hbad.
      * injection Hrun as <- <-. removes_nothing cm.
        exists name, rest. split; [done|]. right. split; [done|]. eauto.
    + injection Hrun as <- <-. removes_nothing cm.
      exists name, rest. split; [done|]. by left.
Qed.

(** A run of [RemovePrimaryCluster]: the names it removed, in order, and
    why it stopped. *)
Lemma RemovePrimaryCluster_run (clusterNames : list string) :
  ∀ cm err cm',
    RemovePrimaryCluster clusterNames cm = (err, cm') →
    ∃ removed,
      NoDup removed
      ∧ (∀ n, n ∈ removed →
              ∃ pc, primaryClusters cm !! n = Some pc ∧ addedViaAPI pc = true)
      ∧ match err with
        | None => clusterNames = removed
        | Some e =>
            ∃ bad rest,
              clusterNames = (removed ++ bad :: rest)%list
              ∧ ((e = ErrRemoveNotExist bad
                  ∧ (primaryClusters cm !! bad = None ∨ bad ∈ removed))
                 ∨ (e = ErrRemoveNotAddedViaAPI bad
                    ∧ ∃ pc, primaryClusters cm !! bad = Some pc
                            ∧ addedViaAPI pc = false))
        end
      ∧ (∀ n, primaryClusters cm' !! n
              = if decide (n ∈ removed) then None else primaryClusters cm !! n).
Proof.
  induction clusterNames as [|name rest IH]; intros cm err cm' Hrun; cbn in Hrun.
  - injection Hrun as <- <-. exists []. split; [constructor|].
    split; [by intros n Hn%elem_of_nil|]. split; [done|].
    intros n. rewrite decide_False; [done|]. by intros Hn%elem_of_nil.
  - destruct (primaryClusters cm !! name) as [v|] eqn:Hname.
    + destruct (addedViaAPI v) eqn:Hapi; cbn in Hrun.
      * apply IH in Hrun as (removed & Hnodup & Hwere & Herr & Hlook).
        cbn in Hwere, Herr, Hlook.
        assert (name ∉ removed) as Hfresh.
        { intros Hin. destruct (Hwere name Hin) as (pc & Hpc & _).
          by rewrite lookup_delete_eq in Hpc. }
        exists (name :: removed). split; [by constructor|]. split; [|split].
        -- intros n [->|Hn]%elem_of_cons; [eauto|].
           destruct (Hwere n Hn) as (pc & Hpc & Hpcapi).
           apply lookup_delete_Some in Hpc as [_ Hpc]. eauto.
        -- destruct err as [e|]; [|by subst].
           destruct Herr as (bad & rest' & -> & Hbad).
           exists bad, rest'. split; [done|].
           destruct Hbad as [[-> Hgone]|[-> (pc & Hpc & Hstatic)]]; [left|right].
           ++ split; [done|]. rewrite elem_of_cons.
              destruct Hgone as [Hgone|Hin]; [|by right; right].
              apply lookup_delete_None in Hgone as [->|Hgone]; [right|]; by left.
           ++ split; [done|]. apply lookup_delete_Some in Hpc as [_ Hpc]. eauto.
        -- intros n. rewrite Hlook.
           destruct (decide (n = name)) as [->|Hne].
           ++ rewrite (decide_True (P := name ∈ name :: removed))
                by (apply elem_of_cons; by left).
              case_decide; [done|]. apply lookup_delete_eq.
           ++ rewrite lookup_delete_ne by done.
              destruct (decide (n ∈ removed)) as [Hin|Hnin].
              ** by rewrite decide_True by (apply elem_of_cons; by right).
              ** rewrite decide_False; [done|]. by intros [?|?]%elem_of_cons.
      * injection Hrun as <- <-. exists []. split; [constructor|].
        split; [by intros n Hn%elem_of_nil|]. split.
        -- exists name, rest. split; [done|]. right. split; [done|]. eauto.
        -- intros n. rewrite decide_False; [done|]. by intros Hn%elem_of_nil.
    + injection Hrun as <- <-. exists []. split; [constructor|].
      split; [by intros n Hn%elem_of_nil|]. split.
      * exists name, rest. split; [done|]. left. split; [done|]. by left.
      * intros n. rewrite decide_False; [done|]. by intros Hn%elem_of_nil.
Qed.

(** C5 (amended).  [RemovePrimaryCluster] works the names off in order and
    changes nothing but the registry of clusters.  A cluster that was not
    added via the API is never removed.  The call returns nil exactly when
    the names are pairwise distinct and each of them is registered and was
    added via the API; exactly the named clusters were removed then.
    Otherwise it returns an error, and the error is about the first name in
    the list that, at its turn, is not registered (it never was, or it is
    named a second time) or is registered but was not added via the API:
    the not-exist error in the first case, the not-added-via-API error in
    the second.  That cluster and the ones named after it are untouched,
    while the clusters named before it, all of them registered and added
    via the API, have been removed.  In particular the manager is unchanged
    when the error is about the first name of the list. *)
Theorem RemovePrimaryCluster_removes_prefix
    (clusterNames : list string) (cm : clusterManager) :
  (∀ n pc, primaryClusters cm !! n = Some pc → addedViaAPI pc = false →
           primaryClusters (snd (RemovePrimaryCluster clusterNames cm)) !! n = Some pc)
  ∧ (∀ e, fst (RemovePrimaryCluster clusterNames cm) = Some e →
       ∃ removed bad rest,
         clusterNames = (removed ++ bad :: rest)%list
         ∧ ((e = ErrRemoveNotExist bad
             ∧ (primaryClusters cm !! bad = None ∨ bad ∈ removed))
            ∨ (e = ErrRemoveNotAddedViaAPI bad
               ∧ ∃ pc, primaryClusters cm !! bad = Some pc ∧ addedViaAPI pc = false))
         ∧ (∀ n, primaryClusters (snd (RemovePrimaryCluster clusterNames cm)) !! n
                 = if decide (n ∈ removed) then None else primaryClusters cm !! n)
         ∧ (∀ n, n ∈ removed →
                 ∃ pc, primaryClusters cm !! n = Some pc ∧ addedViaAPI pc = true)
         ∧ NoDup removed
         ∧ (removed = [] → snd (RemovePrimaryCluster clusterNames cm) = cm))
  ∧ (fst (RemovePrimaryCluster clusterNames cm) = None
     ↔ NoDup clusterNames
       ∧ ∀ n, n ∈ clusterNames →
              ∃ pc, primaryClusters cm !! n = Some pc ∧ addedViaAPI pc = true)
  ∧ (fst (RemovePrimaryCluster clusterNames cm) = None →
       ∀ n, primaryClusters (snd (RemovePrimaryCluster clusterNames cm)) !! n
            = if decide (n ∈ clusterNames) then None else primaryClusters cm !! n)
  ∧ snd (RemovePrimaryCluster clusterNames cm)
    = setPrimaryClusters
        (primaryClusters (snd (RemovePrimaryCluster clusterNames cm))) cm.
Proof.
  destruct (RemovePrimaryCluster clusterNames cm) as [err cm'] eqn:Hrun.
  destruct (RemovePrimaryCluster_inv _ _ _ _ Hrun) as (_ & _ & _ & Hframe & _).
  destruct (RemovePrimaryCluster_run _ _ _ _ Hrun)
    as (removed & Hnodup & Hwere & Herr & Hlook).
  cbn. split; [|split; [|split; [|split; [|done]]]].
  - intros n pc Hpc Hstatic. rewrite Hlook. case_decide as Hin; [|done].
    destruct (Hwere n Hin) as (pc' & Hpc' & Hapi). congruence.
  - intros e ->. destruct Herr as (bad & rest & Hnames & Hbad).
    exists removed, bad, rest. split; [done|]. split; [done|].
    split; [done|]. split; [done|]. split; [done|].
    intros ->. rewrite Hframe. unfold setPrimaryClusters.
    destruct cm as [sa pcs pools objs cells]; cbn in *. f_equal.
    apply map_eq; intros n. rewrite Hlook.
    rewrite decide_False; [done|]. by intros Hn%elem_of_nil.
  - split.
    + intros ->. by subst removed.
    + intros [Hdistinct Hall]. destruct err as [e|]; [exfalso|done].
      destruct Herr as (bad & rest & -> & Hbad).
      apply NoDup_app in Hdistinct as (_ & Hapart & _).
      destruct (Hall bad) as (pc & Hpc & Hapi).
      { apply elem_of_app. right. apply elem_of_cons. by left. }
      destruct Hbad as [[_ [Hgone|Hin]]|[_ (pc' & Hpc' & Hstatic)]].
      * congruence.
      * apply (Hapart bad Hin), elem_of_cons. by left.
      * congruence.
  - intros ->. by subst removed.
Qed.

Lemma RemovePrimaryCluster_removes_prefix_witness :
  RemovePrimaryCluster ["c1"] cm1 = (None, setPrimaryClusters ∅ cm1)
  ∧ fst (RemovePrimaryCluster ["c2"; "c1"] cm1) = Some (ErrRemoveNotExist "c2")
  ∧ snd (RemovePrimaryCluster ["c2"; "c1"] cm1) = cm1.
Proof.
  pose proof (RemovePrimaryCluster_removes_prefix ["c2"; "c1"] cm1)
    as (_ & Herr & _).
  destruct (Herr (ErrRemoveNotExist "c2"))
    as (removed & bad & rest & Hnames & _ & _ & Hwere & _ & Hsame);
    [vm_compute; reflexivity|].
  split; [vm_compute; reflexivity|]. split; [vm_compute; reflexivity|].
  apply Hsame. destruct removed as [|n removed]; [reflexivity|].
  exfalso. injection Hnames as <- _.
  destruct (Hwere "c2") as (pc & Hpc & _); [apply elem_of_cons; by left|].
  vm_compute in Hpc. discriminate.
Defined.

(** C5 as the claim words it fails: [c1] was added via the API and [c2] is
    not registered; removing [c1; c2] returns the error about [c2] after
    [c1] has been removed. *)
Lemma RemovePrimaryCluster_counterexample :
  is_Some (primaryClusters cm1 !! "c1")
  ∧ fst (RemovePrimaryCluster ["c1"; "c2"] cm1) = Some (ErrRemoveNotExist "c2")
  ∧ primaryClusters (snd (RemovePrimaryCluster ["c1"; "c2"] cm1)) !! "c1" = None
  ∧ snd (RemovePrimaryCluster ["c1"; "c2"] cm1) ≠ cm1.
Proof.
  split; [by eexists|]. split; [vm_compute; reflexivity|].
  split; [vm_compute; reflexivity|].
  intros Heq.
  assert (Hl : primaryClusters (snd (RemovePrimaryCluster ["c1"; "c2"] cm1)) !! "c1"
               = None) by (vm_compute; reflexivity).
  rewrite Heq in Hl. vm_compute in Hl. discriminate.
Qed.

(** [reflect.DeepEqual] tells the nil host list of a configuration from the
    empty list that [UpdateHosts] stores: after [UpdateClusterHosts] with
    no hosts, the configuration the cluster was added with is no duplicate
    any more, and adding it again rebuilds the cluster. *)
Lemma AddOrUpdatePrimaryCluster_empty_hosts_not_nil :
  let cmE := managerOf (UpdateClusterHosts "c1" 0 [] cm1) cm1 in
  Hosts <$> (configUsed <$> primaryClusters cm1 !! "c1") = Some None
  ∧ Hosts <$> (configUsed <$> primaryClusters cmE !! "c1") = Some (Some [])
  ∧ ∃ cm',
      AddOrUpdatePrimaryCluster simpleFactory (exampleCluster "c1" SIMPLE_CLUSTER) cmE
      = Ret (true, cm')
      ∧ pc_cluster <$> primaryClusters cm' !! "c1"
        ≠ pc_cluster <$> primaryClusters cmE !! "c1".
Proof.
  split; [vm_compute; reflexivity|]. split; [vm_compute; reflexivity|].
  eexists. split; [vm_compute; reflexivity|]. vm_compute. discriminate.
Qed.

(** ** Host updates *)

Lemma GetOrCreateHostSet_zero_lookup (ps : PrioritySet) (hs : HostSet) (q : nat) :
  <[0 := hs]> (GetOrCreateHostSet 0 ps) !! q
  = match q with 0 => Some hs | S _ => ps !! q end.
Proof.
  unfold GetOrCreateHostSet. destruct ps as [|hs0 ps]; cbn.
  - by destruct q.
  - rewrite app_nil_r. by destruct q.
Qed.

(** What [pc.UpdateHosts] leaves behind a primary cluster whose cluster
    object is a simple in-memory cluster. *)
Lemma UpdateHosts_simple hosts pc cm c v :
  clusterObjs cm !! pc_cluster pc = Some (SimpleInMem c) →
  rcuObjs cm !! configLock pc = Some v →
  ∃ pc' cm',
    UpdateHosts hosts pc cm
    = Ret (bool_decide (rcu.readers (rcu.current v) v ≠ 0%Z), pc', cm')
    ∧ pc_cluster pc' = pc_cluster pc
    ∧ configLock pc' = configLock pc
    ∧ addedViaAPI pc' = addedViaAPI pc
    ∧ configUsed pc' = withHosts (Config <$> hosts) (configUsed pc)
    ∧ clusterObjs cm'
      = <[pc_cluster pc := SimpleInMem (simpleInMemCluster_UpdateHosts hosts c)]>
          (clusterObjs cm)
    ∧ rcuObjs cm'
      = <[configLock pc := snd (rcu.Update (configUsed pc') 0 v)]> (rcuObjs cm)
    ∧ primaryClusters cm' = primaryClusters cm
    ∧ protocolConnPool cm' = protocolConnPool cm.
Proof.
  intros Hobj Hcell. unfold UpdateHosts. rewrite Hobj. cbn. rewrite Hcell.
  destruct (rcu.Update _ 0 v) as [blocked v'] eqn:Hup.
  eexists _, _. split.
  - do 2 f_equal. f_equal.
    pose proof (rcu_Update_blocks
                  (withHosts (Config <$> hosts) (deepCopyCluster (configUsed pc))) 0 v)
      as Hblk.
    rewrite Hup in Hblk. cbn in Hblk.
    destruct blocked.
    + symmetry. apply bool_decide_eq_true. by apply Hblk.
    + symmetry. apply bool_decide_eq_false. intros Hne. apply Hblk in Hne. done.
  - cbn. unfold deepCopyCluster in *. rewrite Hup. done.
Qed.

Lemma snapshotHosts_registered clusterName q cm pc pcc v :
  primaryClusters cm !! clusterName = Some pc →
  clusterObjs cm !! pc_cluster pc = Some pcc →
  rcuObjs cm !! configLock pc = Some v →
  snapshotHosts clusterName q cm = hs_Hosts <$> ClusterPrioritySet pcc !! q.
Proof.
  intros Hpc Hobj Hcell. unfold snapshotHosts, GetClusterSnapshot.
  rewrite Hpc, Hobj, Hcell. cbn.
  unfold snapshotPrioritySet; cbn. by rewrite Hobj.
Qed.

(** What a host mutator leaves behind, for a registered simple in-memory
    cluster: the new host list is the cluster's host list and its host set
    at priority 0, the other priorities are as before, the stored
    configuration lists the hosts' configurations, and the error is the
    caller's [blockedErr] exactly when a reader still holds the
    configuration that was current. *)
Lemma applyUpdateHosts_simple clusterName pc hosts blockedErr cm c v :
  primaryClusters cm !! clusterName = Some pc →
  clusterObjs cm !! pc_cluster pc = Some (SimpleInMem c) →
  rcuObjs cm !! configLock pc = Some v →
  ∃ cm' pc',
    applyUpdateHosts clusterName pc hosts blockedErr cm
    = Ret (if decide (rcu.readers (rcu.current v) v = 0%Z)
           then None else Some blockedErr, cm')
    ∧ primaryClusters cm' = <[clusterName := pc']> (primaryClusters cm)
    ∧ configUsed pc' = withHosts (Config <$> hosts) (configUsed pc)
    ∧ addedViaAPI pc' = addedViaAPI pc
    ∧ clusterObjs cm' !! pc_cluster pc'
      = Some (SimpleInMem (simpleInMemCluster_UpdateHosts hosts c))
    ∧ snapshotHosts clusterName 0 cm' = Some hosts
    ∧ (∀ q, q ≠ 0 →
         snapshotHosts clusterName q cm' = hs_Hosts <$> sc_prioritySet c !! q)
    ∧ protocolConnPool cm' = protocolConnPool cm.
Proof.
  intros Hpc Hobj Hcell. unfold applyUpdateHosts.
  destruct (UpdateHosts_simple hosts pc cm c v Hobj Hcell)
    as (pc' & cm1 & -> & Hc & Hl & Hapi & Hcfg & Hobjs & Hcells & Hpcs & Hpools).
  eexists _, pc'. split.
  { do 2 f_equal. case_bool_decide; case_decide; done. }
  cbn. rewrite Hpcs. split; [done|]. split; [done|]. split; [done|].
  assert (Hobj' : clusterObjs cm1 !! pc_cluster pc'
                  = Some (SimpleInMem (simpleInMemCluster_UpdateHosts hosts c))).
  { rewrite Hobjs, Hc. apply lookup_insert_eq. }
  assert (Hsnap : ∀ q, snapshotHosts clusterName q
                         (setPrimaryClusters (<[clusterName:=pc']> (primaryClusters cm)) cm1)
                       = hs_Hosts <$> ClusterPrioritySet
                           (SimpleInMem (simpleInMemCluster_UpdateHosts hosts c)) !! q).
  { intros q. eapply snapshotHosts_registered; cbn.
    - apply lookup_insert_eq.
    - exact Hobj'.
    - rewrite Hcells, Hl. apply lookup_insert_eq. }
  split; [done|]. split; [|split; [|done]].
  - rewrite Hsnap. cbn. by rewrite GetOrCreateHostSet_zero_lookup.
  - intros q Hq. rewrite Hsnap. cbn. rewrite GetOrCreateHostSet_zero_lookup.
    by destruct q.
Qed.

Lemma NewHost_Config (info : ClusterInfo) (hostConfigs : list v2Host) :
  Config <$> ((fun hc => NewHost hc info) <$> hostConfigs) = hostConfigs.
Proof. rewrite <- list_fmap_compose. by rewrite <- (list_fmap_id hostConfigs) at 2. Qed.

(** C2 (amended).  For every registered cluster whose cluster object is a
    simple in-memory cluster, every priority argument [p] and every
    host-config list [H]: after [UpdateClusterHosts(C, p, H)] has returned
    nil, the host set at priority 0 that a new snapshot of [C] shows holds
    the hosts of [H], in the order of [H] (same configurations, hence same
    addresses); host sets at the other priorities are what they were; and
    the argument [p] plays no role. *)
Theorem UpdateClusterHosts_sets_priority_zero
    (clusterName : string) (p : nat) (hostConfigs : list v2Host)
    (cm cm' : clusterManager) (pc : primaryCluster) (c : simpleInMemCluster) :
  primaryClusters cm !! clusterName = Some pc →
  clusterObjs cm !! pc_cluster pc = Some (SimpleInMem c) →
  UpdateClusterHosts clusterName p hostConfigs cm = Ret (None, cm') →
  snapshotHostAddresses clusterName 0 cm' = Some (Address <$> hostConfigs)
  ∧ fmap (M := list) Config <$> snapshotHosts clusterName 0 cm' = Some hostConfigs
  ∧ (∀ q, q ≠ 0 →
       snapshotHosts clusterName q cm' = hs_Hosts <$> sc_prioritySet c !! q)
  ∧ (∀ p', UpdateClusterHosts clusterName p' hostConfigs cm
           = UpdateClusterHosts clusterName p hostConfigs cm).
Proof.
  intros Hpc Hobj Hrun. unfold UpdateClusterHosts in Hrun.
  rewrite Hpc, Hobj in Hrun. cbn in Hrun.
  destruct (rcuObjs cm !! configLock pc) as [v|] eqn:Hcell; cycle 1.
  { unfold applyUpdateHosts, UpdateHosts in Hrun.
    rewrite Hobj in Hrun. cbn in Hrun. rewrite Hcell in Hrun. discriminate. }
  destruct (applyUpdateHosts_simple clusterName pc
              ((fun hc => NewHost hc (sc_info c)) <$> hostConfigs)
              (ErrUpdateHostsBlocked clusterName) cm c v Hpc Hobj Hcell)
    as (cm1 & pc' & Hcall & _ & _ & _ & _ & Hzero & Hother & _).
  rewrite Hcall in Hrun. injection Hrun as Herr <-.
  unfold snapshotHostAddresses. rewrite Hzero. cbn.
  split; [|split; [|split]].
  - f_equal. rewrite <- list_fmap_compose.
    apply list_fmap_ext. by intros i hc _.
  - f_equal. apply NewHost_Config.
  - exact Hother.
  - done.
Qed.

Lemma UpdateClusterHosts_sets_priority_zero_witness :
  snapshotHostAddresses "c1" 0 cm2 = Some ["a:8080"; "b:8080"].
Proof.
  refine (proj1 (UpdateClusterHosts_sets_priority_zero "c1" 0
                   [exampleHost "a:8080"; exampleHost "b:8080"] cm1 cm2
                   (mkPrimary 0 true (exampleCluster "c1" "SIMPLE") 0)
                   {| sc_info := {| info_Name := "c1"; info_ClusterType := "SIMPLE";
                                    info_LbType := "LB_RANDOM"; info_LBInstance := 0 |};
                      sc_prioritySet := []; sc_hosts := [] |}
                   _ _ _));
    vm_compute; reflexivity.
Defined.

(** C2 as the claim words it fails for a priority other than 0: after
    [UpdateClusterHosts("c1", 1, [a; b])] has returned nil, a new snapshot
    shows no host set at priority 1; the two hosts are at priority 0. *)
Lemma UpdateClusterHosts_counterexample :
  UpdateClusterHosts "c1" 1 [exampleHost "a:8080"; exampleHost "b:8080"] cm1
  = Ret (None, cm2)
  ∧ snapshotHostAddresses "c1" 1 cm2 = None
  ∧ snapshotHostAddresses "c1" 0 cm2 = Some ["a:8080"; "b:8080"].
Proof. repeat split; vm_compute; reflexivity. Qed.

(** For a registered cluster that is not a simple in-memory cluster the
    call returns nil as well, but only the stored configuration gets the
    hosts: the host sets stay as they are. *)
Lemma UpdateClusterHosts_other_cluster :
  let cm := setClusterObjs {[ 0 := OtherCluster exampleInfo [] ]} cm1 in
  ∃ cm',
    UpdateClusterHosts "c1" 0 [exampleHost "a:8080"] cm = Ret (None, cm')
    ∧ snapshotHostAddresses "c1" 0 cm' = None
    ∧ Hosts <$> (configUsed <$> primaryClusters cm' !! "c1")
      = Some (Some [exampleHost "a:8080"]).
Proof. eexists. split; [vm_compute; reflexivity|]. split; vm_compute; reflexivity. Qed.

(** ** Removing a host *)

Lemma findHost_None hostAddress hosts i :
  hostAddress ∉ AddressString <$> hosts → findHost hostAddress hosts i = None.
Proof.
  revert i. induction hosts as [|h hosts IH]; intros i Hnot; cbn; [done|].
  cbn in Hnot. apply not_elem_of_cons in Hnot as [Hne Hnot].
  rewrite decide_False by done. by apply IH.
Qed.

Lemma findHost_first hostAddress before h after i :
  AddressString h = hostAddress →
  hostAddress ∉ AddressString <$> before →
  findHost hostAddress (before ++ h :: after) i = Some (i + length before).
Proof.
  intros Hh. revert i. induction before as [|b before IH]; intros i Hnot; cbn.
  - rewrite decide_True by done. f_equal. lia.
  - cbn in Hnot. apply not_elem_of_cons in Hnot as [Hne Hnot].
    rewrite decide_False by done. rewrite IH by done. f_equal. lia.
Qed.

Lemma cut_out {A} (before after : list A) (x : A) :
  (take (length before) (before ++ x :: after)
   ++ drop (S (length before)) (before ++ x :: after))%list
  = (before ++ after)%list.
Proof.
  rewrite take_app_length. f_equal.
  rewrite (cons_middle x before after), app_assoc.
  replace (S (length before)) with (length (before ++ [x])).
  - apply drop_app_length.
  - rewrite length_app. cbn. lia.
Qed.

(** C7 (amended).  [RemoveClusterHost(name, addr)]:
    - returns an error when [addr] is empty, when no cluster is registered
      under [name], when the registered cluster is not a simple in-memory
      cluster, and when no host of the cluster has the address [addr]; in
      each of these cases the manager is unchanged;
    - otherwise it removes the first host of the cluster whose address is
      [addr], and only that one: the cluster's host list, its host set at
      priority 0 and the host list of the stored configuration are the old
      list without that host, in the old order.  It then returns nil,
      unless a reader still holds the configuration that was current: then
      the RCU update signals [Block] and the call returns an error although
      the host is gone. *)
Theorem RemoveClusterHost_cases
    (clusterName hostAddress : string) (cm : clusterManager) :
  (hostAddress = "" →
     RemoveClusterHost clusterName hostAddress cm = Ret (Some ErrHostAddressNil, cm))
  ∧ (hostAddress ≠ "" → primaryClusters cm !! clusterName = None →
     RemoveClusterHost clusterName hostAddress cm
     = Ret (Some (ErrClusterNotExist clusterName), cm))
  ∧ (∀ pc info ps,
       hostAddress ≠ "" →
       primaryClusters cm !! clusterName = Some pc →
       clusterObjs cm !! pc_cluster pc = Some (OtherCluster info ps) →
       RemoveClusterHost clusterName hostAddress cm
       = Ret (Some (ErrClusterNotValid clusterName), cm))
  ∧ (∀ pc c v,
       hostAddress ≠ "" →
       primaryClusters cm !! clusterName = Some pc →
       clusterObjs cm !! pc_cluster pc = Some (SimpleInMem c) →
       rcuObjs cm !! configLock pc = Some v →
       (hostAddress ∉ AddressString <$> sc_hosts c →
          RemoveClusterHost clusterName hostAddress cm
          = Ret (Some (ErrHostNotExist hostAddress), cm))
       ∧ (∀ before h after,
            sc_hosts c = (before ++ h :: after)%list →
            AddressString h = hostAddress →
            hostAddress ∉ AddressString <$> before →
            ∃ cm' pc' c',
              RemoveClusterHost clusterName hostAddress cm
              = Ret (if decide (rcu.readers (rcu.current v) v = 0%Z)
                     then None
                     else Some (ErrRemoveHostBlocked hostAddress clusterName), cm')
              ∧ primaryClusters cm' !! clusterName = Some pc'
              ∧ Hosts (configUsed pc') = Some (Config <$> (before ++ after)%list)
              ∧ clusterObjs cm' !! pc_cluster pc' = Some (SimpleInMem c')
              ∧ sc_hosts c' = (before ++ after)%list
              ∧ snapshotHosts clusterName 0 cm' = Some (before ++ after)%list)).
Proof.
  unfold RemoveClusterHost. split; [|split; [|split]].
  - intros ->. done.
  - intros Hne Hnone. rewrite decide_False by done. by rewrite Hnone.
  - intros pc info ps Hne Hpc Hobj. rewrite decide_False by done.
    by rewrite Hpc, Hobj.
  - intros pc c v Hne Hpc Hobj Hcell. rewrite decide_False by done.
    rewrite Hpc, Hobj. split.
    + intros Hnot. by rewrite findHost_None.
    + intros before h after Hhosts Hh Hfirst.
      rewrite Hhosts, (findHost_first _ _ _ _ 0 Hh Hfirst). cbn. rewrite cut_out.
      destruct (applyUpdateHosts_simple clusterName pc (before ++ after)
                  (ErrRemoveHostBlocked hostAddress clusterName) cm c v Hpc Hobj Hcell)
        as (cm' & pc' & Hcall & Hpcs & Hcfg & _ & Hobj' & Hzero & _).
      exists cm', pc', (simpleInMemCluster_UpdateHosts (before ++ after) c).
      split; [done|]. split; [rewrite Hpcs; apply lookup_insert_eq|].
      split; [by rewrite Hcfg|]. done.
Qed.

Lemma RemoveClusterHost_cases_witness :
  ∃ cm',
    RemoveClusterHost "c1" "a:8080" cm2 = Ret (None, cm')
    ∧ snapshotHostAddresses "c1" 0 cm' = Some ["b:8080"].
Proof.
  pose proof (RemoveClusterHost_cases "c1" "a:8080" cm2) as (_ & _ & _ & Hsimple).
  edestruct Hsimple as [_ Hremove];
    [done | vm_compute; reflexivity | vm_compute; reflexivity
     | vm_compute; reflexivity |].
  destruct (Hremove [] (NewHost (exampleHost "a:8080")
                          {| info_Name := "c1"; info_ClusterType := "SIMPLE";
                             info_LbType := "LB_RANDOM"; info_LBInstance := 0 |})
              [NewHost (exampleHost "b:8080")
                 {| info_Name := "c1"; info_ClusterType := "SIMPLE";
                    info_LbType := "LB_RANDOM"; info_LBInstance := 0 |}])
    as (cm' & pc' & c' & Hcall & _ & _ & _ & _ & Hsnap);
    [reflexivity | reflexivity | apply not_elem_of_nil |].
  exists cm'. split; [exact Hcall|].
  unfold snapshotHostAddresses. rewrite Hsnap. reflexivity.
Defined.

(** C7 as the claim words it fails while a reader holds a snapshot: [c1] is
    registered, [a:8080] is the address of one of its hosts, and the call
    returns an error. *)
Lemma RemoveClusterHost_counterexample :
  is_Some (primaryClusters cm3 !! "c1")
  ∧ snapshotHostAddresses "c1" 0 cm3 = Some ["a:8080"; "b:8080"]
  ∧ ∃ cm',
      RemoveClusterHost "c1" "a:8080" cm3
      = Ret (Some (ErrRemoveHostBlocked "a:8080" "c1"), cm').
Proof.
  split; [by eexists|]. split; [vm_compute; reflexivity|].
  eexists. vm_compute. reflexivity.
Qed.

(** The same call fails as well, whatever the readers do, when the
    registered cluster is not a simple in-memory cluster, although its
    priority set holds a host with that address. *)
Lemma RemoveClusterHost_other_cluster :
  let h := NewHost (exampleHost "a:8080") exampleInfo in
  let cm := setClusterObjs {[ 0 := OtherCluster exampleInfo [mkHostSet [h]] ]} cm1 in
  snapshotHostAddresses "c1" 0 cm = Some ["a:8080"]
  ∧ RemoveClusterHost "c1" "a:8080" cm = Ret (Some (ErrClusterNotValid "c1"), cm).
Proof. split; vm_compute; reflexivity. Qed.

(** ** The request path *)

Section RequestPathFacts.
Context {W : Type} (E : Env W).

(** C9.  [TCPConnForCluster] always returns.  When the snapshot is nil,
    when it is not the manager's own snapshot type, and when the
    snapshot's load balancer chooses no host, it returns the empty
    [CreateConnectionData] and no connection is created: nothing happens
    at all in the first two cases, and only the load balancer is asked in
    the third.  A connection is created only for a host the load balancer
    chose, and then the call returns what [CreateConnection] on that host
    returned.  The manager is never changed. *)
Theorem TCPConnForCluster_total
    (lbCtx : LoadBalancerContext) (snapshot : option ClusterSnapshot)
    (m : machine W) :
  (snapshot = None → TCPConnForCluster E lbCtx snapshot m = (emptyConnectionData, m))
  ∧ (∀ info, snapshot = Some (Foreign info) →
       TCPConnForCluster E lbCtx snapshot m = (emptyConnectionData, m))
  ∧ (∀ cs, snapshot = Some (Internal cs) →
       fst (ChooseHost E (loadbalancer cs) lbCtx (world m)) = None →
       fst (TCPConnForCluster E lbCtx snapshot m) = emptyConnectionData
       ∧ events (snd (TCPConnForCluster E lbCtx snapshot m))
         = (events m ++ [EvChooseHost None])%list)
  ∧ (∀ cs host,
       snapshot = Some (Internal cs) →
       fst (ChooseHost E (loadbalancer cs) lbCtx (world m)) = Some host →
       fst (TCPConnForCluster E lbCtx snapshot m)
       = fst (CreateConnection E host
                (snd (ChooseHost E (loadbalancer cs) lbCtx (world m))))
       ∧ events (snd (TCPConnForCluster E lbCtx snapshot m))
         = (events m ++ [EvChooseHost (Some host); EvCreateConnection host])%list)
  ∧ (∀ host,
       EvCreateConnection host ∈ events (snd (TCPConnForCluster E lbCtx snapshot m)) →
       EvCreateConnection host ∈ events m
       ∨ ∃ cs, snapshot = Some (Internal cs)
               ∧ fst (ChooseHost E (loadbalancer cs) lbCtx (world m)) = Some host)
  ∧ mgr (snd (TCPConnForCluster E lbCtx snapshot m)) = mgr m.
Proof.
  unfold TCPConnForCluster, doChooseHost, doCreateConnection.
  destruct snapshot as [[cs|info]|]; cbn.
  - destruct (ChooseHost E (loadbalancer cs) lbCtx (world m)) as [[host|] w] eqn:Hch;
      cbn.
    + destruct (CreateConnection E host w) as [d w'] eqn:Hdial; cbn.
      split; [done|]. split; [done|].
      split; [intros ? [= <-]; rewrite Hch; done|].
      split.
      { intros cs' host' [= <-]. rewrite Hch. cbn. intros [= <-].
        rewrite Hdial. cbn. by rewrite <- app_assoc. }
      split; [|done].
      intros host'. rewrite !elem_of_app, !list_elem_of_singleton.
      intros [[Hin|Hev]|Hev]; [by left|done|].
      injection Hev as ->. right. exists cs. by rewrite Hch.
    + split; [done|]. split; [done|].
      split; [intros ? [= <-]; rewrite Hch; done|].
      split; [intros cs' host' [= <-]; rewrite Hch; done|].
      split; [|done].
      intros host'. rewrite elem_of_app, list_elem_of_singleton.
      intros [Hin|Hev]; [by left|done].
  - split; [done|]. split; [done|]. split; [done|]. split; [done|].
    split; [|done]. intros host Hin. by left.
  - split; [done|]. split; [done|]. split; [done|]. split; [done|].
    split; [|done]. intros host Hin. by left.
Qed.
End RequestPathFacts.

Lemma TCPConnForCluster_total_witness :
  TCPConnForCluster (scripted ∅) exampleLbCtx None (play [Some hostA] [] false cm1)
  = (emptyConnectionData, play [Some hostA] [] false cm1)
  ∧ fst (TCPConnForCluster (scripted ∅) exampleLbCtx (Some (Internal exampleSnapshot))
           (play [] [] false cm1))
    = emptyConnectionData
  ∧ fst (TCPConnForCluster (scripted ∅) exampleLbCtx (Some (Internal exampleSnapshot))
           (play [Some hostA] [] false cm1))
    = {| Connection := Some 0; HostInfo := Some hostA |}.
Proof.
  split; [|split].
  - apply (TCPConnForCluster_total (scripted ∅) exampleLbCtx None
             (play [Some hostA] [] false cm1)).
    reflexivity.
  - pose proof (TCPConnForCluster_total (scripted ∅) exampleLbCtx
                  (Some (Internal exampleSnapshot)) (play [] [] false cm1))
      as (_ & _ & Hnone & _).
    apply (Hnone exampleSnapshot); reflexivity.
  - pose proof (TCPConnForCluster_total (scripted ∅) exampleLbCtx
                  (Some (Internal exampleSnapshot)) (play [Some hostA] [] false cm1))
      as (_ & _ & _ & Hsome & _).
    destruct (Hsome exampleSnapshot hostA) as [Hres _]; [reflexivity | reflexivity|].
    rewrite Hres. reflexivity.
Defined.

(** *** The pool-selection loop *)

Lemma poolsKept_refl fs protocol cm cp :
  protocolConnPool cm !! protocol = Some cp → poolsKept fs protocol cm cm [].
Proof.
  intros Hcp. split; [by destruct cm|]. split; [done|].
  exists cp, cp. by repeat split.
Qed.

Lemma poolsKept_trans fs protocol cm1 cm2 cm3 as1 as2 :
  poolsKept fs protocol cm1 cm2 as1 →
  poolsKept fs protocol cm2 cm3 as2 →
  poolsKept fs protocol cm1 cm3 (as1 ++ as2).
Proof.
  intros (Hf1 & Ho1 & cp1 & cp2 & Hcp1 & Hcp2 & Hsub1 & Hall1)
         (Hf2 & Ho2 & cp2' & cp3 & Hcp2' & Hcp3 & Hsub2 & Hall2).
  assert (cp2' = cp2) as -> by congruence.
  split; [|split].
  - clear -Hf1 Hf2. unfold setProtocolConnPool in *.
    destruct cm1, cm2, cm3; cbn in *. congruence.
  - intros q Hq. by rewrite Ho2, Ho1.
  - exists cp1, cp3. split; [done|]. split; [done|].
    split; [by etrans|]. apply Forall_app. split; [|done].
    eapply Forall_impl; [exact Hall1|]. cbn. intros a [Ha Hfrom].
    split; [by eapply lookup_weaken|done].
Qed.

Section PoolSelection.
Context {W : Type} (E : Env W).
Context (balancerContext : LoadBalancerContext)
        (clusterSnapshot : clusterSnapshot) (protocol : string).

(** One turn of the first loop either ends the call, or is an attempt that
    fills slot [i] of the array. *)
Lemma chooseTurn_cases i pools (m : machine W) cp :
  protocolConnPool (mgr m) !! protocol = Some cp →
  (∃ m' r last,
     chooseTurn E balancerContext clusterSnapshot protocol i pools m = Return r m'
     ∧ ending protocol r last
     ∧ events m' = (events m ++ last)%list
     ∧ mgr m' = mgr m)
  ∨ (∃ m' a,
       chooseTurn E balancerContext clusterSnapshot protocol i pools m
       = Continue (<[i := Some (attemptPool a)]> pools) m'
       ∧ events m' = (events m ++ attemptEvents protocol a)%list
       ∧ poolsKept (ConnNewPoolFactories E) protocol (mgr m) (mgr m') [a]).
Proof.
  intros Hcp. unfold chooseTurn, doChooseHost.
  destruct (ChooseHost E (loadbalancer clusterSnapshot) balancerContext (world m))
    as [[host|] w]; cbn; cycle 1.
  { left. eexists _, _, _. split; [reflexivity|]. split; [constructor|]. done. }
  rewrite Hcp. unfold loadPool, emit; cbn. rewrite ?Hcp; cbn.
  destruct (cp !! AddressString host) as [pool|] eqn:Hpool.
  - unfold doCheckAndInit; cbn.
    destruct (CheckAndInit E pool (DownstreamContext balancerContext) w)
      as [[|] w']; cbn.
    + left. eexists _, _, _. split; [reflexivity|]. split; [constructor|]. cbn.
      split; [|done]. by rewrite <- !app_assoc.
    + right. eexists _, (Existing host pool).
      split; [reflexivity|]. cbn. split; [by rewrite <- !app_assoc|].
      split; [by destruct (mgr m)|]. split; [done|].
      exists cp, cp. split; [done|]. split; [done|]. split; [done|].
      by constructor.
  - rewrite ?Hcp; cbn. rewrite ?Hpool; cbn.
    destruct (ConnNewPoolFactories E !! protocol) as [factory|] eqn:Hfac.
    + unfold doCheckAndInit, storePool; cbn.
      destruct (CheckAndInit E (factory host) (DownstreamContext balancerContext) w)
        as [ready w']; cbn.
      right. eexists _, (Created host (factory host) ready).
      split; [reflexivity|]. cbn. split; [by rewrite <- !app_assoc|].
      split; [done|]. split.
      { intros q Hq. cbn. by rewrite lookup_alter_ne. }
      exists cp, (<[AddressString host := factory host]> cp).
      split; [done|]. split; [cbn; by rewrite lookup_alter_eq, Hcp|].
      split; [by apply insert_subseteq|].
      constructor; [|done]. cbn. split; [apply lookup_insert_eq|]. by exists factory.
    + left. eexists _, _, _. split; [reflexivity|].
      split; [apply (EndNoFactory protocol host)|]. cbn.
      split; [|done]. by rewrite <- !app_assoc.
Qed.
End PoolSelection.

Section PoolSelectionLoops.
Context {W : Type} (E : Env W).
Context (balancerContext : LoadBalancerContext)
        (clusterSnapshot : clusterSnapshot) (protocol : string).

(** The first loop with [n] turns left and the slots before [i] filled
    with [prev]: it ends the call after fewer than [n] attempts, or makes
    [n] attempts and leaves their pools in the slots from [i] on. *)
Lemma chooseLoop_cases n :
  ∀ i prev (m : machine W) cp,
    length prev = i →
    protocolConnPool (mgr m) !! protocol = Some cp →
    (∃ attempts m' r last,
       length attempts < n
       ∧ chooseLoop E balancerContext clusterSnapshot protocol n i
           (prev ++ replicate n None) m = Return r m'
       ∧ ending protocol r last
       ∧ events m'
         = (events m ++ concat (attemptEvents protocol <$> attempts) ++ last)%list
       ∧ poolsKept (ConnNewPoolFactories E) protocol (mgr m) (mgr m') attempts)
    ∨ (∃ attempts m',
         length attempts = n
         ∧ chooseLoop E balancerContext clusterSnapshot protocol n i
             (prev ++ replicate n None) m
           = Continue (prev ++ (Some <$> (attemptPool <$> attempts))) m'
         ∧ events m'
           = (events m ++ concat (attemptEvents protocol <$> attempts))%list
         ∧ poolsKept (ConnNewPoolFactories E) protocol (mgr m) (mgr m') attempts).
Proof.
  induction n as [|n IH]; intros i prev m cp Hlen Hcp; cbn [chooseLoop].
  - right. exists [], m. cbn. rewrite !app_nil_r.
    split; [done|]. split; [done|]. split; [done|]. by eapply poolsKept_refl.
  - destruct (chooseTurn_cases E balancerContext clusterSnapshot protocol
                i (prev ++ replicate (S n) None) m cp Hcp)
      as [(m' & r & last & -> & Hend & Hev & Hmgr)
         |(m' & a & -> & Hev & Hkept)].
    + left. exists [], m', r, last. cbn.
      split; [lia|]. split; [done|]. split; [done|]. split; [done|].
      rewrite Hmgr. by eapply poolsKept_refl.
    + assert (Hfill : <[i := Some (attemptPool a)]> (prev ++ replicate (S n) None)
                      = ((prev ++ [Some (attemptPool a)]) ++ replicate n None)%list).
      { cbn. rewrite <- app_assoc. cbn.
        replace i with (length prev + 0) by lia.
        by rewrite insert_app_r. }
      rewrite Hfill.
      destruct Hkept as (Hf & Ho & cp0 & cp' & Hcp0 & Hcp' & Hsub & Hall).
      assert (Hkept : poolsKept (ConnNewPoolFactories E) protocol (mgr m) (mgr m') [a]).
      { split; [done|]. split; [done|]. by exists cp0, cp'. }
      destruct (IH (S i) (prev ++ [Some (attemptPool a)]) m' cp')
        as [(attempts & m'' & r & last & Hn & -> & Hend & Hev' & Hkept')
           |(attempts & m'' & Hn & -> & Hev' & Hkept')];
        [rewrite length_app; cbn; lia | done | |].
      * left. exists (a :: attempts), m'', r, last. cbn.
        split; [lia|]. split; [done|]. split; [done|].
        split; [rewrite Hev', Hev; by rewrite <- !app_assoc|].
        by apply (poolsKept_trans _ _ _ _ _ [a] attempts Hkept).
      * right. exists (a :: attempts), m''. cbn.
        split; [lia|]. split; [by rewrite <- app_assoc|].
        split; [rewrite Hev', Hev; by rewrite <- !app_assoc|].
        by apply (poolsKept_trans _ _ _ _ _ [a] attempts Hkept).
Qed.

(** Polling the remembered pools in order: none is ready, or the poll
    stops at the first one that is. *)
Lemma pollPools_cases ctx (pools : list ConnectionPool) :
  ∀ m : machine W,
    (∃ m', pollPools E ctx (Some <$> pools) m = (None, m')
           ∧ events m' = (events m ++ failedPolls pools)%list
           ∧ mgr m' = mgr m)
    ∨ (∃ m' polled pool rest,
         pools = (polled ++ pool :: rest)%list
         ∧ pollPools E ctx (Some <$> pools) m = (Some pool, m')
         ∧ events m'
           = (events m ++ failedPolls polled ++ [EvCheckAndInit pool true])%list
         ∧ mgr m' = mgr m).
Proof.
  induction pools as [|pool pools IH]; intros m; cbn.
  - left. exists m. by rewrite app_nil_r.
  - unfold doCheckAndInit.
    destruct (CheckAndInit E pool ctx (world m)) as [[|] w]; cbn.
    + right. eexists _, [], pool, pools. cbn. done.
    + destruct (IH (mkMachine (mgr m) w (events m ++ [EvCheckAndInit pool false])))
        as [(m' & -> & Hev & Hmgr)|(m' & polled & pool' & rest & -> & -> & Hev & Hmgr)];
        cbn in Hev, Hmgr.
      * left. exists m'. split; [done|]. split; [|done].
        rewrite Hev. by rewrite <- app_assoc.
      * right. exists m', (pool :: polled), pool', rest. cbn.
        split; [done|]. split; [done|]. split; [|done].
        rewrite Hev. by rewrite <- app_assoc.
Qed.

Lemma waiting_later ds pools r tr d :
  waiting ds pools r tr →
  waiting (d :: ds) pools r (failedStage pools d ++ tr).
Proof.
  intros [j dj polled pool rest Hj Hpools|].
  - rewrite app_assoc.
    by apply (WaitReady (d :: ds) pools (S j) dj polled pool rest).
  - apply (WaitExhausted (d :: ds) pools).
Qed.

(** The wait over [n] stages that start at [waitTime]. *)
Lemma waitLoop_cases ctx (pools : list ConnectionPool) n :
  ∀ waitTime (m : machine W),
    ∃ r m' tr,
      waitLoop E ctx (Some <$> pools) n waitTime m = (r, m')
      ∧ waiting (stagesFrom waitTime n) pools r tr
      ∧ events m' = (events m ++ tr)%list
      ∧ mgr m' = mgr m.
Proof.
  induction n as [|n IH]; intros waitTime m; cbn [waitLoop stagesFrom].
  - eexists _, _, _. split; [reflexivity|].
    split; [apply WaitExhausted|]. cbn. by rewrite app_nil_r.
  - destruct (pollPools_cases ctx pools (doSleep E waitTime m))
      as [(m' & -> & Hev & Hmgr)|(m' & polled & pool & rest & Hpools & -> & Hev & Hmgr)];
      cbn in Hev, Hmgr.
    + destruct (IH (waitTime * 10)%Z m') as (r & m'' & tr & -> & Hwait & Hev' & Hmgr').
      exists r, m'', (failedStage pools waitTime ++ tr)%list.
      split; [done|]. split; [by apply waiting_later|].
      split; [|congruence].
      rewrite Hev', Hev. unfold failedStage. cbn. by rewrite <- !app_assoc.
    + eexists _, _, _. split; [reflexivity|]. split.
      * by apply (WaitReady _ pools 0 waitTime polled pool rest).
      * cbn. split; [|done]. rewrite Hev. by rewrite <- !app_assoc.
Qed.
End PoolSelectionLoops.

(** Sleeps and load-balancer calls of the parts of a trace. *)
Lemma sleeps_app tr1 tr2 : sleeps (tr1 ++ tr2) = (sleeps tr1 ++ sleeps tr2)%list.
Proof. apply omap_app. Qed.

Lemma chosen_app tr1 tr2 : chosen (tr1 ++ tr2) = (chosen tr1 ++ chosen tr2)%list.
Proof. apply omap_app. Qed.

Lemma sleeps_attempts protocol attempts :
  sleeps (concat (attemptEvents protocol <$> attempts)) = [].
Proof.
  induction attempts as [|[host pool|host pool ready] attempts IH]; cbn; [done|..];
    by rewrite ?sleeps_app.
Qed.

Lemma chosen_attempts protocol attempts :
  length (chosen (concat (attemptEvents protocol <$> attempts))) = length attempts.
Proof.
  induction attempts as [|[host pool|host pool ready] attempts IH]; cbn; [done|..];
    by rewrite <- IH.
Qed.

Lemma sleeps_failedPolls pools : sleeps (failedPolls pools) = [].
Proof. induction pools as [|pool pools IH]; [done|exact IH]. Qed.

Lemma chosen_failedPolls pools : chosen (failedPolls pools) = [].
Proof. induction pools as [|pool pools IH]; [done|exact IH]. Qed.

Lemma sleeps_failedStages pools ds :
  sleeps (concat (failedStage pools <$> ds)) = ds.
Proof.
  induction ds as [|d ds IH]; [done|]. cbn.
  by rewrite sleeps_app, sleeps_failedPolls, IH.
Qed.

Lemma chosen_failedStages pools ds :
  chosen (concat (failedStage pools <$> ds)) = [].
Proof.
  induction ds as [|d ds IH]; [done|]. cbn.
  by rewrite chosen_app, chosen_failedPolls, IH.
Qed.

Lemma ending_quiet protocol r last :
  ending protocol r last → sleeps last = [] ∧ length (chosen last) = 1.
Proof. by intros []. Qed.

Lemma waiting_sleeps ds pools r tr :
  waiting ds pools r tr →
  sleeps tr `prefix_of` ds
  ∧ chosen tr = []
  ∧ (r = inr ErrNoHealthHosts → sleeps tr = ds).
Proof.
  intros [j d polled pool rest Hj Hpools|].
  - rewrite sleeps_app, sleeps_failedStages. cbn.
    rewrite sleeps_app, sleeps_failedPolls. cbn.
    rewrite chosen_app, chosen_failedStages. cbn.
    rewrite chosen_app, chosen_failedPolls. cbn.
    split; [|done].
    exists (drop (S j) ds). rewrite <- app_assoc. cbn.
    rewrite <- (take_drop_middle ds j d Hj) at 1. done.
  - rewrite sleeps_failedStages, chosen_failedStages. done.
Qed.

(** A trace of the shape [selection] asks the load balancer at most
    [cycleTimes] times and sleeps a prefix of the schedule: nothing before
    the attempts are used up, and the whole schedule before the error
    [ErrNoHealthHosts]. *)
Lemma selection_bounds protocol r tr attempts :
  selection protocol r tr attempts →
  length (chosen tr) ≤ cycleTimes
  ∧ sleeps tr `prefix_of` schedule
  ∧ (sleeps tr ≠ [] → length attempts = cycleTimes)
  ∧ (r = inr ErrNoHealthHosts → sleeps tr = schedule).
Proof.
  intros [attempts' r' last Hlen Hend|attempts' r' tr' Hlen Hwait].
  - destruct (ending_quiet _ _ _ Hend) as [Hs Hc].
    rewrite sleeps_app, chosen_app, length_app, sleeps_attempts, chosen_attempts, Hs, Hc.
    cbn. split; [lia|]. split; [apply prefix_nil|]. split; [done|].
    intros ->. inversion Hend.
  - destruct (waiting_sleeps _ _ _ _ Hwait) as (Hpre & Hc & Hall).
    rewrite sleeps_app, chosen_app, length_app, sleeps_attempts, chosen_attempts, Hc.
    cbn. split; [lia|]. done.
Qed.

Section PoolSelectionShape.
Context {W : Type} (E : Env W).

(** The shape of every call of [getActiveConnectionPool] on a manager that
    has an address map for the protocol. *)
Lemma getActiveConnectionPool_shape
    (balancerContext : LoadBalancerContext) (clusterSnapshot : clusterSnapshot)
    (protocol : string) (m : machine W) (cp : gmap string ConnectionPool) :
  protocolConnPool (mgr m) !! protocol = Some cp →
  ∃ r m' tr attempts,
    getActiveConnectionPool E balancerContext clusterSnapshot protocol m = Ret (r, m')
    ∧ events m' = (events m ++ tr)%list
    ∧ selection protocol r tr attempts
    ∧ poolsKept (ConnNewPoolFactories E) protocol (mgr m) (mgr m') attempts.
Proof.
  intros Hcp. unfold getActiveConnectionPool.
  destruct (chooseLoop_cases E balancerContext clusterSnapshot protocol
              cycleTimes 0 [] m cp eq_refl Hcp)
    as [(attempts & m' & r & last & Hn & Hloop & Hend & Hev & Hkept)
       |(attempts & m' & Hn & Hloop & Hev & Hkept)];
    cbn [app] in Hloop; rewrite Hloop.
  - exists r, m', (concat (attemptEvents protocol <$> attempts) ++ last)%list, attempts.
    split; [done|]. split; [done|]. split; [by constructor|done].
  - destruct (waitLoop_cases E (DownstreamContext balancerContext)
                (attemptPool <$> attempts) 4 Millisecond m')
      as (r & m'' & tr & Hwait & Hshape & Hev' & Hmgr).
    rewrite Hwait.
    exists r, m'', (concat (attemptEvents protocol <$> attempts) ++ tr)%list, attempts.
    split; [done|]. split; [rewrite Hev', Hev; by rewrite <- app_assoc|].
    split; [by apply SelectWait|]. by rewrite Hmgr.
Qed.
End PoolSelectionShape.

Section PoolSelectionClaim.
Context {W : Type} (E : Env W).

(** C1 (amended).  Every call of [getActiveConnectionPool] on a manager
    that has an address map for the protocol returns, and its trace has
    the shape [selection]:
    - up to [cycleTimes = 5] host choices are made.  A turn ends the call
      at once when the load balancer returns no host (an error), when the
      chosen host has a pool and [CheckAndInit] on it says ready (that pool
      is returned), or when the host has no pool and no pool factory is
      registered for the protocol (an error);
    - otherwise the turn is an attempt whose pool is remembered: either an
      existing pool on which [CheckAndInit] said not ready, or a pool the
      protocol's factory creates while the manager's mutex is held, which
      is stored under the host's address and on which [CheckAndInit] is
      called, whatever it answers;
    - after 5 attempts the call sleeps 1 ms, 10 ms, 100 ms and 1000 ms in
      turn and polls the remembered pools in order after each sleep; it
      returns the first pool that says ready, and the error "no health
      hosts" when none did in any of the four stages.
    The pools of all attempts are in the protocol's address map
    afterwards, and nothing else in the manager has changed. *)
Theorem getActiveConnectionPool_selection
    (balancerContext : LoadBalancerContext) (clusterSnapshot : clusterSnapshot)
    (protocol : string) (m : machine W) (cp : gmap string ConnectionPool) :
  protocolConnPool (mgr m) !! protocol = Some cp →
  ∃ r m' tr attempts,
    getActiveConnectionPool E balancerContext clusterSnapshot protocol m = Ret (r, m')
    ∧ events m' = (events m ++ tr)%list
    ∧ selection protocol r tr attempts
    ∧ poolsKept (ConnNewPoolFactories E) protocol (mgr m) (mgr m') attempts
    ∧ length (chosen tr) ≤ cycleTimes
    ∧ sleeps tr `prefix_of` schedule
    ∧ (sleeps tr ≠ [] → length attempts = cycleTimes)
    ∧ (r = inr ErrNoHealthHosts → sleeps tr = schedule).
Proof.
  intros Hcp.
  destruct (getActiveConnectionPool_shape E balancerContext clusterSnapshot
              protocol m cp Hcp) as (r & m' & tr & attempts & Hcall & Hev & Hsel & Hkept).
  exists r, m', tr, attempts.
  split; [done|]. split; [done|]. split; [done|]. split; [done|].
  by eapply selection_bounds.
Qed.
End PoolSelectionClaim.

Lemma getActiveConnectionPool_selection_witness :
  ∃ m',
    getActiveConnectionPool (scripted exampleFactories) exampleLbCtx exampleSnapshot
      "Http1" (play (replicate 5 (Some hostA)) [] false cm0)
    = Ret (inr ErrNoHealthHosts, m')
    ∧ sleeps (events m') = schedule.
Proof.
  destruct (getActiveConnectionPool_selection (scripted exampleFactories)
              exampleLbCtx exampleSnapshot "Http1"
              (play (replicate 5 (Some hostA)) [] false cm0) ∅)
    as (r & m' & tr & attempts & Hcall & Hev & _ & _ & _ & _ & _ & Hall);
    [vm_compute; reflexivity|].
  assert (Hr : ∃ m0,
             getActiveConnectionPool (scripted exampleFactories) exampleLbCtx
               exampleSnapshot "Http1" (play (replicate 5 (Some hostA)) [] false cm0)
             = Ret (inr ErrNoHealthHosts, m0))
    by (eexists; vm_compute; reflexivity).
  destruct Hr as [m0 Hr]. rewrite Hr in Hcall. injection Hcall as <- <-.
  exists m0. split; [exact Hr|]. rewrite Hev. exact (Hall eq_refl).
Defined.

(** C1 as the claim words it fails in two ways.  When the load balancer has
    no host, the call returns an error at once, without any wait.  And a
    pool that is created and says ready at once is not returned: the loop
    goes on to the next choice, here to the error of a load balancer that
    has no host left. *)
Lemma getActiveConnectionPool_counterexample :
  (∃ m',
     getActiveConnectionPool (scripted exampleFactories) exampleLbCtx exampleSnapshot
       "Http1" (play [] [] false cm0)
     = Ret (inr ErrChooseHostNil, m')
     ∧ events m' = [EvChooseHost None])
  ∧ (∃ m',
       getActiveConnectionPool (scripted exampleFactories) exampleLbCtx exampleSnapshot
         "Http1" (play [Some hostA; None] [true] false cm0)
       = Ret (inr ErrChooseHostNil, m')
       ∧ events m'
         = [EvChooseHost (Some hostA);
            EvLoadPool "Http1" "a:8080" false;
            EvLock;
            EvLoadPool "Http1" "a:8080" false;
            EvStorePool "Http1" "a:8080" (mkPool "Http1" hostA);
            EvCheckAndInit (mkPool "Http1" hostA) true;
            EvUnlock;
            EvChooseHost None]).
Proof. split; eexists; split; vm_compute; reflexivity. Qed.

(** *** Cancellation *)

Section ColdPools.
Context {W : Type} (E : Env W).
Context (balancerContext : LoadBalancerContext)
        (clusterSnapshot : clusterSnapshot) (protocol : string)
        (factory : Host -> ConnectionPool).

(** [cold] holds of the worlds in which no pool says ready to the request's
    context; the collaborators keep it. *)
Context (cold : W → Prop).
Hypothesis Hfactory : ConnNewPoolFactories E !! protocol = Some factory.
Hypothesis Hhost : ∀ lb c w, is_Some (fst (ChooseHost E lb c w)).
Hypothesis Hchoose : ∀ lb c w, cold w → cold (snd (ChooseHost E lb c w)).
Hypothesis Hcold :
  ∀ pool w, cold w →
    fst (CheckAndInit E pool (DownstreamContext balancerContext) w) = false
    ∧ cold (snd (CheckAndInit E pool (DownstreamContext balancerContext) w)).
Hypothesis Hsleep : ∀ d w, cold w → cold (Sleep E d w).

Lemma doCheckAndInit_cold pool (m : machine W) :
  cold (world m) →
  ∃ m', doCheckAndInit E pool (DownstreamContext balancerContext) m = (false, m')
        ∧ sleeps (events m') = sleeps (events m)
        ∧ mgr m' = mgr m
        ∧ cold (world m').
Proof.
  intros Hw. unfold doCheckAndInit. destruct (Hcold pool (world m) Hw) as [Hc Hw'].
  destruct (CheckAndInit E pool (DownstreamContext balancerContext) (world m))
    as [b w]. cbn in Hc, Hw'. subst b.
  eexists. split; [reflexivity|]. cbn.
  split; [by rewrite sleeps_app, app_nil_r|done].
Qed.

Lemma chooseTurn_cold i pools (m : machine W) cp :
  protocolConnPool (mgr m) !! protocol = Some cp →
  cold (world m) →
  ∃ pools' m' cp',
    chooseTurn E balancerContext clusterSnapshot protocol i pools m
    = Continue pools' m'
    ∧ sleeps (events m') = sleeps (events m)
    ∧ protocolConnPool (mgr m') !! protocol = Some cp'
    ∧ cold (world m').
Proof.
  intros Hcp Hw. unfold chooseTurn, doChooseHost.
  pose proof (Hhost (loadbalancer clusterSnapshot) balancerContext (world m)) as Hh.
  pose proof (Hchoose (loadbalancer clusterSnapshot) balancerContext (world m) Hw)
    as Hw1.
  destruct (ChooseHost E (loadbalancer clusterSnapshot) balancerContext (world m))
    as [[host|] w]; cbn in *; [|by destruct Hh].
  rewrite Hcp. unfold loadPool; cbn. rewrite ?Hcp; cbn.
  destruct (cp !! AddressString host) as [pool|] eqn:Hpool.
  - match goal with
    | |- context [doCheckAndInit E ?p _ ?m0] =>
        destruct (doCheckAndInit_cold p m0 Hw1) as (m' & -> & Hs & Hmgr & Hw')
    end.
    cbn in Hs, Hmgr. eexists _, m', cp. split; [reflexivity|].
    split; [|split; [by rewrite Hmgr|done]].
    rewrite Hs, !sleeps_app. cbn. by rewrite !app_nil_r.
  - rewrite ?Hcp; cbn. rewrite ?Hpool; cbn. rewrite Hfactory.
    match goal with
    | |- context [doCheckAndInit E ?p _ ?m0] =>
        destruct (doCheckAndInit_cold p m0 Hw1) as (m' & -> & Hs & Hmgr & Hw')
    end.
    cbn in Hs, Hmgr. eexists _, _, _. split; [reflexivity|]. cbn.
    split; [|split; [|done]].
    + rewrite sleeps_app, Hs, !sleeps_app. cbn. by rewrite !app_nil_r.
    + rewrite Hmgr. cbn. by rewrite lookup_alter_eq, Hcp.
Qed.

Lemma chooseLoop_cold n :
  ∀ i pools (m : machine W) cp,
    protocolConnPool (mgr m) !! protocol = Some cp →
    cold (world m) →
    ∃ pools' m',
      chooseLoop E balancerContext clusterSnapshot protocol n i pools m
      = Continue pools' m'
      ∧ sleeps (events m') = sleeps (events m)
      ∧ cold (world m').
Proof.
  induction n as [|n IH]; intros i pools m cp Hcp Hw; cbn [chooseLoop].
  - by exists pools, m.
  - destruct (chooseTurn_cold i pools m cp Hcp Hw)
      as (pools' & m' & cp' & -> & Hs & Hcp' & Hw').
    destruct (IH (S i) pools' m' cp' Hcp' Hw') as (pools'' & m'' & -> & Hs' & Hw'').
    exists pools'', m''. split; [done|]. split; [congruence|done].
Qed.

Lemma pollPools_cold pools :
  ∀ m : machine W,
    cold (world m) →
    ∃ m', pollPools E (DownstreamContext balancerContext) pools m = (None, m')
          ∧ sleeps (events m') = sleeps (events m)
          ∧ cold (world m').
Proof.
  induction pools as [|[pool|] pools IH]; intros m Hw; cbn.
  - by exists m.
  - destruct (doCheckAndInit_cold pool m Hw) as (m' & -> & Hs & _ & Hw').
    destruct (IH m' Hw') as (m'' & -> & Hs' & Hw'').
    exists m''. split; [done|]. split; [congruence|done].
  - by apply IH.
Qed.

(** The second loop with [n] stages left, entered in a cold world: it
    sleeps through all of them. *)
Lemma waitLoop_cold pools n :
  ∀ waitTime (m : machine W),
    cold (world m) →
    ∃ m', waitLoop E (DownstreamContext balancerContext) pools n waitTime m
          = (inr ErrNoHealthHosts, m')
          ∧ sleeps (events m') = (sleeps (events m) ++ stagesFrom waitTime n)%list
          ∧ cold (world m').
Proof.
  induction n as [|n IH]; intros waitTime m Hw; cbn [waitLoop stagesFrom].
  - exists m. by rewrite app_nil_r.
  - destruct (pollPools_cold pools (doSleep E waitTime m)) as (m' & -> & Hs & Hw').
    { cbn. by apply Hsleep. }
    destruct (IH (waitTime * 10)%Z m' Hw') as (m'' & -> & Hs' & Hw'').
    exists m''. split; [done|]. split; [|done]. rewrite Hs', Hs. cbn.
    by rewrite sleeps_app, <- app_assoc.
Qed.

(** While the load balancer has hosts and no pool gets ready, a call runs
    the whole schedule and ends in [ErrNoHealthHosts]. *)
Lemma getActiveConnectionPool_cold (m : machine W) cp :
  protocolConnPool (mgr m) !! protocol = Some cp →
  cold (world m) →
  ∃ m',
    getActiveConnectionPool E balancerContext clusterSnapshot protocol m
    = Ret (inr ErrNoHealthHosts, m')
    ∧ sleeps (events m') = (sleeps (events m) ++ schedule)%list
    ∧ cold (world m').
Proof.
  intros Hcp Hw. unfold getActiveConnectionPool.
  destruct (chooseLoop_cold cycleTimes 0 (replicate cycleTimes None) m cp Hcp Hw)
    as (pools & m' & -> & Hs & Hw').
  destruct (waitLoop_cold pools 4 Millisecond m' Hw') as (m'' & -> & Hs' & Hw'').
  exists m''. split; [done|]. split; [by rewrite Hs', Hs|done].
Qed.
End ColdPools.

(** The errors of a call that returns. *)
Lemma getActiveConnectionPool_errors {W} (E : Env W)
    balancerContext clusterSnapshot protocol (m m' : machine W) e :
  getActiveConnectionPool E balancerContext clusterSnapshot protocol m
  = Ret (inr e, m') →
  e = ErrChooseHostNil ∨ e = ErrNewPoolFactoryNil protocol ∨ e = ErrNoHealthHosts.
Proof.
  intros Hcall.
  destruct (protocolConnPool (mgr m) !! protocol) as [cp|] eqn:Hcp.
  - destruct (getActiveConnectionPool_shape E balancerContext clusterSnapshot
                protocol m cp Hcp) as (r & m0 & tr & attempts & Hcall0 & _ & Hsel & _).
    rewrite Hcall0 in Hcall. injection Hcall as -> ->.
    inversion Hsel as [attempts' r' last _ Hend|attempts' r' tr' _ Hwait]; subst.
    + inversion Hend; subst; [by left|by right; left].
    + inversion Hwait; subst. by right; right.
  - revert Hcall. unfold getActiveConnectionPool, cycleTimes.
    cbn [chooseLoop]. unfold chooseTurn, doChooseHost.
    destruct (ChooseHost E (loadbalancer clusterSnapshot) balancerContext (world m))
      as [[host|] w]; cbn.
    + by rewrite Hcp.
    + intros [= <- <-]. by left.
Qed.

Section Cancellation.
Context {W : Type} (E : Env W).

(** C6 (amended).  [getActiveConnectionPool] has no cancellation check.
    Whatever the state of the request's context, the only errors it
    returns are "ChooseHost is nil", "NewPoolFactory is nil" and "no health
    hosts": there is no cancellation error.  A cancelled context does not
    end the retry either.  When the context is cancelled and stays so, the
    pools honour it by not saying ready, and the load balancer keeps
    choosing hosts, a call still sleeps the whole schedule of 1 ms, 10 ms,
    100 ms and 1000 ms and returns the error "no health hosts"; and the
    second loop, entered with any number of stages left in a state in which
    the context is cancelled, sleeps through all the stages that are left
    before it returns that error. *)
Theorem getActiveConnectionPool_ignores_cancellation
    (balancerContext : LoadBalancerContext) (clusterSnapshot : clusterSnapshot)
    (protocol : string) (m : machine W) :
  (∀ e m',
     getActiveConnectionPool E balancerContext clusterSnapshot protocol m
     = Ret (inr e, m') →
     e = ErrChooseHostNil ∨ e = ErrNewPoolFactoryNil protocol ∨ e = ErrNoHealthHosts)
  ∧ ((∀ pool w,
        Done E (DownstreamContext balancerContext) w = true →
        fst (CheckAndInit E pool (DownstreamContext balancerContext) w) = false) →
     (∀ w, Done E (DownstreamContext balancerContext) w = true →
        (∀ lb c, Done E (DownstreamContext balancerContext)
                   (snd (ChooseHost E lb c w)) = true)
        ∧ (∀ pool c, Done E (DownstreamContext balancerContext)
                       (snd (CheckAndInit E pool c w)) = true)
        ∧ (∀ d, Done E (DownstreamContext balancerContext) (Sleep E d w) = true)) →
     Done E (DownstreamContext balancerContext) (world m) = true →
     (∀ cp factory,
        protocolConnPool (mgr m) !! protocol = Some cp →
        ConnNewPoolFactories E !! protocol = Some factory →
        (∀ lb c w, is_Some (fst (ChooseHost E lb c w))) →
        ∃ m',
          getActiveConnectionPool E balancerContext clusterSnapshot protocol m
          = Ret (inr ErrNoHealthHosts, m')
          ∧ sleeps (events m') = (sleeps (events m) ++ schedule)%list
          ∧ Done E (DownstreamContext balancerContext) (world m') = true)
     ∧ (∀ pools n waitTime,
          ∃ m',
            waitLoop E (DownstreamContext balancerContext) pools n waitTime m
            = (inr ErrNoHealthHosts, m')
            ∧ sleeps (events m')
              = (sleeps (events m) ++ stagesFrom waitTime n)%list
            ∧ Done E (DownstreamContext balancerContext) (world m') = true)).
Proof.
  split; [intros e m'; apply getActiveConnectionPool_errors|].
  intros Hhonour Hstays Hnow.
  set (cancelled := λ w, Done E (DownstreamContext balancerContext) w = true).
  assert (Hcold : ∀ pool w, cancelled w →
            fst (CheckAndInit E pool (DownstreamContext balancerContext) w) = false
            ∧ cancelled (snd (CheckAndInit E pool
                                (DownstreamContext balancerContext) w))).
  { intros pool w Hw. split; [by apply Hhonour|]. by apply (Hstays w Hw). }
  assert (Hsleep : ∀ d w, cancelled w → cancelled (Sleep E d w)).
  { intros d w Hw. by apply (Hstays w Hw). }
  split.
  - intros cp factory Hcp Hfactory Hhost.
    apply (getActiveConnectionPool_cold E balancerContext clusterSnapshot protocol
             factory cancelled Hfactory Hhost) with (cp := cp); [|done..].
    intros lb c w Hw. by apply (Hstays w Hw).
  - intros pools n waitTime.
    by apply (waitLoop_cold E balancerContext cancelled Hcold Hsleep).
Qed.
End Cancellation.

Lemma getActiveConnectionPool_ignores_cancellation_witness :
  ∃ m',
    getActiveConnectionPool (steady hostA exampleFactories)
      exampleLbCtx exampleSnapshot "Http1" (mkMachine cm0 0%Z [])
    = Ret (inr ErrNoHealthHosts, m')
    ∧ sleeps (events m') = schedule
    ∧ Done (steady hostA exampleFactories) (DownstreamContext exampleLbCtx) (world m')
      = true.
Proof.
  destruct (getActiveConnectionPool_ignores_cancellation
              (steady hostA exampleFactories) exampleLbCtx exampleSnapshot "Http1"
              (mkMachine cm0 0%Z [])) as [_ Hcancelled].
  destruct Hcancelled as [Hcall _].
  - intros pool w _. reflexivity.
  - intros w _. split; [|split]; intros; reflexivity.
  - reflexivity.
  - apply (Hcall ∅ (mkPool "Http1")).
    + vm_compute. reflexivity.
    + vm_compute. reflexivity.
    + intros lb c w. cbn. eexists. reflexivity.
Defined.

(** C6 as the claim words it fails: the context is cancelled before the call
    and stays so, the chosen host's pool never gets ready, and the call
    still sleeps the whole schedule (1111 ms on the clock) and returns the
    error "no health hosts". *)
Lemma getActiveConnectionPool_cancelled_counterexample :
  Done (scripted exampleFactories) (DownstreamContext exampleLbCtx)
    (world (play (replicate 5 (Some hostA)) [] true cm0)) = true
  ∧ ∃ m',
      getActiveConnectionPool (scripted exampleFactories) exampleLbCtx exampleSnapshot
        "Http1" (play (replicate 5 (Some hostA)) [] true cm0)
      = Ret (inr ErrNoHealthHosts, m')
      ∧ Done (scripted exampleFactories) (DownstreamContext exampleLbCtx) (world m')
        = true
      ∧ sleeps (events m') = schedule
      ∧ clock (world m') = (1111 * Millisecond)%Z.
Proof.
  split; [reflexivity|]. eexists. split; [vm_compute; reflexivity|].
  repeat split; vm_compute; reflexivity.
Qed.


(** ** Well-formedness is an invariant *)

Lemma validRefs_kept objs objs' cells cells' pc :
  objsKept objs objs' → cellsKept cells cells' →
  validRefs objs cells pc → validRefs objs' cells' pc.
Proof.
  intros Hobjs Hcells [Hobj (v & Hv & Hcur)]. split; [by apply Hobjs|].
  by apply (Hcells _ v).
Qed.

Lemma objsKept_refl objs : objsKept objs objs.
Proof. by intros r Hr. Qed.

Lemma cellsKept_refl cells : cellsKept cells cells.
Proof. intros l v Hl Hv. by exists v. Qed.

Lemma objsKept_insert objs r c : objsKept objs (<[r := c]> objs).
Proof.
  intros r' Hr'. destruct (decide (r = r')) as [->|Hne].
  - rewrite lookup_insert_eq. by eexists.
  - by rewrite lookup_insert_ne.
Qed.

Lemma cellsKept_insert cells l v :
  is_Some (rcu.elements v !! rcu.current v) → cellsKept cells (<[l := v]> cells).
Proof.
  intros Hv l' v' Hl' Hv'. destruct (decide (l = l')) as [->|Hne].
  - exists v. by rewrite lookup_insert_eq.
  - exists v'. by rewrite lookup_insert_ne.
Qed.

Lemma rcu_Update_live {A} (a : A) wait (v : rcu.Value A) :
  is_Some (rcu.elements (snd (rcu.Update a wait v))
             !! rcu.current (snd (rcu.Update a wait v))).
Proof.
  destruct (rcu_Update_current a wait v) as [_ Hcur].
  destruct (rcu.elements _ !! _); [by eexists|discriminate].
Qed.

Lemma wellFormed_empty addr protocols : wellFormed (emptyManager addr protocols).
Proof. apply map_Forall_empty. Qed.

Lemma wellFormed_update cm cm' :
  objsKept (clusterObjs cm) (clusterObjs cm') →
  cellsKept (rcuObjs cm) (rcuObjs cm') →
  (∀ name pc', primaryClusters cm' !! name = Some pc' →
     primaryClusters cm !! name = Some pc'
     ∨ validRefs (clusterObjs cm') (rcuObjs cm') pc') →
  wellFormed cm → wellFormed cm'.
Proof.
  intros Hobjs Hcells Hpcs Hwf name pc' Hpc'.
  destruct (Hpcs name pc' Hpc') as [Hold|Hnew]; [|done].
  eapply validRefs_kept; [done..|]. by apply (Hwf name).
Qed.

Lemma RemovePrimaryCluster_wellFormed clusterNames cm :
  wellFormed cm → wellFormed (snd (RemovePrimaryCluster clusterNames cm)).
Proof.
  destruct (RemovePrimaryCluster clusterNames cm) as [err cm'] eqn:Hrun.
  destruct (RemovePrimaryCluster_inv _ _ _ _ Hrun) as (removed & Hlook & _ & Hframe & _).
  cbn. intros Hwf. rewrite Hframe.
  apply (wellFormed_update cm);
    [apply objsKept_refl | apply cellsKept_refl | | done].
  intros name pc'. cbn. rewrite Hlook. case_decide; [done|]. by left.
Qed.

Lemma GetClusterSnapshot_wellFormed clusterName cm :
  wellFormed cm →
  ∃ s cm', GetClusterSnapshot clusterName cm = Ret (s, cm') ∧ wellFormed cm'.
Proof.
  intros Hwf. unfold GetClusterSnapshot.
  destruct (primaryClusters cm !! clusterName) as [pc|] eqn:Hpc; [|by eexists _, _].
  destruct (Hwf _ _ Hpc) as [[pcc Hobj] (v & Hcell & He)].
  rewrite Hobj, Hcell. cbn. eexists _, _. split; [reflexivity|].
  apply (wellFormed_update cm); cbn; [apply objsKept_refl| |by left|done].
  apply cellsKept_insert. cbn. rewrite lookup_alter_eq.
  destruct He as [e ->]. by eexists.
Qed.

Lemma PutClusterSnapshot_wellFormed snapshot cm cm' :
  wellFormed cm → PutClusterSnapshot snapshot cm = Ret cm' → wellFormed cm'.
Proof.
  intros Hwf. unfold PutClusterSnapshot.
  destruct snapshot as [[s|info]|]; [|by intros [= <-]..].
  destruct (rcuObjs cm !! value s) as [v|] eqn:Hv; [|done]. intros [= <-].
  apply (wellFormed_update cm); cbn; [apply objsKept_refl| |by left|done].
  intros l v' Hl Hv'. destruct (decide (value s = l)) as [<-|Hne].
  - rewrite lookup_insert_eq. eexists. split; [done|]. cbn.
    assert (v' = v) as -> by congruence.
    destruct Hv' as [e He].
    destruct (decide (config s = rcu.current v)) as [->|Hne].
    + rewrite lookup_alter_eq, He. by eexists.
    + rewrite lookup_alter_ne by done. by eexists.
  - exists v'. by rewrite lookup_insert_ne.
Qed.

Lemma applyUpdateHosts_wellFormed clusterName pc hosts blockedErr cm :
  primaryClusters cm !! clusterName = Some pc →
  wellFormed cm →
  ∃ err cm',
    applyUpdateHosts clusterName pc hosts blockedErr cm = Ret (err, cm')
    ∧ wellFormed cm'.
Proof.
  intros Hpc Hwf. destruct (Hwf _ _ Hpc) as [[pcc Hobj] (v & Hcell & He)].
  unfold applyUpdateHosts, UpdateHosts. rewrite Hobj.
  destruct pcc as [c|info ps]; cbn; rewrite Hcell;
    destruct (rcu.Update _ 0 v) as [blocked v'] eqn:Hup; cbn;
    (eexists _, _; split; [reflexivity|]);
    pose proof (rcu_Update_live
                  (withHosts (Config <$> hosts) (deepCopyCluster (configUsed pc))) 0 v)
      as Hlive;
    (apply (wellFormed_update cm); cbn;
     [first [apply objsKept_insert | apply objsKept_refl]
     | apply cellsKept_insert; cbn in *; by rewrite Hup in Hlive
     | | done]).
  all: intros name pc'; destruct (decide (clusterName = name)) as [<-|Hne];
    [rewrite lookup_insert_eq; intros [= <-]; right
    |rewrite lookup_insert_ne by done; by left].
  all: split; cbn;
    [try (rewrite lookup_insert_eq; by eexists); by eexists
    |eexists; split; [apply lookup_insert_eq|cbn in *; by rewrite Hup in Hlive]].
Qed.

Lemma UpdateClusterHosts_wellFormed clusterName priority hostConfigs cm :
  wellFormed cm →
  ∃ err cm',
    UpdateClusterHosts clusterName priority hostConfigs cm = Ret (err, cm')
    ∧ wellFormed cm'.
Proof.
  intros Hwf. unfold UpdateClusterHosts.
  destruct (primaryClusters cm !! clusterName) as [pc|] eqn:Hpc; [|by eexists _, _].
  destruct (Hwf _ _ Hpc) as [[pcc Hobj] _]. rewrite Hobj.
  by apply applyUpdateHosts_wellFormed.
Qed.

Lemma AppendClusterHosts_wellFormed clusterName priority hostConfigs cm :
  wellFormed cm →
  ∃ err cm',
    AppendClusterHosts clusterName priority hostConfigs cm = Ret (err, cm')
    ∧ wellFormed cm'.
Proof.
  intros Hwf. unfold AppendClusterHosts.
  destruct (primaryClusters cm !! clusterName) as [pc|] eqn:Hpc; [|by eexists _, _].
  destruct (Hwf _ _ Hpc) as [[pcc Hobj] _]. rewrite Hobj.
  by apply applyUpdateHosts_wellFormed.
Qed.

Lemma RemoveClusterHost_wellFormed clusterName hostAddress cm :
  wellFormed cm →
  ∃ err cm',
    RemoveClusterHost clusterName hostAddress cm = Ret (err, cm')
    ∧ wellFormed cm'.
Proof.
  intros Hwf. unfold RemoveClusterHost.
  case_decide; [by eexists _, _|].
  destruct (primaryClusters cm !! clusterName) as [pc|] eqn:Hpc; [|by eexists _, _].
  destruct (Hwf _ _ Hpc) as [[pcc Hobj] _]. rewrite Hobj.
  destruct pcc as [c|info ps]; [|by eexists _, _].
  destruct (findHost hostAddress (sc_hosts c) 0); [|by eexists _, _].
  by apply applyUpdateHosts_wellFormed.
Qed.

Lemma AddOrUpdatePrimaryCluster_wellFormed F cfg cm ok cm' :
  wellFormed cm →
  AddOrUpdatePrimaryCluster F cfg cm = Ret (ok, cm') →
  wellFormed cm'.
Proof.
  intros Hwf. unfold AddOrUpdatePrimaryCluster.
  destruct (primaryClusters cm !! Name cfg) as [pc|] eqn:Hpc.
  - destruct (addedViaAPI pc); cbn; [|by intros [= <- <-]].
    unfold updateCluster. case_decide; [by intros [= <- <-]|].
    destruct (Hwf _ _ Hpc) as [[pcc Hobj] (v & Hcell & He)]. rewrite Hobj.
    destruct pcc as [c|info ps]; [|by intros [= <- <-]].
    destruct (NewCluster F cfg (sourceAddr cm) true) as [[nc|]|]; [|done..].
    unfold UpdateCluster. cbn. rewrite Hcell.
    destruct (rcu.Update _ 0 v) as [blocked v'] eqn:Hup. cbn. intros [= <- <-].
    pose proof (rcu_Update_live (deepCopyCluster cfg) 0 v) as Hlive.
    rewrite Hup in Hlive. cbn in Hlive.
    apply (wellFormed_update cm); cbn;
      [apply objsKept_insert | by apply cellsKept_insert | | done].
    intros name pc'. destruct (decide (Name cfg = name)) as [<-|Hne].
    + rewrite lookup_insert_eq. intros [= <-]. right. split; cbn.
      * rewrite lookup_insert_eq. by eexists.
      * exists v'. by rewrite lookup_insert_eq.
    + rewrite lookup_insert_ne by done. by left.
  - unfold loadCluster.
    destruct (NewCluster F cfg (sourceAddr cm) true) as [c|]; [|by intros [= <- <-]].
    cbn. intros [= <- <-].
    apply (wellFormed_update cm); cbn; [apply objsKept_insert| | |done].
    + intros l v Hl Hv. exists v. split; [|done].
      rewrite lookup_insert_ne; [done|]. intros <-.
      by rewrite fresh_lookup_None in Hl.
    + intros name pc'. destruct (decide (Name cfg = name)) as [<-|Hne].
      * rewrite lookup_insert_eq. intros [= <-]. right. split; cbn.
        -- rewrite lookup_insert_eq. by eexists.
        -- eexists. rewrite lookup_insert_eq. split; [done|]. cbn.
           rewrite lookup_singleton_eq. by eexists.
      * rewrite lookup_insert_ne by done. by left.
Qed.

(** On a manager that has no address map for the protocol the call panics
    as soon as the load balancer has chosen a host. *)
Lemma getActiveConnectionPool_unknown_protocol {W} (E : Env W)
    balancerContext clusterSnapshot protocol (m : machine W) host :
  protocolConnPool (mgr m) !! protocol = None →
  fst (ChooseHost E (loadbalancer clusterSnapshot) balancerContext (world m))
  = Some host →
  getActiveConnectionPool E balancerContext clusterSnapshot protocol m = Panic.
Proof.
  intros Hnone Hhost. unfold getActiveConnectionPool, cycleTimes.
  cbn [chooseLoop]. unfold chooseTurn, doChooseHost.
  destruct (ChooseHost E (loadbalancer clusterSnapshot) balancerContext (world m))
    as [h w]. cbn in Hhost. subst h. cbn. by rewrite Hnone.
Qed.


(** * Further properties of the manager *)

(** ** What a call of [AddOrUpdatePrimaryCluster] can have done *)

(** A returned call either returned false and changed nothing, or returned
    true and left the cluster registered under its name, flagged as added
    via the API, with the given configuration; the pool cache and the source
    address are never touched. *)
Lemma AddOrUpdatePrimaryCluster_inv F cfg cm ok cm' :
  AddOrUpdatePrimaryCluster F cfg cm = Ret (ok, cm') →
  (ok = false ∧ cm' = cm)
  ∨ (ok = true
     ∧ ∃ pc,
         primaryClusters cm' = <[Name cfg := pc]> (primaryClusters cm)
         ∧ addedViaAPI pc = true
         ∧ configUsed pc = cfg
         ∧ protocolConnPool cm' = protocolConnPool cm
         ∧ sourceAddr cm' = sourceAddr cm).
Proof.
  unfold AddOrUpdatePrimaryCluster.
  destruct (primaryClusters cm !! Name cfg) as [pc|] eqn:Hpc.
  - destruct (addedViaAPI pc) eqn:Hapi; cbn; [|intros [= <- <-]; by left].
    unfold updateCluster. case_decide as Hsame.
    { intros [= <- <-]. right. split; [done|]. exists pc.
      by rewrite insert_id. }
    destruct (clusterObjs cm !! pc_cluster pc) as [[old|info ps]|]; [| |done].
    + destruct (NewCluster F cfg (sourceAddr cm) true) as [[nc|]|]; [|done..].
      unfold UpdateCluster. cbn.
      destruct (rcuObjs cm !! configLock pc) as [v|]; [|done].
      destruct (rcu.Update _ 0 v) as [blocked v']. cbn.
      intros [= <- <-]. right. split; [done|]. eexists. cbn. done.
    + intros [= <- <-]. by left.
  - unfold loadCluster.
    destruct (NewCluster F cfg (sourceAddr cm) true) as [c|]; cbn.
    + intros [= <- <-]. right. split; [done|]. eexists. cbn. done.
    + intros [= <- <-]. by left.
Qed.

(** X1.  When [AddOrUpdatePrimaryCluster] returns true, the cluster is
    registered under the configuration's name afterwards, flagged as added
    via the API and with exactly the given configuration stored; when it
    returns false, the manager is unchanged.  No other cluster's
    registration, and never the pool cache, is touched. *)
Theorem AddOrUpdatePrimaryCluster_true_iff_registered
    (F : Factory) (cfg : v2Cluster) (cm cm' : clusterManager) (ok : bool) :
  AddOrUpdatePrimaryCluster F cfg cm = Ret (ok, cm') →
  (ok = true →
     ∃ pc, primaryClusters cm' !! Name cfg = Some pc
           ∧ addedViaAPI pc = true ∧ configUsed pc = cfg)
  ∧ (ok = false → cm' = cm)
  ∧ (∀ n, n ≠ Name cfg → primaryClusters cm' !! n = primaryClusters cm !! n)
  ∧ protocolConnPool cm' = protocolConnPool cm.
Proof.
  intros Hcall.
  destruct (AddOrUpdatePrimaryCluster_inv _ _ _ _ _ Hcall)
    as [[-> ->]|(-> & pc & Hreg & Hapi & Hcfg & Hpools & _)].
  - split; [done|]. done.
  - split; [|split; [done|split; [|done]]].
    + intros _. exists pc. rewrite Hreg. by rewrite lookup_insert_eq.
    + intros n Hn. rewrite Hreg. by rewrite lookup_insert_ne.
Qed.

Lemma AddOrUpdatePrimaryCluster_true_iff_registered_witness :
  ∃ pc, primaryClusters cm1 !! "c1" = Some pc
        ∧ addedViaAPI pc = true
        ∧ configUsed pc = exampleCluster "c1" "SIMPLE".
Proof.
  refine (proj1 (AddOrUpdatePrimaryCluster_true_iff_registered simpleFactory
                   (exampleCluster "c1" "SIMPLE") cm0 cm1 true _) eq_refl).
  vm_compute. reflexivity.
Defined.

(** X2.  A successful [AddOrUpdatePrimaryCluster] is idempotent: repeating
    the call with the same configuration returns true again and changes
    nothing. *)
Theorem AddOrUpdatePrimaryCluster_idempotent
    (F : Factory) (cfg : v2Cluster) (cm cm' : clusterManager) :
  AddOrUpdatePrimaryCluster F cfg cm = Ret (true, cm') →
  AddOrUpdatePrimaryCluster F cfg cm' = Ret (true, cm').
Proof.
  intros Hcall.
  destruct (AddOrUpdatePrimaryCluster_inv _ _ _ _ _ Hcall)
    as [[[=] _]|(_ & pc & Hreg & Hapi & Hcfg & _)].
  unfold AddOrUpdatePrimaryCluster. rewrite Hreg, lookup_insert_eq, Hapi. cbn.
  unfold updateCluster. by rewrite decide_True.
Qed.

Lemma AddOrUpdatePrimaryCluster_idempotent_witness :
  AddOrUpdatePrimaryCluster simpleFactory (exampleCluster "c1" "SIMPLE") cm1
  = Ret (true, cm1).
Proof.
  apply (AddOrUpdatePrimaryCluster_idempotent simpleFactory
           (exampleCluster "c1" "SIMPLE") cm0 cm1).
  vm_compute. reflexivity.
Defined.

(** X3.  Updating a registered API-added in-memory cluster with a changed
    configuration builds a new cluster object and carries the hosts over:
    the call returns true (whatever the RCU update signals), the cluster
    keeps its RCU cell and stores the new configuration, its hosts and its
    host set at priority 0 are the old hosts, and the old cluster object
    stays as it was for the snapshots that still refer to it. *)
Theorem AddOrUpdatePrimaryCluster_update_keeps_hosts
    (F : Factory) (cfg : v2Cluster) (cm : clusterManager) (pc : primaryCluster)
    (old nc : simpleInMemCluster) (v : rcu.Value v2Cluster) :
  primaryClusters cm !! Name cfg = Some pc →
  addedViaAPI pc = true →
  cfg ≠ configUsed pc →
  clusterObjs cm !! pc_cluster pc = Some (SimpleInMem old) →
  NewCluster F cfg (sourceAddr cm) true = Some (SimpleInMem nc) →
  rcuObjs cm !! configLock pc = Some v →
  ∃ cm' pc',
    AddOrUpdatePrimaryCluster F cfg cm = Ret (true, cm')
    ∧ primaryClusters cm' !! Name cfg = Some pc'
    ∧ configUsed pc' = cfg
    ∧ configLock pc' = configLock pc
    ∧ pc_cluster pc' ≠ pc_cluster pc
    ∧ clusterHosts (Name cfg) cm' = Some (sc_hosts old)
    ∧ snapshotHosts (Name cfg) 0 cm' = Some (sc_hosts old)
    ∧ clusterObjs cm' !! pc_cluster pc = Some (SimpleInMem old).
Proof.
  intros Hpc Hapi Hdiff Hobj Hnew Hcell.
  assert (Hfresh : fresh (dom (clusterObjs cm)) ≠ pc_cluster pc).
  { intros Heq. pose proof (fresh_lookup_None (clusterObjs cm)) as Hnone.
    rewrite Heq, Hobj in Hnone. discriminate. }
  unfold AddOrUpdatePrimaryCluster. rewrite Hpc, Hapi. cbn.
  unfold updateCluster. rewrite decide_False by done. rewrite Hobj, Hnew.
  unfold UpdateCluster. cbn. rewrite Hcell.
  destruct (rcu.Update _ 0 v) as [blocked v'] eqn:Hup. cbn.
  eexists _, _. split; [reflexivity|]. cbn.
  split; [apply lookup_insert_eq|]. split; [done|]. split; [done|].
  split; [done|].
  assert (Hnewobj : ∀ objs : gmap ref Cluster,
             <[fresh (dom (clusterObjs cm)) :=
                 SimpleInMem (simpleInMemCluster_UpdateHosts (sc_hosts old) nc)]> objs
             !! fresh (dom (clusterObjs cm))
             = Some (SimpleInMem (simpleInMemCluster_UpdateHosts (sc_hosts old) nc)))
    by (intros; apply lookup_insert_eq).
  split; [|split].
  - unfold clusterHosts. cbn. rewrite lookup_insert_eq. cbn.
    by rewrite Hnewobj.
  - erewrite snapshotHosts_registered; cbn;
      [| apply lookup_insert_eq | apply Hnewobj | apply lookup_insert_eq ].
    cbn. by rewrite GetOrCreateHostSet_zero_lookup.
  - by rewrite lookup_insert_ne.
Qed.

Lemma AddOrUpdatePrimaryCluster_update_keeps_hosts_witness :
  ∃ cm',
    AddOrUpdatePrimaryCluster simpleFactory (exampleCluster "c1" "EDS") cm2
    = Ret (true, cm')
    ∧ (fmap (M := list) AddressString <$> clusterHosts "c1" cm')
      = Some ["a:8080"; "b:8080"].
Proof.
  edestruct (AddOrUpdatePrimaryCluster_update_keeps_hosts simpleFactory
               (exampleCluster "c1" "EDS") cm2)
    as (cm' & pc' & Hcall & _ & _ & _ & _ & Hhosts & _);
    [ vm_compute; reflexivity | reflexivity | vm_compute; discriminate
    | vm_compute; reflexivity | vm_compute; reflexivity | vm_compute; reflexivity | ].
  exists cm'. split; [exact Hcall|].
  cbn in Hhosts. rewrite Hhosts. reflexivity.
Defined.

(** X4.  The update path has no guard of the kind [loadCluster] has: when a
    registered API-added in-memory cluster is given a changed configuration
    for which [NewCluster] builds no in-memory cluster (nil, or another
    implementation), the type assertion on the new cluster panics. *)
Theorem AddOrUpdatePrimaryCluster_update_panics
    (F : Factory) (cfg : v2Cluster) (cm : clusterManager) (pc : primaryCluster)
    (old : simpleInMemCluster) :
  primaryClusters cm !! Name cfg = Some pc →
  addedViaAPI pc = true →
  cfg ≠ configUsed pc →
  clusterObjs cm !! pc_cluster pc = Some (SimpleInMem old) →
  (∀ nc, NewCluster F cfg (sourceAddr cm) true ≠ Some (SimpleInMem nc)) →
  AddOrUpdatePrimaryCluster F cfg cm = Panic.
Proof.
  intros Hpc Hapi Hdiff Hobj Hnone.
  unfold AddOrUpdatePrimaryCluster. rewrite Hpc, Hapi. cbn.
  unfold updateCluster. rewrite decide_False by done. rewrite Hobj.
  destruct (NewCluster F cfg (sourceAddr cm) true) as [[nc|info ps]|] eqn:Hnew;
    [|done..].
  by destruct (Hnone nc).
Qed.

Lemma AddOrUpdatePrimaryCluster_update_panics_witness :
  AddOrUpdatePrimaryCluster simpleFactory (exampleCluster "c1" "UNKNOWN") cm2 = Panic.
Proof.
  eapply (AddOrUpdatePrimaryCluster_update_panics simpleFactory
            (exampleCluster "c1" "UNKNOWN") cm2).
  - vm_compute. reflexivity.
  - reflexivity.
  - vm_compute. discriminate.
  - vm_compute. reflexivity.
  - intros nc. vm_compute. discriminate.
Defined.

(** X5.  Adding a cluster under a name that is not registered and removing
    it again gives the registry of clusters back as it was: the cluster
    exists in between, and afterwards it does not exist and has no
    snapshot. *)
Theorem add_then_remove_cluster
    (F : Factory) (cfg : v2Cluster) (cm : clusterManager) (c : Cluster) :
  primaryClusters cm !! Name cfg = None →
  NewCluster F cfg (sourceAddr cm) true = Some c →
  ∃ cm1 cm2,
    AddOrUpdatePrimaryCluster F cfg cm = Ret (true, cm1)
    ∧ ClusterExist (Name cfg) cm1 = true
    ∧ RemovePrimaryCluster [Name cfg] cm1 = (None, cm2)
    ∧ primaryClusters cm2 = primaryClusters cm
    ∧ ClusterExist (Name cfg) cm2 = false
    ∧ GetClusterSnapshot (Name cfg) cm2 = Ret (None, cm2).
Proof.
  intros Hnone Hnew.
  destruct (loadCluster_registers F cfg cm c Hnew)
    as (cm1 & pc & Hload & Hreg & Hapi & _).
  assert (Hback : delete (Name cfg) (primaryClusters cm1) = primaryClusters cm).
  { rewrite Hreg, delete_insert_eq. by apply delete_id. }
  exists cm1, (setPrimaryClusters (delete (Name cfg) (primaryClusters cm1)) cm1).
  split.
  { unfold AddOrUpdatePrimaryCluster. by rewrite Hnone, Hload. }
  split.
  { unfold ClusterExist. apply bool_decide_eq_true.
    rewrite Hreg, lookup_insert_eq. by eexists. }
  split.
  { cbn. by rewrite Hreg, lookup_insert_eq, Hapi. }
  cbn. split; [done|]. split.
  - unfold ClusterExist. apply bool_decide_eq_false. cbn.
    rewrite Hback, Hnone. by intros [? ?].
  - unfold GetClusterSnapshot. cbn. by rewrite Hback, Hnone.
Qed.

Lemma add_then_remove_cluster_witness :
  ∃ cm',
    RemovePrimaryCluster ["c1"] cm1 = (None, cm')
    ∧ primaryClusters cm' = primaryClusters cm0.
Proof.
  edestruct (add_then_remove_cluster simpleFactory (exampleCluster "c1" "SIMPLE") cm0)
    as (cm1' & cm2 & Hadd & _ & Hrm & Hsame & _);
    [reflexivity | reflexivity |].
  assert (cm1' = cm1) as ->.
  { assert (Hcm1 : AddOrUpdatePrimaryCluster simpleFactory
                     (exampleCluster "c1" "SIMPLE") cm0 = Ret (true, cm1))
      by (vm_compute; reflexivity).
    rewrite Hcm1 in Hadd. by injection Hadd. }
  by exists cm2.
Defined.

(** ** Host mutators *)

(** Everything [applyUpdateHosts] changes, for a registered simple in-memory
    cluster. *)
Lemma applyUpdateHosts_simple_state clusterName pc hosts blockedErr cm c v :
  primaryClusters cm !! clusterName = Some pc →
  clusterObjs cm !! pc_cluster pc = Some (SimpleInMem c) →
  rcuObjs cm !! configLock pc = Some v →
  ∃ cm' pc' v',
    applyUpdateHosts clusterName pc hosts blockedErr cm
    = Ret (if decide (rcu.readers (rcu.current v) v = 0%Z)
           then None else Some blockedErr, cm')
    ∧ primaryClusters cm' = <[clusterName := pc']> (primaryClusters cm)
    ∧ pc_cluster pc' = pc_cluster pc
    ∧ configLock pc' = configLock pc
    ∧ addedViaAPI pc' = addedViaAPI pc
    ∧ configUsed pc' = withHosts (Config <$> hosts) (configUsed pc)
    ∧ clusterObjs cm'
      = <[pc_cluster pc := SimpleInMem (simpleInMemCluster_UpdateHosts hosts c)]>
          (clusterObjs cm)
    ∧ rcuObjs cm' = <[configLock pc := v']> (rcuObjs cm)
    ∧ protocolConnPool cm' = protocolConnPool cm.
Proof.
  intros Hpc Hobj Hcell. unfold applyUpdateHosts.
  destruct (UpdateHosts_simple hosts pc cm c v Hobj Hcell)
    as (pc' & cm1 & -> & Hc & Hl & Hapi & Hcfg & Hobjs & Hcells & Hpcs & Hpools).
  eexists _, pc', _. split.
  { do 2 f_equal. case_bool_decide; case_decide; done. }
  cbn. rewrite Hpcs. done.
Qed.

Lemma clusterHosts_simple clusterName cm pc c :
  primaryClusters cm !! clusterName = Some pc →
  clusterObjs cm !! pc_cluster pc = Some (SimpleInMem c) →
  clusterHosts clusterName cm = Some (sc_hosts c).
Proof. intros Hpc Hobj. unfold clusterHosts. rewrite Hpc. cbn. by rewrite Hobj. Qed.

(** After [applyUpdateHosts] the cluster is registered, simple, and has its
    cell; its hosts are the given ones. *)
Lemma applyUpdateHosts_simple_after clusterName pc hosts blockedErr cm c v :
  primaryClusters cm !! clusterName = Some pc →
  clusterObjs cm !! pc_cluster pc = Some (SimpleInMem c) →
  rcuObjs cm !! configLock pc = Some v →
  ∃ err cm' pc' v',
    applyUpdateHosts clusterName pc hosts blockedErr cm = Ret (err, cm')
    ∧ (err = if decide (rcu.readers (rcu.current v) v = 0%Z)
             then None else Some blockedErr)
    ∧ primaryClusters cm' !! clusterName = Some pc'
    ∧ clusterObjs cm' !! pc_cluster pc'
      = Some (SimpleInMem (simpleInMemCluster_UpdateHosts hosts c))
    ∧ rcuObjs cm' !! configLock pc' = Some v'
    ∧ Hosts (configUsed pc') = Some (Config <$> hosts)
    ∧ clusterHosts clusterName cm' = Some hosts
    ∧ snapshotHosts clusterName 0 cm' = Some hosts.
Proof.
  intros Hpc Hobj Hcell.
  destruct (applyUpdateHosts_simple_state clusterName pc hosts blockedErr cm c v
              Hpc Hobj Hcell)
    as (cm' & pc' & v' & Hcall & Hreg & Hc & Hl & _ & Hcfg & Hobjs & Hcells & _).
  assert (Hpc' : primaryClusters cm' !! clusterName = Some pc')
    by (rewrite Hreg; apply lookup_insert_eq).
  assert (Hobj' : clusterObjs cm' !! pc_cluster pc'
                  = Some (SimpleInMem (simpleInMemCluster_UpdateHosts hosts c)))
    by (rewrite Hobjs, Hc; apply lookup_insert_eq).
  assert (Hcell' : rcuObjs cm' !! configLock pc' = Some v')
    by (rewrite Hcells, Hl; apply lookup_insert_eq).
  eexists _, cm', pc', v'. split; [exact Hcall|]. split; [done|].
  split; [done|]. split; [done|]. split; [done|].
  split; [by rewrite Hcfg|]. split.
  - by rewrite (clusterHosts_simple _ _ _ _ Hpc' Hobj').
  - rewrite (snapshotHosts_registered _ 0 _ _ _ _ Hpc' Hobj' Hcell'). cbn.
    by rewrite GetOrCreateHostSet_zero_lookup.
Qed.

(** X6.  [UpdateClusterHosts] takes effect even when it reports an error.
    For a registered simple in-memory cluster the call returns nil exactly
    when no reader holds the configuration that was current, and the
    blocked-update error otherwise; in both cases the cluster's hosts, its
    host set at priority 0 and the host list of the stored configuration
    are the new hosts. *)
Theorem UpdateClusterHosts_applies_even_when_blocked
    (clusterName : string) (p : nat) (hostConfigs : list v2Host)
    (cm : clusterManager) (pc : primaryCluster) (c : simpleInMemCluster)
    (v : rcu.Value v2Cluster) :
  primaryClusters cm !! clusterName = Some pc →
  clusterObjs cm !! pc_cluster pc = Some (SimpleInMem c) →
  rcuObjs cm !! configLock pc = Some v →
  ∃ err cm' pc',
    UpdateClusterHosts clusterName p hostConfigs cm = Ret (err, cm')
    ∧ (err = if decide (rcu.readers (rcu.current v) v = 0%Z)
             then None else Some (ErrUpdateHostsBlocked clusterName))
    ∧ primaryClusters cm' !! clusterName = Some pc'
    ∧ Hosts (configUsed pc') = Some hostConfigs
    ∧ (fmap (M := list) Config <$> clusterHosts clusterName cm') = Some hostConfigs
    ∧ snapshotHostAddresses clusterName 0 cm' = Some (Address <$> hostConfigs).
Proof.
  intros Hpc Hobj Hcell. unfold UpdateClusterHosts. rewrite Hpc, Hobj. cbn.
  destruct (applyUpdateHosts_simple_after clusterName pc
              ((fun hc => NewHost hc (sc_info c)) <$> hostConfigs)
              (ErrUpdateHostsBlocked clusterName) cm c v Hpc Hobj Hcell)
    as (err & cm' & pc' & v' & Hcall & Herr & Hpc' & _ & _ & Hcfg & Hhosts & Hsnap).
  exists err, cm', pc'. split; [done|]. split; [done|]. split; [done|].
  split; [by rewrite Hcfg, NewHost_Config|].
  split; [rewrite Hhosts; cbn; by rewrite NewHost_Config|].
  unfold snapshotHostAddresses. rewrite Hsnap. cbn. f_equal.
  rewrite <- list_fmap_compose. apply list_fmap_ext. by intros i hc _.
Qed.

Lemma UpdateClusterHosts_applies_even_when_blocked_witness :
  ∃ cm',
    UpdateClusterHosts "c1" 0 [exampleHost "c:8080"] cm3
    = Ret (Some (ErrUpdateHostsBlocked "c1"), cm')
    ∧ snapshotHostAddresses "c1" 0 cm' = Some ["c:8080"].
Proof.
  edestruct (UpdateClusterHosts_applies_even_when_blocked "c1" 0
               [exampleHost "c:8080"] cm3)
    as (err & cm' & pc' & Hcall & Herr & _ & _ & _ & Hsnap);
    [vm_compute; reflexivity ..|].
  exists cm'. split; [|exact Hsnap].
  rewrite Hcall, Herr. reflexivity.
Defined.

(** X7.  [AppendClusterHosts] is additive: for a registered simple
    in-memory cluster the hosts afterwards are the old hosts followed by the
    new ones, in the given order, in the cluster, in its host set at
    priority 0 and in the stored configuration; this holds whether or not
    the call reports the blocked-update error. *)
Theorem AppendClusterHosts_appends
    (clusterName : string) (p : nat) (hostConfigs : list v2Host)
    (cm : clusterManager) (pc : primaryCluster) (c : simpleInMemCluster)
    (v : rcu.Value v2Cluster) :
  primaryClusters cm !! clusterName = Some pc →
  clusterObjs cm !! pc_cluster pc = Some (SimpleInMem c) →
  rcuObjs cm !! configLock pc = Some v →
  ∃ err cm' pc',
    AppendClusterHosts clusterName p hostConfigs cm = Ret (err, cm')
    ∧ (err = if decide (rcu.readers (rcu.current v) v = 0%Z)
             then None else Some (ErrAppendHostsBlocked clusterName))
    ∧ clusterHosts clusterName cm'
      = Some (sc_hosts c ++ ((fun hc => NewHost hc (sc_info c)) <$> hostConfigs))%list
    ∧ snapshotHostAddresses clusterName 0 cm'
      = Some ((AddressString <$> sc_hosts c) ++ (Address <$> hostConfigs))%list
    ∧ primaryClusters cm' !! clusterName = Some pc'
    ∧ Hosts (configUsed pc') = Some ((Config <$> sc_hosts c) ++ hostConfigs)%list.
Proof.
  intros Hpc Hobj Hcell. unfold AppendClusterHosts. rewrite Hpc, Hobj. cbn.
  destruct (applyUpdateHosts_simple_after clusterName pc
              (sc_hosts c ++ ((fun hc => NewHost hc (sc_info c)) <$> hostConfigs))
              (ErrAppendHostsBlocked clusterName) cm c v Hpc Hobj Hcell)
    as (err & cm' & pc' & v' & Hcall & Herr & Hpc' & _ & _ & Hcfg & Hhosts & Hsnap).
  exists err, cm', pc'. split; [done|]. split; [done|]. split; [done|].
  split.
  { unfold snapshotHostAddresses. rewrite Hsnap. cbn. f_equal.
    rewrite fmap_app. f_equal.
    rewrite <- list_fmap_compose. apply list_fmap_ext. by intros i hc _. }
  split; [done|]. by rewrite Hcfg, fmap_app, NewHost_Config.
Qed.

Lemma AppendClusterHosts_appends_witness :
  ∃ cm',
    AppendClusterHosts "c1" 0 [exampleHost "c:8080"] cm2 = Ret (None, cm')
    ∧ snapshotHostAddresses "c1" 0 cm' = Some ["a:8080"; "b:8080"; "c:8080"].
Proof.
  edestruct (AppendClusterHosts_appends "c1" 0 [exampleHost "c:8080"] cm2)
    as (err & cm' & pc' & Hcall & Herr & _ & Hsnap & _);
    [vm_compute; reflexivity ..|].
  exists cm'. split; [|exact Hsnap].
  rewrite Hcall, Herr. reflexivity.
Defined.

(** X8.  Appending one host with a new, non-empty address and then removing
    the host of that address gives the old host list back, in the cluster
    and in its host set at priority 0, whatever the two calls report about
    blocked RCU updates. *)
Theorem append_then_remove_host
    (clusterName : string) (p : nat) (hc : v2Host)
    (cm : clusterManager) (pc : primaryCluster) (c : simpleInMemCluster)
    (v : rcu.Value v2Cluster) :
  primaryClusters cm !! clusterName = Some pc →
  clusterObjs cm !! pc_cluster pc = Some (SimpleInMem c) →
  rcuObjs cm !! configLock pc = Some v →
  Address hc ≠ "" →
  Address hc ∉ AddressString <$> sc_hosts c →
  ∃ e1 cm1 e2 cm2,
    AppendClusterHosts clusterName p [hc] cm = Ret (e1, cm1)
    ∧ RemoveClusterHost clusterName (Address hc) cm1 = Ret (e2, cm2)
    ∧ clusterHosts clusterName cm2 = Some (sc_hosts c)
    ∧ snapshotHosts clusterName 0 cm2 = Some (sc_hosts c).
Proof.
  intros Hpc Hobj Hcell Hne Hnew.
  unfold AppendClusterHosts. rewrite Hpc, Hobj. cbn.
  destruct (applyUpdateHosts_simple_after clusterName pc
              (sc_hosts c ++ [NewHost hc (sc_info c)])
              (ErrAppendHostsBlocked clusterName) cm c v Hpc Hobj Hcell)
    as (e1 & cm1 & pc1 & v1 & Hcall1 & _ & Hpc1 & Hobj1 & Hcell1 & _).
  exists e1, cm1. rewrite Hcall1.
  unfold RemoveClusterHost. rewrite decide_False by done.
  rewrite Hpc1, Hobj1. cbn [sc_hosts simpleInMemCluster_UpdateHosts].
  rewrite (findHost_first (Address hc) (sc_hosts c) (NewHost hc (sc_info c)) [] 0)
    by done.
  cbn [Nat.add]. rewrite cut_out, app_nil_r.
  destruct (applyUpdateHosts_simple_after clusterName pc1 (sc_hosts c)
              (ErrRemoveHostBlocked (Address hc) clusterName) cm1 _ v1
              Hpc1 Hobj1 Hcell1)
    as (e2 & cm2 & pc2 & v2 & Hcall2 & _ & _ & _ & _ & _ & Hhosts & Hsnap).
  exists e2, cm2. done.
Qed.

Lemma append_then_remove_host_witness :
  ∃ e1 cmA e2 cmB,
    AppendClusterHosts "c1" 0 [exampleHost "c:8080"] cm2 = Ret (e1, cmA)
    ∧ RemoveClusterHost "c1" "c:8080" cmA = Ret (e2, cmB)
    ∧ (fmap (M := list) AddressString <$> clusterHosts "c1" cmB)
      = Some ["a:8080"; "b:8080"].
Proof.
  edestruct (append_then_remove_host "c1" 0 (exampleHost "c:8080") cm2)
    as (e1 & cm1' & e2 & cm2' & Happ & Hrm & Hhosts & _);
    [ vm_compute; reflexivity | vm_compute; reflexivity | vm_compute; reflexivity
    | vm_compute; discriminate | vm_compute | ].
  { intros Hin. repeat (apply elem_of_cons in Hin as [Hin|Hin]; [discriminate|]).
    by apply elem_of_nil in Hin. }
  exists e1, cm1', e2, cm2'. split; [exact Happ|]. split; [exact Hrm|].
  rewrite Hhosts. reflexivity.
Defined.

(** ** Invariants of the managers a process can have *)

Lemma applyUpdateHosts_frame clusterName pc hosts blockedErr cm err cm' :
  applyUpdateHosts clusterName pc hosts blockedErr cm = Ret (err, cm') →
  protocolConnPool cm' = protocolConnPool cm
  ∧ sourceAddr cm' = sourceAddr cm
  ∧ ∃ pc', primaryClusters cm' = <[clusterName := pc']> (primaryClusters cm)
           ∧ addedViaAPI pc' = addedViaAPI pc.
Proof.
  unfold applyUpdateHosts, UpdateHosts.
  destruct (clusterObjs cm !! pc_cluster pc) as [[c|info ps]|]; [| |done];
    cbn; (destruct (rcuObjs cm !! configLock pc) as [v|]; [|done]);
    destruct (rcu.Update _ 0 v) as [blocked v']; cbn;
    intros [= <- <-]; cbn; (split; [done|]); (split; [done|]);
    eexists; (split; [reflexivity|]); done.
Qed.

(** What the three host mutators leave untouched. *)
Lemma host_mutator_frame (call : go (option error * clusterManager)) cm :
  (∃ clusterName p hs, call = UpdateClusterHosts clusterName p hs cm)
  ∨ (∃ clusterName p hs, call = AppendClusterHosts clusterName p hs cm)
  ∨ (∃ clusterName a, call = RemoveClusterHost clusterName a cm) →
  ∀ err cm', call = Ret (err, cm') →
    protocolConnPool cm' = protocolConnPool cm
    ∧ sourceAddr cm' = sourceAddr cm
    ∧ (allViaAPI cm → allViaAPI cm')
    ∧ ∀ n, is_Some (primaryClusters cm' !! n) ↔ is_Some (primaryClusters cm !! n).
Proof.
  assert (Happly : ∀ clusterName pc hosts blockedErr err cm',
             primaryClusters cm !! clusterName = Some pc →
             applyUpdateHosts clusterName pc hosts blockedErr cm = Ret (err, cm') →
             protocolConnPool cm' = protocolConnPool cm
             ∧ sourceAddr cm' = sourceAddr cm
             ∧ (allViaAPI cm → allViaAPI cm')
             ∧ ∀ n, is_Some (primaryClusters cm' !! n)
                    ↔ is_Some (primaryClusters cm !! n)).
  { intros clusterName pc hosts blockedErr err cm' Hpc Hcall.
    destruct (applyUpdateHosts_frame _ _ _ _ _ _ _ Hcall)
      as (Hpools & Haddr & pc' & Hreg & Hapi).
    split; [done|]. split; [done|]. split.
    - intros Hall. unfold allViaAPI.
      rewrite Hreg. apply map_Forall_insert_2; [|done].
      rewrite Hapi. by apply (Hall clusterName).
    - intros n. rewrite Hreg. destruct (decide (n = clusterName)) as [->|Hne].
      + rewrite lookup_insert_eq, Hpc. by split; eexists.
      + by rewrite lookup_insert_ne. }
  assert (Hsame : ∀ (e : option error) err cm',
             Ret (e, cm) = Ret (err, cm') →
             protocolConnPool cm' = protocolConnPool cm
             ∧ sourceAddr cm' = sourceAddr cm
             ∧ (allViaAPI cm → allViaAPI cm')
             ∧ ∀ n, is_Some (primaryClusters cm' !! n)
                    ↔ is_Some (primaryClusters cm !! n)).
  { by intros e err cm' [= <- <-]. }
  intros [(clusterName & p & hs & ->)|[(clusterName & p & hs & ->)
                                      |(clusterName & a & ->)]] err cm'.
  - unfold UpdateClusterHosts.
    destruct (primaryClusters cm !! clusterName) as [pc|] eqn:Hpc; [|apply Hsame].
    destruct (clusterObjs cm !! pc_cluster pc); [|done]. by apply Happly.
  - unfold AppendClusterHosts.
    destruct (primaryClusters cm !! clusterName) as [pc|] eqn:Hpc; [|apply Hsame].
    destruct (clusterObjs cm !! pc_cluster pc); [|done]. by apply Happly.
  - unfold RemoveClusterHost. case_decide; [apply Hsame|].
    destruct (primaryClusters cm !! clusterName) as [pc|] eqn:Hpc; [|apply Hsame].
    destruct (clusterObjs cm !! pc_cluster pc) as [[c|info ps]|];
      [|apply Hsame|done].
    destruct (findHost a (sc_hosts c) 0); [|apply Hsame]. by apply Happly.
Qed.

Lemma wellFormed_setProtocolConnPool pools cm :
  wellFormed cm → wellFormed (setProtocolConnPool pools cm).
Proof. done. Qed.

(** A returned [getActiveConnectionPool] changes nothing but the pool
    cache, and no protocol loses its address map. *)
Lemma getActiveConnectionPool_frame {W} (E : Env W)
    balancerContext clusterSnapshot protocol (m m' : machine W) r :
  getActiveConnectionPool E balancerContext clusterSnapshot protocol m = Ret (r, m') →
  mgr m' = setProtocolConnPool (protocolConnPool (mgr m')) (mgr m)
  ∧ ∀ q, is_Some (protocolConnPool (mgr m') !! q)
         ↔ is_Some (protocolConnPool (mgr m) !! q).
Proof.
  intros Hcall.
  destruct (protocolConnPool (mgr m) !! protocol) as [cp|] eqn:Hcp.
  - destruct (getActiveConnectionPool_shape E balancerContext clusterSnapshot
                protocol m cp Hcp)
      as (r0 & m0 & tr & attempts & Hcall0 & _ & _ & Hkept).
    rewrite Hcall0 in Hcall. injection Hcall as <- <-.
    destruct Hkept as (Hframe & Hother & cp0 & cp' & _ & Hcp' & _).
    split; [done|]. intros q. destruct (decide (q = protocol)) as [->|Hne].
    + rewrite Hcp', Hcp. by split; eexists.
    + by rewrite Hother.
  - revert Hcall. unfold getActiveConnectionPool, cycleTimes.
    cbn [chooseLoop]. unfold chooseTurn, doChooseHost.
    destruct (ChooseHost E (loadbalancer clusterSnapshot) balancerContext (world m))
      as [[host|] w]; cbn.
    + by rewrite Hcp.
    + intros [= <- <-]. cbn. split; [by destruct (mgr m)|done].
Qed.

(** The invariant of the managers that [NewClusterManager] and the
    exported methods produce. *)
Lemma reachable_invariant F addr protocols cm :
  reachable F addr protocols cm →
  wellFormed cm
  ∧ allViaAPI cm
  ∧ sourceAddr cm = addr
  ∧ ∀ p, is_Some (protocolConnPool cm !! p) ↔ p ∈ protocols.
Proof.
  induction 1 as
    [ | cm cfg ok cm' _ (Hwf & Hapi & Haddr & Hpools) Hcall
      | cm clusterNames _ (Hwf & Hapi & Haddr & Hpools)
      | cm clusterName priority hostConfigs err cm' _ (Hwf & Hapi & Haddr & Hpools) Hcall
      | cm clusterName priority hostConfigs err cm' _ (Hwf & Hapi & Haddr & Hpools) Hcall
      | cm clusterName hostAddress err cm' _ (Hwf & Hapi & Haddr & Hpools) Hcall
      | cm clusterName snapshot cm' _ (Hwf & Hapi & Haddr & Hpools) Hcall
      | cm snapshot cm' _ (Hwf & Hapi & Haddr & Hpools) Hcall
      | W E balancerContext clusterSnapshot protocol m m' r _
          (Hwf & Hapi & Haddr & Hpools) Hcall ].
  - split; [apply wellFormed_empty|]. split; [apply map_Forall_empty|].
    split; [done|]. intros p. cbn.
    rewrite <- elem_of_dom, dom_list_to_map_L, <- list_fmap_compose.
    rewrite elem_of_list_to_set, list_elem_of_fmap. split.
    + by intros (q & -> & Hq).
    + intros Hp. by exists p.
  - split; [by eapply AddOrUpdatePrimaryCluster_wellFormed|].
    destruct (AddOrUpdatePrimaryCluster_inv _ _ _ _ _ Hcall)
      as [[_ ->]|(_ & pc & Hreg & Hvia & _ & Hsame & Hsrc)]; [done|].
    split; [|split; [congruence|by rewrite Hsame]].
    unfold allViaAPI. rewrite Hreg. by apply map_Forall_insert_2.
  - split; [by apply RemovePrimaryCluster_wellFormed|].
    destruct (RemovePrimaryCluster clusterNames cm) as [err cm'] eqn:Hcall. cbn.
    destruct (RemovePrimaryCluster_inv _ _ _ _ Hcall)
      as (removed & Hreg & _ & Hframe & _).
    rewrite Hframe. cbn. split; [|done].
    intros n pc Hn. cbn in Hn. rewrite Hreg in Hn.
    case_decide; [done|]. by apply (Hapi n).
  - destruct (UpdateClusterHosts_wellFormed clusterName priority hostConfigs cm Hwf)
      as (err0 & cm0 & Hcall0 & Hwf').
    rewrite Hcall0 in Hcall. injection Hcall as <- <-.
    destruct (host_mutator_frame _ cm
                (or_introl (ex_intro _ clusterName (ex_intro _ priority
                   (ex_intro _ hostConfigs eq_refl)))) _ _ Hcall0)
      as (Hsame & Hsrc & Hall & _).
    split; [done|]. split; [by apply Hall|]. split; [congruence|by rewrite Hsame].
  - destruct (AppendClusterHosts_wellFormed clusterName priority hostConfigs cm Hwf)
      as (err0 & cm0 & Hcall0 & Hwf').
    rewrite Hcall0 in Hcall. injection Hcall as <- <-.
    destruct (host_mutator_frame _ cm
                (or_intror (or_introl (ex_intro _ clusterName (ex_intro _ priority
                   (ex_intro _ hostConfigs eq_refl))))) _ _ Hcall0)
      as (Hsame & Hsrc & Hall & _).
    split; [done|]. split; [by apply Hall|]. split; [congruence|by rewrite Hsame].
  - destruct (RemoveClusterHost_wellFormed clusterName hostAddress cm Hwf)
      as (err0 & cm0 & Hcall0 & Hwf').
    rewrite Hcall0 in Hcall. injection Hcall as <- <-.
    destruct (host_mutator_frame _ cm
                (or_intror (or_intror (ex_intro _ clusterName
                   (ex_intro _ hostAddress eq_refl)))) _ _ Hcall0)
      as (Hsame & Hsrc & Hall & _).
    split; [done|]. split; [by apply Hall|]. split; [congruence|by rewrite Hsame].
  - destruct (GetClusterSnapshot_wellFormed clusterName cm Hwf)
      as (s0 & cm0 & Hcall0 & Hwf').
    rewrite Hcall0 in Hcall. injection Hcall as <- <-.
    split; [done|]. revert Hcall0. unfold GetClusterSnapshot.
    destruct (primaryClusters cm !! clusterName) as [pc|]; [|by intros [= <- <-]].
    destruct (clusterObjs cm !! pc_cluster pc); [|done].
    destruct (rcuObjs cm !! configLock pc) as [v|]; [|done].
    destruct (rcu.Load v). by intros [= <- <-].
  - split; [by eapply PutClusterSnapshot_wellFormed|].
    revert Hcall. unfold PutClusterSnapshot.
    destruct snapshot as [[s|]|]; [|by intros [= <-]..].
    destruct (rcuObjs cm !! value s); [|done]. by intros [= <-].
  - destruct (getActiveConnectionPool_frame E _ _ _ _ _ _ Hcall) as (Hframe & Hgrow).
    rewrite Hframe. split; [by apply wellFormed_setProtocolConnPool|].
    split; [done|]. split; [done|]. intros p. cbn. by rewrite Hgrow.
Qed.

Lemma addClusters_inv F addr protocols clusters :
  ∀ cm cm',
    addClusters F clusters cm = Ret cm' →
    reachable F addr protocols cm →
    reachable F addr protocols cm'
    ∧ protocolConnPool cm' = protocolConnPool cm
    ∧ ∀ n, is_Some (primaryClusters cm' !! n) →
           is_Some (primaryClusters cm !! n) ∨ n ∈ Name <$> clusters.
Proof.
  induction clusters as [|cluster rest IH]; intros cm cm' Hrun Hreach; cbn in Hrun.
  - injection Hrun as <-. split; [done|]. split; [done|]. by left.
  - destruct (AddOrUpdatePrimaryCluster F cluster cm) as [[ok cm1]|] eqn:Hadd; [|done].
    destruct (IH _ _ Hrun (reach_AddOrUpdatePrimaryCluster _ _ _ _ _ _ _ Hreach Hadd))
      as (Hreach' & Hpools & Hnames).
    split; [done|].
    destruct (AddOrUpdatePrimaryCluster_inv _ _ _ _ _ Hadd)
      as [[_ ->]|(_ & pc & Hreg & _ & _ & Hsame & _)].
    + split; [done|]. intros n Hn. destruct (Hnames n Hn) as [?|?]; [by left|].
      right. cbn. by apply elem_of_cons; right.
    + split; [congruence|]. intros n Hn. cbn. rewrite elem_of_cons.
      destruct (Hnames n Hn) as [Hin|?]; [|by right; right].
      rewrite Hreg in Hin. destruct (decide (n = Name cluster)) as [->|Hne].
      * right. by left.
      * left. by rewrite lookup_insert_ne in Hin.
Qed.

Lemma addHosts_inv F addr protocols clusterMap :
  ∀ cm cm',
    addHosts clusterMap cm = Ret cm' →
    reachable F addr protocols cm →
    reachable F addr protocols cm'
    ∧ protocolConnPool cm' = protocolConnPool cm
    ∧ ∀ n, is_Some (primaryClusters cm' !! n) ↔ is_Some (primaryClusters cm !! n).
Proof.
  induction clusterMap as [|[clusterName hosts] rest IH];
    intros cm cm' Hrun Hreach; cbn in Hrun.
  - by injection Hrun as <-.
  - destruct (UpdateClusterHosts clusterName 0 hosts cm) as [[err cm1]|] eqn:Hupd;
      [|done].
    destruct (IH _ _ Hrun (reach_UpdateClusterHosts _ _ _ _ _ _ _ _ _ Hreach Hupd))
      as (Hreach' & Hpools & Hnames).
    destruct (host_mutator_frame _ cm
                (or_introl (ex_intro _ clusterName (ex_intro _ 0
                   (ex_intro _ hosts eq_refl)))) _ _ Hupd)
      as (Hsame & _ & _ & Hdom).
    split; [done|]. split; [congruence|]. intros n. by rewrite Hnames.
Qed.

(** X9. [NewClusterManager] is a singleton constructor: with an instance
    in place it returns that instance whatever its arguments are, and a
    manager it builds has the given source address, an empty address map
    for exactly the protocols of [types.ConnPoolFactories], no cluster
    other than those of [clusters] (the names of [clusterMap] add none),
    every one of them flagged as added through the API, and no nil cluster
    or cell behind any of them; it is one of the managers [reachable]
    describes. *)
Theorem NewClusterManager_builds F addr clusters clusterMap protocols instance cm :
  NewClusterManager F addr clusters clusterMap protocols instance = Ret cm →
  match instance with
  | Some old => cm = old
  | None =>
      reachable F addr protocols cm
      ∧ sourceAddr cm = addr
      ∧ (∀ p, protocolConnPool cm !! p = if decide (p ∈ protocols) then Some ∅ else None)
      ∧ (∀ n, is_Some (primaryClusters cm !! n) → n ∈ Name <$> clusters)
      ∧ allViaAPI cm
      ∧ wellFormed cm
  end.
Proof.
  unfold NewClusterManager. destruct instance as [old|]; [by intros [= <-]|].
  destruct (addClusters F clusters (emptyManager addr protocols)) as [cm1|] eqn:Hadd;
    [|done].
  intros Hhosts.
  destruct (addClusters_inv F addr protocols _ _ _ Hadd (reach_empty _ _ _))
    as (Hreach1 & Hpools1 & Hnames1).
  destruct (addHosts_inv F addr protocols _ _ _ Hhosts Hreach1)
    as (Hreach & Hpools & Hnames).
  destruct (reachable_invariant _ _ _ _ Hreach) as (Hwf & Hapi & Haddr & _).
  split; [done|]. split; [done|]. split; [|split; [|done]].
  - intros p. rewrite Hpools, Hpools1. cbn. case_decide as Hp.
    + apply elem_of_list_to_map_1'.
      * intros y Hy. apply list_elem_of_fmap in Hy as (q & [= <- <-] & _). done.
      * apply list_elem_of_fmap. by exists p.
    + apply not_elem_of_list_to_map_1. rewrite <- list_fmap_compose.
      intros Hin. apply list_elem_of_fmap in Hin as (q & -> & Hq). done.
  - intros n Hn. apply Hnames in Hn. destruct (Hnames1 n Hn) as [Hin|?]; [|done].
    cbn in Hin. rewrite lookup_empty in Hin. by destruct Hin.
Qed.

Lemma NewClusterManager_builds_witness :
  NewClusterManager simpleFactory "127.0.0.1:0"
    [exampleCluster "c1" SIMPLE_CLUSTER; exampleCluster "c9" "UNKNOWN"]
    [("c1", [exampleHost "a:8080"; exampleHost "b:8080"]); ("c7", [exampleHost "c:8080"])]
    ["Http1"] None = Ret cm2
  ∧ reachable simpleFactory "127.0.0.1:0" ["Http1"] cm2
  ∧ sourceAddr cm2 = "127.0.0.1:0"
  ∧ (∀ p, protocolConnPool cm2 !! p = if decide (p ∈ ["Http1"]) then Some ∅ else None)
  ∧ (∀ n, is_Some (primaryClusters cm2 !! n) →
          n ∈ Name <$> [exampleCluster "c1" SIMPLE_CLUSTER; exampleCluster "c9" "UNKNOWN"])
  ∧ allViaAPI cm2
  ∧ wellFormed cm2.
Proof.
  split; [vm_compute; reflexivity|].
  apply (NewClusterManager_builds simpleFactory "127.0.0.1:0"
           [exampleCluster "c1" SIMPLE_CLUSTER; exampleCluster "c9" "UNKNOWN"]
           [("c1", [exampleHost "a:8080"; exampleHost "b:8080"]);
            ("c7", [exampleHost "c:8080"])]
           ["Http1"] None cm2).
  vm_compute. reflexivity.
Defined.

(** X10. No nil dereference in the host and snapshot methods.  On a manager
    built by [NewClusterManager] and changed only through the exported
    methods, [GetClusterSnapshot], [UpdateClusterHosts],
    [AppendClusterHosts] and [RemoveClusterHost] return for every argument
    (none of them panics), and a snapshot that [GetClusterSnapshot] handed
    out can be given back with [PutClusterSnapshot]. *)
Theorem manager_methods_return
    F addr protocols cm clusterName priority hostConfigs hostAddress :
  reachable F addr protocols cm →
  (∃ snapshot cm' cm'',
     GetClusterSnapshot clusterName cm = Ret (snapshot, cm')
     ∧ PutClusterSnapshot snapshot cm' = Ret cm'')
  ∧ (∃ err cm', UpdateClusterHosts clusterName priority hostConfigs cm = Ret (err, cm'))
  ∧ (∃ err cm', AppendClusterHosts clusterName priority hostConfigs cm = Ret (err, cm'))
  ∧ (∃ err cm', RemoveClusterHost clusterName hostAddress cm = Ret (err, cm')).
Proof.
  intros Hreach. destruct (reachable_invariant _ _ _ _ Hreach) as (Hwf & _).
  split; [|split; [|split]].
  - destruct (GetClusterSnapshot_wellFormed clusterName cm Hwf)
      as (s & cm' & Hget & _).
    exists s, cm'. rewrite Hget. revert Hget. unfold GetClusterSnapshot.
    destruct (primaryClusters cm !! clusterName) as [pc|].
    + destruct (clusterObjs cm !! pc_cluster pc); [|done].
      destruct (rcuObjs cm !! configLock pc) as [v|]; [|done].
      destruct (rcu.Load v) as [p v']. intros [= <- <-]. cbn.
      rewrite lookup_insert_eq. by eexists.
    + intros [= <- <-]. by eexists.
  - destruct (UpdateClusterHosts_wellFormed clusterName priority hostConfigs cm Hwf)
      as (err & cm' & Hcall & _). eauto.
  - destruct (AppendClusterHosts_wellFormed clusterName priority hostConfigs cm Hwf)
      as (err & cm' & Hcall & _). eauto.
  - destruct (RemoveClusterHost_wellFormed clusterName hostAddress cm Hwf)
      as (err & cm' & Hcall & _). eauto.
Qed.

Lemma manager_methods_return_witness :
  (∃ snapshot cm' cm'',
     GetClusterSnapshot "c1" cm2 = Ret (snapshot, cm')
     ∧ PutClusterSnapshot snapshot cm' = Ret cm'')
  ∧ (∃ err cm', UpdateClusterHosts "c1" 0 [exampleHost "c:8080"] cm2 = Ret (err, cm'))
  ∧ (∃ err cm', AppendClusterHosts "c1" 0 [exampleHost "c:8080"] cm2 = Ret (err, cm'))
  ∧ (∃ err cm', RemoveClusterHost "c1" "a:8080" cm2 = Ret (err, cm')).
Proof.
  apply (manager_methods_return simpleFactory "127.0.0.1:0" ["Http1"] cm2
           "c1" 0 [exampleHost "c:8080"] "a:8080").
  eapply (reach_UpdateClusterHosts _ _ _ cm1 "c1" 0
            [exampleHost "a:8080"; exampleHost "b:8080"] None cm2).
  - eapply (reach_AddOrUpdatePrimaryCluster _ _ _ cm0
              (exampleCluster "c1" SIMPLE_CLUSTER) true cm1).
    + apply reach_empty.
    + vm_compute. reflexivity.
  - vm_compute. reflexivity.
Defined.

Lemma RemovePrimaryCluster_allViaAPI (clusterNames : list string) :
  ∀ cm, allViaAPI cm →
    (fst (RemovePrimaryCluster clusterNames cm) = None
     ↔ NoDup clusterNames ∧ ∀ n, n ∈ clusterNames → ClusterExist n cm = true)
    ∧ ∀ e, fst (RemovePrimaryCluster clusterNames cm) = Some e →
           ∃ bad, e = ErrRemoveNotExist bad ∧ bad ∈ clusterNames.
Proof.
  induction clusterNames as [|name rest IH]; intros cm Hall; cbn.
  - split; [|done]. split; [|done]. intros _. split; [constructor|].
    by intros n Hn%elem_of_nil.
  - destruct (primaryClusters cm !! name) as [v|] eqn:Hname.
    + rewrite (Hall name v Hname). cbn.
      destruct (IH (setPrimaryClusters (delete name (primaryClusters cm)) cm))
        as (IHnil & IHerr).
      { by apply map_Forall_delete. }
      split.
      * rewrite IHnil, NoDup_cons. unfold ClusterExist. cbn. split.
        -- intros (Hnd & Hin). split; [split; [|done]|].
           ++ intros Hrest. apply Hin, bool_decide_eq_true in Hrest.
              rewrite lookup_delete_eq in Hrest. by destruct Hrest.
           ++ intros n [->|Hn]%elem_of_cons.
              ** apply bool_decide_eq_true. by eexists.
              ** apply Hin, bool_decide_eq_true in Hn. apply bool_decide_eq_true.
                 destruct Hn as (pc & Hpc).
                 apply lookup_delete_Some in Hpc as [_ Hpc]. by eexists.
        -- intros ((Hnotin & Hnd) & Hin). split; [done|]. intros n Hn.
           apply bool_decide_eq_true. rewrite lookup_delete_ne.
           ++ eapply bool_decide_eq_true, Hin, elem_of_cons. by right.
           ++ by intros <-.
      * intros e He. destruct (IHerr e He) as (bad & -> & Hbad).
        exists bad. split; [done|]. apply elem_of_cons. by right.
    + cbn. split.
      * split; [done|]. intros (_ & Hin).
        assert (ClusterExist name cm = true) as Hex
          by (apply Hin, elem_of_cons; by left).
        apply bool_decide_eq_true in Hex. rewrite Hname in Hex. by destruct Hex.
      * intros e [= <-]. exists name. split; [done|]. apply elem_of_cons. by left.
Qed.

(** X11. Every cluster of a manager built by [NewClusterManager] and
    changed only through the exported methods was added through the API, so
    [RemovePrimaryCluster] never refuses a removal for that reason: it
    returns nil exactly when the names are pairwise distinct and all
    registered, and its only error is the one about a name that is not
    registered (which a name listed twice gets at its second turn). *)
Theorem RemovePrimaryCluster_only_missing_names
    F addr protocols cm (clusterNames : list string) :
  reachable F addr protocols cm →
  (fst (RemovePrimaryCluster clusterNames cm) = None
   ↔ NoDup clusterNames ∧ ∀ n, n ∈ clusterNames → ClusterExist n cm = true)
  ∧ ∀ e, fst (RemovePrimaryCluster clusterNames cm) = Some e →
         ∃ bad, e = ErrRemoveNotExist bad ∧ bad ∈ clusterNames.
Proof.
  intros Hreach. apply RemovePrimaryCluster_allViaAPI.
  by destruct (reachable_invariant _ _ _ _ Hreach) as (_ & Hapi & _).
Qed.

Lemma RemovePrimaryCluster_only_missing_names_witness :
  (fst (RemovePrimaryCluster ["c1"; "c1"] cm2) = None
   ↔ NoDup ["c1"; "c1"] ∧ ∀ n, n ∈ ["c1"; "c1"] → ClusterExist n cm2 = true)
  ∧ ∀ e, fst (RemovePrimaryCluster ["c1"; "c1"] cm2) = Some e →
         ∃ bad, e = ErrRemoveNotExist bad ∧ bad ∈ ["c1"; "c1"].
Proof.
  apply (RemovePrimaryCluster_only_missing_names simpleFactory "127.0.0.1:0"
           ["Http1"] cm2 ["c1"; "c1"]).
  eapply (reach_UpdateClusterHosts _ _ _ cm1 "c1" 0
            [exampleHost "a:8080"; exampleHost "b:8080"] None cm2).
  - eapply (reach_AddOrUpdatePrimaryCluster _ _ _ cm0
              (exampleCluster "c1" SIMPLE_CLUSTER) true cm1).
    + apply reach_empty.
    + vm_compute. reflexivity.
  - vm_compute. reflexivity.
Defined.

(** ** Snapshots and later changes *)

Lemma AddOrUpdatePrimaryCluster_keeps_objects F cfg cm ok cm' r obj :
  AddOrUpdatePrimaryCluster F cfg cm = Ret (ok, cm') →
  clusterObjs cm !! r = Some obj →
  clusterObjs cm' !! r = Some obj.
Proof.
  intros Hcall Hobj.
  assert (r ≠ fresh (dom (clusterObjs cm))) as Hfresh.
  { intros ->. by rewrite fresh_lookup_None in Hobj. }
  revert Hcall. unfold AddOrUpdatePrimaryCluster.
  destruct (primaryClusters cm !! Name cfg) as [pc|].
  - destruct (addedViaAPI pc); cbn; [|by intros [= <- <-]].
    unfold updateCluster. case_decide; [by intros [= <- <-]|].
    destruct (clusterObjs cm !! pc_cluster pc) as [[c|info ps]|];
      [|by intros [= <- <-]|done].
    destruct (NewCluster F cfg (sourceAddr cm) true) as [[nc|]|]; [|done..].
    unfold UpdateCluster. cbn.
    destruct (rcuObjs cm !! configLock pc) as [v|]; [|done].
    destruct (rcu.Update _ 0 v) as [blocked v']. cbn. intros [= <- <-]. cbn.
    by rewrite lookup_insert_ne.
  - unfold loadCluster.
    destruct (NewCluster F cfg (sourceAddr cm) true) as [c|]; [|by intros [= <- <-]].
    cbn. intros [= <- <-]. cbn. by rewrite lookup_insert_ne.
Qed.

(** X13. A snapshot is isolated from cluster updates and removals.
    [AddOrUpdatePrimaryCluster] puts a new cluster object behind the name
    and [RemovePrimaryCluster] only drops the name, so the priority set
    that an earlier snapshot shows, and what [IsExistsHosts] answers on it,
    stay what they were, whichever clusters are updated or removed. *)
Theorem held_snapshot_outlives_cluster_changes
    (F : Factory)
    (subsetHostsNumber : LoadBalancer → gmap string string → option nat)
    (metadata : option (gmap string string))
    (cfg : v2Cluster) (clusterNames : list string)
    (cm : clusterManager) (s : clusterSnapshot) (obj : Cluster) :
  clusterObjs cm !! prioritySet s = Some obj →
  (∀ ok cm', AddOrUpdatePrimaryCluster F cfg cm = Ret (ok, cm') →
     snapshotPrioritySet s cm' = Some (ClusterPrioritySet obj)
     ∧ IsExistsHosts subsetHostsNumber metadata s cm'
       = IsExistsHosts subsetHostsNumber metadata s cm)
  ∧ snapshotPrioritySet s (snd (RemovePrimaryCluster clusterNames cm))
    = Some (ClusterPrioritySet obj)
  ∧ IsExistsHosts subsetHostsNumber metadata s
      (snd (RemovePrimaryCluster clusterNames cm))
    = IsExistsHosts subsetHostsNumber metadata s cm.
Proof.
  intros Hobj.
  assert (snapshotPrioritySet s cm = Some (ClusterPrioritySet obj)) as Hnow.
  { unfold snapshotPrioritySet. by rewrite Hobj. }
  split.
  - intros ok cm' Hcall.
    assert (snapshotPrioritySet s cm' = Some (ClusterPrioritySet obj)) as Hthen.
    { unfold snapshotPrioritySet.
      by rewrite (AddOrUpdatePrimaryCluster_keeps_objects _ _ _ _ _ _ _ Hcall Hobj). }
    split; [done|]. unfold IsExistsHosts. by rewrite Hthen, Hnow.
  - destruct (RemovePrimaryCluster clusterNames cm) as [err cm'] eqn:Hcall. cbn.
    destruct (RemovePrimaryCluster_inv _ _ _ _ Hcall) as (_ & _ & _ & Hframe & _).
    assert (snapshotPrioritySet s cm' = Some (ClusterPrioritySet obj)) as Hthen.
    { rewrite Hframe. exact Hnow. }
    split; [done|]. unfold IsExistsHosts. by rewrite Hthen, Hnow.
Qed.

Lemma held_snapshot_outlives_cluster_changes_witness :
  ∃ cm',
    AddOrUpdatePrimaryCluster simpleFactory (exampleCluster "c1" EDS_CLUSTER) cm3
    = Ret (true, cm')
    ∧ snapshotPrioritySet exampleSnapshot cm'
      = Some [{| hs_Hosts := [hostA; hostB] |}].
Proof.
  pose proof (held_snapshot_outlives_cluster_changes simpleFactory (λ _ _, None) None
                (exampleCluster "c1" EDS_CLUSTER) ["c1"] cm3 exampleSnapshot
                (SimpleInMem {| sc_info := exampleInfo;
                                sc_prioritySet := [{| hs_Hosts := [hostA; hostB] |}];
                                sc_hosts := [hostA; hostB] |})) as Hkeep.
  destruct Hkeep as (Hadd & _); [vm_compute; reflexivity|].
  eexists. split; [vm_compute; reflexivity|].
  refine (proj1 (Hadd true _ _)). vm_compute. reflexivity.
Defined.

(** ** The request path on the managers a process can have *)

Ltac reach_cm2 :=
  eapply (reach_UpdateClusterHosts _ _ _ cm1 "c1" 0
            [exampleHost "a:8080"; exampleHost "b:8080"] None cm2);
  [ eapply (reach_AddOrUpdatePrimaryCluster _ _ _ cm0
              (exampleCluster "c1" SIMPLE_CLUSTER) true cm1);
    [ apply reach_empty | vm_compute; reflexivity ]
  | vm_compute; reflexivity ].

(** X14. When [ConnPoolForCluster] panics.  On a manager built by
    [NewClusterManager] and changed only through the exported methods the
    call panics in exactly two cases: the snapshot is nil (the log
    statement of that branch calls a method on it), or the snapshot is the
    manager's own, the protocol is not a key of [types.ConnPoolFactories]
    and the load balancer returns a host.  A foreign snapshot, a load
    balancer without a host and every protocol with a key make it
    return. *)
Theorem ConnPoolForCluster_panics_iff {W} (E : Env W)
    (F : Factory) (addr : string) (protocols : list string)
    (balancerContext : LoadBalancerContext) (snapshot : option ClusterSnapshot)
    (protocol : string) (m : machine W) :
  reachable F addr protocols (mgr m) →
  ConnPoolForCluster E balancerContext snapshot protocol m = Panic
  ↔ snapshot = None
    ∨ ∃ cs, snapshot = Some (Internal cs)
            ∧ (protocol ∉ protocols)
            ∧ is_Some (fst (ChooseHost E (loadbalancer cs) balancerContext (world m))).
Proof.
  intros Hreach.
  destruct (reachable_invariant _ _ _ _ Hreach) as (_ & _ & _ & Hpools).
  destruct snapshot as [[cs|foreign]|]; cbn.
  - destruct (protocolConnPool (mgr m) !! protocol) as [cp|] eqn:Hcp.
    + assert (protocol ∈ protocols) as Hin by (apply Hpools; by eexists).
      destruct (getActiveConnectionPool_shape E balancerContext cs protocol m cp Hcp)
        as (r & m' & tr & attempts & Hcall & _).
      rewrite Hcall. split.
      * by destruct r.
      * by intros [?|(cs' & _ & Hnotin & _)].
    + assert (protocol ∉ protocols) as Hnotin.
      { intros Hin. apply Hpools in Hin. rewrite Hcp in Hin. by destruct Hin. }
      destruct (ChooseHost E (loadbalancer cs) balancerContext (world m))
        as [[host|] w] eqn:Hchoose.
      * rewrite (getActiveConnectionPool_unknown_protocol E balancerContext cs
                   protocol m host Hcp) by (by rewrite Hchoose).
        split; [|done]. intros _. right. exists cs. rewrite Hchoose. cbn. eauto.
      * unfold getActiveConnectionPool, cycleTimes. cbn [chooseLoop].
        unfold chooseTurn, doChooseHost. rewrite Hchoose. cbn. split; [done|].
        intros [?|(cs' & [= <-] & _ & Hsome)]; [done|].
        rewrite Hchoose in Hsome. by destruct Hsome.
  - split; [done|]. by intros [?|(cs & ? & _)].
  - split; [by left|done].
Qed.

Lemma ConnPoolForCluster_panics_iff_witness :
  ConnPoolForCluster (scripted exampleFactories) exampleLbCtx
    (Some (Internal exampleSnapshot)) "SofaRpc" (play [Some hostA] [] false cm2)
  = Panic.
Proof.
  refine (proj2 (ConnPoolForCluster_panics_iff (scripted exampleFactories)
                   simpleFactory "127.0.0.1:0" ["Http1"] exampleLbCtx
                   (Some (Internal exampleSnapshot)) "SofaRpc"
                   (play [Some hostA] [] false cm2) _) _).
  - cbn. reach_cm2.
  - right. exists exampleSnapshot. split; [reflexivity|]. split.
    + intros Hin. apply list_elem_of_singleton in Hin. discriminate Hin.
    + cbn. by eexists.
Defined.

Lemma lockDiscipline_app tr1 : ∀ held held' tr2,
  lockDiscipline held tr1 = Some held' →
  lockDiscipline held (tr1 ++ tr2) = lockDiscipline held' tr2.
Proof.
  induction tr1 as [|ev tr1 IH]; intros held held' tr2; cbn.
  - by intros [= <-].
  - destruct ev, held; try done; apply IH.
Qed.

Lemma lockDiscipline_attempts protocol attempts :
  lockDiscipline false (concat (attemptEvents protocol <$> attempts)) = Some false.
Proof.
  induction attempts as [|a attempts IH]; [done|]. cbn [fmap list_fmap concat].
  rewrite (lockDiscipline_app _ false false); [exact IH|]. by destruct a.
Qed.

Lemma lockDiscipline_failedPolls pools tr :
  lockDiscipline false (failedPolls pools ++ tr) = lockDiscipline false tr.
Proof. induction pools as [|pool pools IH]; [done|exact IH]. Qed.

Lemma lockDiscipline_failedStages pools ds tr :
  lockDiscipline false (concat (failedStage pools <$> ds) ++ tr)
  = lockDiscipline false tr.
Proof.
  induction ds as [|d ds IH]; [done|]. cbn [fmap list_fmap concat].
  unfold failedStage at 1. cbn. by rewrite <- !app_assoc, lockDiscipline_failedPolls.
Qed.

Lemma lockDiscipline_selection protocol r tr attempts :
  selection protocol r tr attempts → lockDiscipline false tr = Some false.
Proof.
  intros [attempts' r' last _ Hend|attempts' r' tr' _ Hwait];
    rewrite (lockDiscipline_app _ false false) by apply lockDiscipline_attempts.
  - by destruct Hend.
  - destruct Hwait as [j d polled pool rest _ _|].
    + rewrite lockDiscipline_failedStages. cbn.
      by rewrite lockDiscipline_failedPolls.
    + rewrite <- (app_nil_r (concat _)). by rewrite lockDiscipline_failedStages.
Qed.

(** X15. The mutex discipline of [getActiveConnectionPool].  Every call on
    a manager that has an address map for the protocol returns with the
    manager's mutex released, and along the call the mutex is never taken
    while it is held, an address map is written only while it is held, and
    the call neither sleeps nor asks the load balancer while it holds
    it. *)
Theorem getActiveConnectionPool_mutex_discipline {W} (E : Env W)
    (balancerContext : LoadBalancerContext) (clusterSnapshot : clusterSnapshot)
    (protocol : string) (m : machine W) (cp : gmap string ConnectionPool) :
  protocolConnPool (mgr m) !! protocol = Some cp →
  ∃ r m' tr,
    getActiveConnectionPool E balancerContext clusterSnapshot protocol m = Ret (r, m')
    ∧ events m' = (events m ++ tr)%list
    ∧ lockDiscipline false tr = Some false.
Proof.
  intros Hcp.
  destruct (getActiveConnectionPool_shape E balancerContext clusterSnapshot
              protocol m cp Hcp) as (r & m' & tr & attempts & Hcall & Hev & Hsel & _).
  exists r, m', tr. split; [done|]. split; [done|].
  by eapply lockDiscipline_selection.
Qed.

Lemma getActiveConnectionPool_mutex_discipline_witness :
  ∃ r m' tr,
    getActiveConnectionPool (scripted exampleFactories) exampleLbCtx exampleSnapshot
      "Http1" (play [Some hostA; Some hostB; None] [true; false] false cm2)
    = Ret (r, m')
    ∧ events m' = (events (play [Some hostA; Some hostB; None] [true; false] false cm2)
                   ++ tr)%list
    ∧ lockDiscipline false tr = Some false.
Proof.
  apply (getActiveConnectionPool_mutex_discipline (scripted exampleFactories)
           exampleLbCtx exampleSnapshot "Http1"
           (play [Some hostA; Some hostB; None] [true; false] false cm2) ∅).
  vm_compute. reflexivity.
Defined.

Section ReturnedPool.
Context {W : Type} (E : Env W).
Context (balancerContext : LoadBalancerContext)
        (clusterSnapshot : clusterSnapshot) (protocol : string).

(** A turn that ends the call with a pool found the pool in the address
    map, under the address of the host it chose. *)
Lemma chooseTurn_ready i pools (m m' : machine W) pool :
  chooseTurn E balancerContext clusterSnapshot protocol i pools m
  = Return (inl pool) m' →
  ∃ host cp,
    events m' = (events m ++ [EvChooseHost (Some host);
                              EvLoadPool protocol (AddressString host) true;
                              EvCheckAndInit pool true])%list
    ∧ protocolConnPool (mgr m') !! protocol = Some cp
    ∧ cp !! AddressString host = Some pool.
Proof.
  unfold chooseTurn, doChooseHost.
  destruct (ChooseHost E (loadbalancer clusterSnapshot) balancerContext (world m))
    as [[host|] w]; cbn; [|done].
  destruct (protocolConnPool (mgr m) !! protocol) as [cp|] eqn:Hcp; [|done].
  unfold loadPool, emit; cbn. rewrite ?Hcp; cbn.
  destruct (cp !! AddressString host) as [found|] eqn:Hpool.
  - unfold doCheckAndInit; cbn.
    destruct (CheckAndInit E found (DownstreamContext balancerContext) w)
      as [[|] w']; cbn; [|done].
    intros [= <- <-]. cbn. exists host, cp. split; [|done].
    by rewrite <- !app_assoc.
  - rewrite ?Hcp; cbn. rewrite ?Hpool; cbn.
    destruct (ConnNewPoolFactories E !! protocol) as [factory|]; [|done].
    unfold doCheckAndInit, storePool; cbn.
    by destruct (CheckAndInit E (factory host) (DownstreamContext balancerContext) w).
Qed.

Lemma elem_of_attempts (a : attempt) (attempts : list attempt) :
  a ∈ attempts →
  EvChooseHost (Some (attemptHost a)) ∈ concat (attemptEvents protocol <$> attempts).
Proof.
  induction attempts as [|b attempts IH]; [by intros ?%elem_of_nil|].
  cbn [fmap list_fmap concat]. rewrite elem_of_cons, elem_of_app.
  intros [<-|Hin]; [left|right; by apply IH].
  destruct a; apply elem_of_cons; by left.
Qed.

(** The first loop, when it ends the call with a pool. *)
Lemma chooseLoop_ready n :
  ∀ i pools (m m' : machine W) pool cp,
    protocolConnPool (mgr m) !! protocol = Some cp →
    chooseLoop E balancerContext clusterSnapshot protocol n i pools m
    = Return (inl pool) m' →
    ∃ host cp' tr,
      events m' = (events m ++ tr ++ [EvCheckAndInit pool true])%list
      ∧ EvChooseHost (Some host) ∈ tr
      ∧ protocolConnPool (mgr m') !! protocol = Some cp'
      ∧ cp' !! AddressString host = Some pool.
Proof.
  induction n as [|n IH]; intros i pools m m' pool cp Hcp; cbn; [done|].
  destruct (chooseTurn_cases E balancerContext clusterSnapshot protocol i pools m cp Hcp)
    as [(m1 & r & last & Hturn & _)|(m1 & a & Hturn & Hev & Hkept)];
    rewrite Hturn.
  - intros [= -> ->].
    destruct (chooseTurn_ready _ _ _ _ _ Hturn) as (host & cp' & Hev & Hcp' & Hpool).
    exists host, cp', [EvChooseHost (Some host);
                       EvLoadPool protocol (AddressString host) true].
    split; [done|]. split; [|done]. apply elem_of_cons. by left.
  - intros Hloop. destruct Hkept as (_ & _ & cp0 & cp1 & _ & Hcp1 & _).
    destruct (IH _ _ _ _ _ _ Hcp1 Hloop) as (host & cp' & tr & Hev' & Hin & Hrest).
    exists host, cp', (attemptEvents protocol a ++ tr)%list.
    split; [rewrite Hev', Hev; by rewrite <- !app_assoc|].
    split; [|done]. apply elem_of_app. by right.
Qed.
End ReturnedPool.

(** X16. What [ConnPoolForCluster] hands out.  With the manager's own
    snapshot and a protocol that has an address map the call returns; when
    it returns a pool, the last thing the call did was a [CheckAndInit] on
    that pool that said ready, and the pool is the one cached in the
    protocol's address map under the address of a host that the load
    balancer chose during the call.  Every error of
    [getActiveConnectionPool] comes out as nil. *)
Theorem ConnPoolForCluster_pool_ready_and_cached {W} (E : Env W)
    (balancerContext : LoadBalancerContext) (cs : clusterSnapshot)
    (protocol : string) (m : machine W) (cp : gmap string ConnectionPool) :
  protocolConnPool (mgr m) !! protocol = Some cp →
  ∃ res m' tr,
    ConnPoolForCluster E balancerContext (Some (Internal cs)) protocol m
    = Ret (res, m')
    ∧ events m' = (events m ++ tr)%list
    ∧ (res = None
       ↔ ∃ e, getActiveConnectionPool E balancerContext cs protocol m
              = Ret (inr e, m'))
    ∧ ∀ pool, res = Some pool →
        (∃ tr0, tr = (tr0 ++ [EvCheckAndInit pool true])%list)
        ∧ ∃ host cp',
            EvChooseHost (Some host) ∈ tr
            ∧ protocolConnPool (mgr m') !! protocol = Some cp'
            ∧ cp' !! AddressString host = Some pool.
Proof.
  intros Hcp. unfold ConnPoolForCluster, getActiveConnectionPool.
  destruct (chooseLoop_cases E balancerContext cs protocol
              cycleTimes 0 [] m cp eq_refl Hcp)
    as [(attempts & m' & r & last & _ & Hloop & _ & _)
       |(attempts & m' & Hn & Hloop & Hev & Hkept)];
    cbn [app] in Hloop; rewrite Hloop.
  - destruct r as [pool|e].
    + destruct (chooseLoop_ready E _ _ _ _ _ _ _ _ _ _ Hcp Hloop)
        as (host & cp' & tr & Hev & Hin & Hcp' & Hpool).
      exists (Some pool), m', (tr ++ [EvCheckAndInit pool true])%list.
      split; [done|]. split; [done|]. split.
      * split; [done|]. by intros (e & [=]).
      * intros pool' [= <-]. split; [by exists tr|].
        exists host, cp'. split; [|done]. apply elem_of_app. by left.
    + destruct (chooseLoop_cases E balancerContext cs protocol
                  cycleTimes 0 [] m cp eq_refl Hcp)
        as [(attempts' & m1 & r1 & last1 & _ & Hloop1 & _ & Hev1 & _)
           |(attempts' & m1 & _ & Hloop1 & _)];
        cbn [app] in Hloop1; rewrite Hloop in Hloop1; [|done].
      injection Hloop1 as <- <-.
      eexists None, m', _. split; [done|]. split; [exact Hev1|].
      split; [|done]. split; [|done]. intros _. by exists e.
  - destruct (waitLoop_cases E (DownstreamContext balancerContext)
                (attemptPool <$> attempts) 4 Millisecond m')
      as (r & m'' & tr & Hwait & Hshape & Hev' & Hmgr).
    rewrite Hwait.
    assert (events m''
            = (events m ++ concat (attemptEvents protocol <$> attempts) ++ tr)%list)
      as Hevents by (rewrite Hev', Hev; by rewrite <- app_assoc).
    destruct r as [pool|e].
    + exists (Some pool), m'', (concat (attemptEvents protocol <$> attempts) ++ tr)%list.
      split; [done|]. split; [done|]. split.
      * split; [done|]. by intros (e & [=]).
      * intros pool' [= <-].
        inversion Hshape as [j d polled pool0 rest Hj Hpools Hr Htr|]; subst.
        split.
        { eexists (concat (attemptEvents protocol <$> attempts)
                   ++ concat (failedStage (attemptPool <$> attempts)
                                <$> take j (stagesFrom Millisecond 4))
                   ++ EvSleep d :: failedPolls polled)%list.
          by rewrite <- !app_assoc. }
        assert (pool ∈ attemptPool <$> attempts) as Hin.
        { rewrite Hpools. apply elem_of_app. right. apply elem_of_cons. by left. }
        apply list_elem_of_fmap in Hin as (a & -> & Hin).
        destruct Hkept as (_ & _ & cp0 & cp' & _ & Hcp' & _ & Hall).
        rewrite Forall_forall in Hall. destruct (Hall a Hin) as (Hpool & _).
        exists (attemptHost a), cp'. rewrite Hmgr.
        split; [|done]. apply elem_of_app. left. by apply elem_of_attempts.
    + eexists None, m'', _. split; [done|]. split; [exact Hevents|].
      split; [|done]. split; [|done]. intros _. by exists e.
Qed.

Lemma ConnPoolForCluster_pool_ready_and_cached_witness :
  ∃ res m' tr,
    ConnPoolForCluster (scripted exampleFactories) exampleLbCtx
      (Some (Internal exampleSnapshot)) "Http1"
      (play (replicate 5 (Some hostA)) [false; false; false; false; false; true]
         false cm2)
    = Ret (res, m')
    ∧ events m'
      = (events (play (replicate 5 (Some hostA))
                   [false; false; false; false; false; true] false cm2) ++ tr)%list
    ∧ (res = None
       ↔ ∃ e, getActiveConnectionPool (scripted exampleFactories) exampleLbCtx
                exampleSnapshot "Http1"
                (play (replicate 5 (Some hostA))
                   [false; false; false; false; false; true] false cm2)
              = Ret (inr e, m'))
    ∧ ∀ pool, res = Some pool →
        (∃ tr0, tr = (tr0 ++ [EvCheckAndInit pool true])%list)
        ∧ ∃ host cp',
            EvChooseHost (Some host) ∈ tr
            ∧ protocolConnPool (mgr m') !! "Http1" = Some cp'
            ∧ cp' !! AddressString host = Some pool.
Proof.
  apply (ConnPoolForCluster_pool_ready_and_cached (scripted exampleFactories)
           exampleLbCtx exampleSnapshot "Http1"
           (play (replicate 5 (Some hostA)) [false; false; false; false; false; true]
              false cm2) ∅).
  vm_compute. reflexivity.
Defined.

(** ** The health-check registries and the test mocks *)

(** X17. The two registries of package healthcheck compose differently.
    A session factory can be replaced: the last registration for a protocol
    wins, and it changes the session factory that [CreateHealthCheck] hands
    to the checker for that protocol only.  A common callback cannot be
    replaced: the first registration of a name wins and a second one
    changes nothing.  Registering a session factory leaves the common
    callbacks as they were. *)
Theorem healthcheck_registries_compose
    (r : healthcheck.registry) (p : string)
    (f1 f2 : healthcheck.HealthCheckSessionFactory)
    (name : string) (cb1 cb2 : healthcheck.HealthCheckCb)
    (cfg : healthcheck.HealthCheck) (cl : string) :
  healthcheck.RegisterSessionFactory p f2 (healthcheck.RegisterSessionFactory p f1 r)
  = healthcheck.RegisterSessionFactory p f2 r
  ∧ (healthcheck.Protocol cfg ≠ p →
       healthcheck.hc_sessionFactory
         (healthcheck.CreateHealthCheck (healthcheck.RegisterSessionFactory p f1 r)
            cfg cl)
       = healthcheck.hc_sessionFactory (healthcheck.CreateHealthCheck r cfg cl))
  ∧ snd (healthcheck.RegisterCommonCallbacks name cb2
           (snd (healthcheck.RegisterCommonCallbacks name cb1 r)))
    = snd (healthcheck.RegisterCommonCallbacks name cb1 r)
  ∧ healthcheck.commonCallbacks (healthcheck.RegisterSessionFactory p f1 r)
    = healthcheck.commonCallbacks r.
Proof.
  split; [|split; [|split]].
  - unfold healthcheck.RegisterSessionFactory. cbn. by rewrite insert_insert_eq.
  - intros Hne. unfold healthcheck.CreateHealthCheck.
    by rewrite RegisterSessionFactory_lookup_ne.
  - unfold healthcheck.RegisterCommonCallbacks.
    destruct (healthcheck.commonCallbacks r !! name) as [old|] eqn:Hname; cbn.
    + by rewrite Hname.
    + by rewrite lookup_insert_eq.
  - done.
Qed.

Lemma healthcheck_registries_compose_witness :
  healthcheck.hc_sessionFactory
    (healthcheck.CreateHealthCheck
       (healthcheck.RegisterSessionFactory "Http1" healthcheck.mockSessionFactory
          healthcheck.init)
       (healthcheck.mkHealthCheck "SofaRpc" 1000 500 2 2 0) "c1")
  = healthcheck.TCPDialSessionFactory.
Proof.
  pose proof (healthcheck_registries_compose healthcheck.init "Http1"
                healthcheck.mockSessionFactory healthcheck.mockSessionFactory
                "cb" 1 2 (healthcheck.mkHealthCheck "SofaRpc" 1000 500 2 2 0) "c1")
    as (_ & Hother & _).
  rewrite Hother; [reflexivity|]. cbn. discriminate.
Defined.

Lemma uint64_range z : (0 ≤ mock.uint64 z < 2 ^ 64)%Z.
Proof. unfold mock.uint64. apply Z.mod_pos_bound. lia. Qed.

Lemma testbit_high u i :
  (0 ≤ u < 2 ^ 64)%Z → (64 ≤ i)%Z → Z.testbit u i = false.
Proof.
  intros Hu Hi. rewrite <- (Z.mod_small u (2 ^ 64)) by lia.
  apply Z.mod_pow2_bits_high. lia.
Qed.

Lemma land_nonneg_r x y : (0 ≤ y)%Z → (0 ≤ Z.land x y)%Z.
Proof. intros Hy. apply Z.land_nonneg. by right. Qed.

(** X18. The health flags of [mockHost] are a 64-bit set.  Clearing a flag
    makes [ContainHealthFlag] false for it, whatever was set before;
    setting it makes [ContainHealthFlag] true unless the flag has no bit in
    its low 64 bits; neither touches a flag that shares no bit with it, the
    flag word stays a 64-bit value, and no flag operation changes what
    [Health()] and the mock session's [CheckHealth] answer, which is the
    status last given to [SetHealth]. *)
Theorem mockHost_health_flags (f g : Z) (h : mock.mockHost) (health : bool) :
  mock.ContainHealthFlag f (mock.ClearHealthFlag f h) = false
  ∧ mock.ContainHealthFlag f (mock.SetHealthFlag f h)
    = negb (mock.uint64 f =? 0)%Z
  ∧ (Z.land (mock.uint64 f) (mock.uint64 g) = 0%Z →
       mock.ContainHealthFlag g (mock.SetHealthFlag f h) = mock.ContainHealthFlag g h
       ∧ mock.ContainHealthFlag g (mock.ClearHealthFlag f h)
         = mock.ContainHealthFlag g h)
  ∧ ((0 ≤ mock.flag h < 2 ^ 64)%Z →
       (0 ≤ mock.flag (mock.SetHealthFlag f h) < 2 ^ 64)%Z
       ∧ (0 ≤ mock.flag (mock.ClearHealthFlag f h) < 2 ^ 64)%Z)
  ∧ snd (mock.CheckHealth
           (mock.NewSession ()
              (mock.MockHost
                 (mock.ClearHealthFlag g
                    (mock.SetHealthFlag f (mock.SetHealth health h))))))
    = health.
Proof.
  pose proof (uint64_range f) as Hf. pose proof (uint64_range g) as Hg.
  set (u := mock.uint64 f) in *. set (v := mock.uint64 g) in *.
  unfold mock.ContainHealthFlag, mock.SetHealthFlag, mock.ClearHealthFlag. cbn.
  fold u v. clearbody u v.
  split; [|split; [|split; [|split; [|done]]]].
  - replace (Z.land (Z.land (mock.flag h) (Z.lxor u (Z.ones 64))) u) with 0%Z; [done|].
    symmetry. apply Z.bits_inj'. intros i Hi.
    rewrite !Z.land_spec, Z.lxor_spec, Z.bits_0.
    destruct (decide (i < 64)%Z) as [Hlt|Hge].
    + rewrite Z.ones_spec_low by lia.
      by destruct (Z.testbit (mock.flag h) i), (Z.testbit u i).
    + rewrite (testbit_high u i) by lia. by rewrite !andb_false_r.
  - replace (Z.land (Z.lor (mock.flag h) u) u) with u.
    + destruct (Z.eqb_spec u 0) as [->|Hne]; cbn; [done|].
      apply Z.ltb_lt. lia.
    + apply Z.bits_inj'. intros i Hi. rewrite Z.land_spec, Z.lor_spec.
      by destruct (Z.testbit (mock.flag h) i), (Z.testbit u i).
  - intros Hdisjoint.
    assert (∀ i, (0 ≤ i)%Z → Z.testbit u i && Z.testbit v i = false) as Hbits.
    { intros i Hi. by rewrite <- Z.land_spec, Hdisjoint, Z.bits_0. }
    split; f_equal; apply Z.bits_inj'; intros i Hi; specialize (Hbits i Hi).
    + rewrite !Z.land_spec, Z.lor_spec.
      by destruct (Z.testbit (mock.flag h) i), (Z.testbit u i), (Z.testbit v i).
    + rewrite !Z.land_spec, Z.lxor_spec.
      destruct (decide (i < 64)%Z) as [Hlt|Hge].
      * rewrite Z.ones_spec_low by lia.
        by destruct (Z.testbit (mock.flag h) i), (Z.testbit u i), (Z.testbit v i).
      * rewrite (testbit_high v i) by lia. by rewrite !andb_false_r.
  - intros Hrange. split.
    + split; [apply Z.lor_nonneg; lia|].
      destruct (decide (Z.lor (mock.flag h) u = 0)%Z) as [->|Hne]; [lia|].
      apply Z.log2_lt_pow2; [pose proof (Z.lor_nonneg (mock.flag h) u); lia|].
      rewrite Z.log2_lor by lia.
      apply Z.max_lub_lt.
      * destruct (decide (mock.flag h = 0)%Z) as [->|?]; [cbn; lia|].
        apply Z.log2_lt_pow2; lia.
      * destruct (decide (u = 0)%Z) as [->|?]; [cbn; lia|].
        apply Z.log2_lt_pow2; lia.
    + assert (0 ≤ Z.lxor u (Z.ones 64))%Z as Hmask.
      { apply Z.lxor_nonneg.
        change (Z.ones 64) with 18446744073709551615%Z. split; lia. }
      split; [by apply land_nonneg_r|].
      destruct (decide (mock.flag h = 0)%Z) as [->|Hne]; [by rewrite Z.land_0_l|].
      set (x := Z.land (mock.flag h) (Z.lxor u (Z.ones 64))).
      assert (0 ≤ x)%Z as Hx by (by apply land_nonneg_r).
      destruct (decide (x = 0)%Z) as [->|Hxne]; [done|].
      apply Z.log2_lt_pow2; [lia|].
      pose proof (Z.log2_land (mock.flag h) (Z.lxor u (Z.ones 64))
                    ltac:(lia) Hmask) as Hlog.
      assert (Z.log2 (mock.flag h) < 64)%Z by (apply Z.log2_lt_pow2; lia).
      fold x in Hlog. lia.
Qed.

Lemma mockHost_health_flags_witness :
  mock.ContainHealthFlag 2%Z
    (mock.SetHealthFlag 1%Z (mock.mkMockHost "a:8080" 2%Z 0%Z true)) = true
  ∧ mock.ContainHealthFlag 2%Z
      (mock.ClearHealthFlag 1%Z (mock.mkMockHost "a:8080" 2%Z 0%Z true)) = true.
Proof.
  pose proof (mockHost_health_flags 1%Z 2%Z (mock.mkMockHost "a:8080" 2%Z 0%Z true) true)
    as (_ & _ & Hdisjoint & _).
  destruct Hdisjoint as [Hset Hclear]; [reflexivity|].
  split; [rewrite Hset|rewrite Hclear]; reflexivity.
Defined.

(** ** Connection pools and the cluster registry *)

(** X19. Connection pools outlive hosts and clusters.  No operation on
    clusters, hosts or snapshots touches the pool cache: after
    [AddOrUpdatePrimaryCluster], [RemovePrimaryCluster],
    [UpdateClusterHosts], [AppendClusterHosts], [RemoveClusterHost],
    [GetClusterSnapshot] and [PutClusterSnapshot] every protocol's address
    map is what it was, so the pool of a host that was removed, or whose
    cluster was removed, stays cached under its address. *)
Theorem connection_pools_outlive_hosts_and_clusters
    (F : Factory) (cm : clusterManager) :
  (∀ cfg ok cm', AddOrUpdatePrimaryCluster F cfg cm = Ret (ok, cm') →
     protocolConnPool cm' = protocolConnPool cm)
  ∧ (∀ clusterNames,
       protocolConnPool (snd (RemovePrimaryCluster clusterNames cm))
       = protocolConnPool cm)
  ∧ (∀ clusterName priority hostConfigs err cm',
       UpdateClusterHosts clusterName priority hostConfigs cm = Ret (err, cm') →
       protocolConnPool cm' = protocolConnPool cm)
  ∧ (∀ clusterName priority hostConfigs err cm',
       AppendClusterHosts clusterName priority hostConfigs cm = Ret (err, cm') →
       protocolConnPool cm' = protocolConnPool cm)
  ∧ (∀ clusterName hostAddress err cm',
       RemoveClusterHost clusterName hostAddress cm = Ret (err, cm') →
       protocolConnPool cm' = protocolConnPool cm)
  ∧ (∀ clusterName snapshot cm',
       GetClusterSnapshot clusterName cm = Ret (snapshot, cm') →
       protocolConnPool cm' = protocolConnPool cm)
  ∧ (∀ snapshot cm',
       PutClusterSnapshot snapshot cm = Ret cm' →
       protocolConnPool cm' = protocolConnPool cm).
Proof.
  split; [|split; [|split; [|split; [|split; [|split]]]]].
  - intros cfg ok cm' Hcall.
    by destruct (AddOrUpdatePrimaryCluster_inv _ _ _ _ _ Hcall)
      as [[_ ->]|(_ & pc & _ & _ & _ & Hsame & _)].
  - intros clusterNames.
    destruct (RemovePrimaryCluster clusterNames cm) as [err cm'] eqn:Hcall. cbn.
    destruct (RemovePrimaryCluster_inv _ _ _ _ Hcall) as (_ & _ & _ & Hframe & _).
    by rewrite Hframe.
  - intros clusterName priority hostConfigs err cm' Hcall.
    by destruct (host_mutator_frame _ cm
                   (or_introl (ex_intro _ clusterName (ex_intro _ priority
                      (ex_intro _ hostConfigs eq_refl)))) _ _ Hcall) as (Hsame & _).
  - intros clusterName priority hostConfigs err cm' Hcall.
    by destruct (host_mutator_frame _ cm
                   (or_intror (or_introl (ex_intro _ clusterName (ex_intro _ priority
                      (ex_intro _ hostConfigs eq_refl))))) _ _ Hcall) as (Hsame & _).
  - intros clusterName hostAddress err cm' Hcall.
    by destruct (host_mutator_frame _ cm
                   (or_intror (or_intror (ex_intro _ clusterName
                      (ex_intro _ hostAddress eq_refl)))) _ _ Hcall) as (Hsame & _).
  - intros clusterName snapshot cm'. unfold GetClusterSnapshot.
    destruct (primaryClusters cm !! clusterName) as [pc|]; [|by intros [= <- <-]].
    destruct (clusterObjs cm !! pc_cluster pc); [|done].
    destruct (rcuObjs cm !! configLock pc) as [v|]; [|done].
    destruct (rcu.Load v). by intros [= <- <-].
  - intros snapshot cm'. unfold PutClusterSnapshot.
    destruct snapshot as [[s|]|]; [|by intros [= <-]..].
    destruct (rcuObjs cm !! value s); [|done]. by intros [= <-].
Qed.

Lemma connection_pools_outlive_hosts_and_clusters_witness :
  ∃ cm',
    RemoveClusterHost "c1" "a:8080"
      (setProtocolConnPool {[ "Http1" := {[ "a:8080" := mkPool "Http1" hostA ]} ]} cm2)
    = Ret (None, cm')
    ∧ protocolConnPool cm' = {[ "Http1" := {[ "a:8080" := mkPool "Http1" hostA ]} ]}.
Proof.
  eexists. split; [vm_compute; reflexivity|].
  pose proof (connection_pools_outlive_hosts_and_clusters simpleFactory
                (setProtocolConnPool
                   {[ "Http1" := {[ "a:8080" := mkPool "Http1" hostA ]} ]} cm2))
    as (_ & _ & _ & _ & Hremove & _).
  apply (Hremove "c1" "a:8080" None). vm_compute. reflexivity.
Defined.
